(** * Handwritten-digit recognition notebook: a shallow embedding

    The notebook [CSCA5622_final_HaoYu_v1.ipynb] is a sequence of cells
    that call scikit-learn.  Each cell is embedded as a function; the
    library calls it makes are embedded after the library's Python code,
    with everything that scikit-learn leaves to a numerical solver or to
    the random generator kept abstract behind an interface:

    - [Float64]: the arithmetic of the feature matrix, with two instances:
      exact rationals extended with a missing value, and IEEE binary64;
    - [RandomState]: numpy's random generator;
    - [Learner]: the solvers behind [SVC], [KNeighborsClassifier] and
      [RandomForestClassifier]. *)

From Stdlib Require Import Floats QArith Qround ZArith List Lia Lqa Bool Permutation.
From stdpp Require Import gmap strings.
Import ListNotations.

Local Open Scope string_scope.
Local Open Scope list_scope.
Local Open Scope nat_scope.

(** ** Exceptions *)

Inductive exn : Type :=
| ValueError (msg : string)
| KeyError (key : string)
| IndexError
| NotFittedError
| AttributeError (msg : string).

Inductive res (A : Type) : Type :=
| Ok (a : A)
| Raise (e : exn).
Arguments Ok {A} a.
Arguments Raise {A} e.

Definition res_bind {A B} (m : res A) (k : A -> res B) : res B :=
  match m with
  | Ok a => k a
  | Raise e => Raise e
  end.

Notation "'try!' x <- m ; k" := (res_bind m (fun x => k))
  (at level 60, x name, m at next level, right associativity).

(** ** Arithmetic of the feature matrix

    [check_array] converts the data frame to a float64 array; a missing
    value is NaN there.  The operations the scaler uses are gathered in
    an interface with two instances. *)

Class Float64 (F : Type) : Type := {
  f_zero : F;
  f_one : F;
  f_nan : F;
  f_tiny : F;                       (* 10 * np.finfo(np.float64).eps *)
  f_add : F -> F -> F;
  f_sub : F -> F -> F;
  f_mul : F -> F -> F;
  f_div : F -> F -> F;
  f_lt : F -> F -> bool;            (* IEEE [<]: false when an operand is NaN *)
  f_isnan : F -> bool;
  f_isinf : F -> bool
}.

(** Exact arithmetic: a rational, or [None] for NaN.  Division by zero is
    NaN; infinities do not exist. *)
Definition xreal : Type := option Q.

Definition Qltb (a b : Q) : bool := negb (Qle_bool b a).

Definition xlift2 (op : Q -> Q -> Q) (a b : xreal) : xreal :=
  match a, b with
  | Some p, Some q => Some (op p q)
  | _, _ => None
  end.

Definition xdiv (a b : xreal) : xreal :=
  match a, b with
  | Some p, Some q => if Qeq_bool q 0 then None else Some (p / q)%Q
  | _, _ => None
  end.

Definition xlt (a b : xreal) : bool :=
  match a, b with
  | Some p, Some q => Qltb p q
  | _, _ => false
  end.

Definition xisnan (a : xreal) : bool :=
  match a with Some _ => false | None => true end.

#[export] Instance Exact : Float64 xreal := {|
  f_zero := Some 0%Q;
  f_one := Some 1%Q;
  f_nan := None;
  f_tiny := Some (10 # 4503599627370496)%Q;     (* 10 * 2^-52 *)
  f_add := xlift2 Qplus;
  f_sub := xlift2 Qminus;
  f_mul := xlift2 Qmult;
  f_div := xdiv;
  f_lt := xlt;
  f_isnan := xisnan;
  f_isinf := fun _ => false
|}.

(** IEEE 754 binary64, as numpy computes. *)
#[export] Instance Binary64 : Float64 float := {|
  f_zero := 0%float;
  f_one := 1%float;
  f_nan := PrimFloat.nan;
  f_tiny := (10 * 0x1p-52)%float;
  f_add := PrimFloat.add;
  f_sub := PrimFloat.sub;
  f_mul := PrimFloat.mul;
  f_div := PrimFloat.div;
  f_lt := PrimFloat.ltb;
  f_isnan := fun x => negb (PrimFloat.eqb x x);
  f_isinf := fun x => PrimFloat.eqb (PrimFloat.abs x) PrimFloat.infinity
|}.

(** What IEEE 754 says of the comparison and of NaN, and what the
    notebook's computations rely on: [<] is a strict order on the values
    that are not NaN; NaN is no infinity and is absorbing for [*] and
    [+]; and subtracting 1 from a value that is not NaN does not give
    NaN. *)
Class Float64Laws (F : Type) `{Float64 F} : Prop := {
  f_lt_irrefl : forall a, f_lt a a = false;
  f_lt_trans : forall a b c, f_lt a b = true -> f_lt b c = true -> f_lt a c = true;
  f_lt_cotrans : forall a b c,
    f_isnan b = false -> f_lt a c = true -> f_lt a b = true \/ f_lt b c = true;
  f_nan_isnan : f_isnan f_nan = true;
  f_nan_not_inf : forall a, f_isnan a = true -> f_isinf a = false;
  f_mul_nan : forall a b, f_isnan a = true -> f_isnan (f_mul a b) = true;
  f_add_nan : forall a b, f_isnan a = true -> f_isnan (f_add a b) = true;
  f_sub_one : forall a, f_isnan a = false -> f_isnan (f_sub a f_one) = false
}.

(** An integer count as a value of [F]: numpy converts the integer
    operands of a division to float64, exactly for a count below 2^53. *)
Definition f_of_nat {F : Type} `{Float64 F} (n : nat) : F :=
  Nat.iter n (fun x => f_add x f_one) f_zero.

(** ** sklearn.preprocessing.MinMaxScaler *)

Module MinMaxScaler.
Section Scaler.
Context {F : Type} `{Float64 F}.

(** A matrix is the list of its rows. *)
Definition matrix : Type := list (list F).

Definition n_features (X : matrix) : nat :=
  match X with
  | [] => 0
  | r :: _ => length r
  end.

Definition column (c : nat) (X : matrix) : list F :=
  map (fun r => nth c r f_nan) X.

(** [check_array(X, ensure_all_finite='allow-nan')]: at least one
    sample and one feature, a rectangular array, no infinity; NaN
    passes. *)
Definition check_array (X : matrix) : res matrix :=
  match X with
  | [] => Raise (ValueError "Found array with 0 sample(s)")
  | r0 :: _ =>
      if negb (forallb (fun r => length r =? length r0) X)
      then Raise (ValueError "inhomogeneous shape")
      else if length r0 =? 0
      then Raise (ValueError "Found array with 0 feature(s)")
      else if existsb (existsb f_isinf) X
      then Raise (ValueError "Input X contains infinity")
      else Ok X
  end.

(** [np.fmin] and [np.fmax]: a NaN operand is ignored. *)
Definition fmin (a b : F) : F :=
  if f_isnan b then a
  else if f_isnan a then b
  else if f_lt b a then b else a.

Definition fmax (a b : F) : F :=
  if f_isnan b then a
  else if f_isnan a then b
  else if f_lt a b then b else a.

(** [np.nanmin] and [np.nanmax] of one column; NaN when every entry is. *)
Definition nanmin (l : list F) : F := fold_left fmin l f_nan.
Definition nanmax (l : list F) : F := fold_left fmax l f_nan.

(** [_handle_zeros_in_scale]: a range below [10 * eps] is replaced by 1. *)
Definition handle_zeros_in_scale (scale : list F) : list F :=
  map (fun s => if f_lt s f_tiny then f_one else s) scale.

(** The attributes [partial_fit] stores. *)
Record fitted : Type := {
  data_min_ : list F;
  data_max_ : list F;
  data_range_ : list F;
  scale_ : list F;
  min_ : list F
}.

(** [fit], with [feature_range = (0, 1)]:
<<
    data_min = np.nanmin(X, axis=0); data_max = np.nanmax(X, axis=0)
    data_range = data_max - data_min
    self.scale_ = (1 - 0) / _handle_zeros_in_scale(data_range, copy=True)
    self.min_ = 0 - data_min * self.scale_
>> *)
Definition fit (X : matrix) : res fitted :=
  try! X <- check_array X;
  let cols := seq 0 (n_features X) in
  let dmin := map (fun c => nanmin (column c X)) cols in
  let dmax := map (fun c => nanmax (column c X)) cols in
  let drange := map (fun c => f_sub (nth c dmax f_nan) (nth c dmin f_nan)) cols in
  let scale := map (fun r => f_div (f_sub f_one f_zero) r)
                   (handle_zeros_in_scale drange) in
  let mn := map (fun c => f_sub f_zero (f_mul (nth c dmin f_nan) (nth c scale f_nan)))
                cols in
  Ok {| data_min_ := dmin; data_max_ := dmax; data_range_ := drange;
        scale_ := scale; min_ := mn |}.

(** [transform]: [X *= self.scale_; X += self.min_] ([clip=False]). *)
Definition transform_row (s : fitted) (r : list F) : list F :=
  map (fun c => f_add (f_mul (nth c r f_nan) (nth c (scale_ s) f_nan))
                      (nth c (min_ s) f_nan))
      (seq 0 (length (scale_ s))).

Definition transform (s : fitted) (X : matrix) : res matrix :=
  try! X <- check_array X;
  if n_features X =? length (scale_ s)
  then Ok (map (transform_row s) X)
  else Raise (ValueError "X has a different number of features").

(** [fit_transform(X)] is [fit(X).transform(X)]. *)
Definition fit_transform (X : matrix) : res (fitted * matrix) :=
  try! s <- fit X;
  try! Xs <- transform s X;
  Ok (s, Xs).
End Scaler.
End MinMaxScaler.

(** ** numpy.random.RandomState

    The generator is a state; every draw returns the drawn value and the
    next state.  Only the two draws the splitter makes are needed. *)

Class RandomState (R : Type) : Type := {
  rs_seed : nat -> R;                                  (* RandomState(seed) *)
  rs_permutation : R -> list nat -> list nat * R;      (* rng.permutation(x) *)
  rs_choice : R -> list nat -> nat -> list nat * R     (* rng.choice(a, size, replace=False) *)
}.

(** What numpy documents of the two draws: a permutation is a
    rearrangement of its argument, and a choice without replacement
    returns [size] distinct entries of the array. *)
Class RandomStateLaws (R : Type) `{RandomState R} : Prop := {
  rs_permutation_perm : forall g l, Permutation (fst (rs_permutation g l)) l;
  rs_choice_sub : forall g l k, k <= length l -> List.NoDup l ->
    length (fst (rs_choice g l k)) = k /\
    List.NoDup (fst (rs_choice g l k)) /\
    incl (fst (rs_choice g l k)) l
}.

(** A generator for concrete runs: the state is a counter, a permutation
    rotates its argument by the counter, a choice takes a prefix of the
    rotation. *)
Definition roll (g : nat) (l : list nat) : list nat :=
  skipn (g mod length l) l ++ firstn (g mod length l) l.

#[export] Instance CounterRandom : RandomState nat := {|
  rs_seed := fun seed => seed;
  rs_permutation := fun g l => (roll g l, S g);
  rs_choice := fun g l k => (firstn k (roll g l), S g)
|}.

(** ** sklearn.model_selection.train_test_split *)

Module ModelSelection.
Section Split.
Context {R : Type} `{RandomState R}.

(** [np.unique(y)]: the distinct labels in increasing order.  (The
    target frame has one column of digits 0-9.) *)
Definition unique (y : list nat) : list nat :=
  List.filter (fun v => existsb (Nat.eqb v) y) (seq 0 (S (list_max y))).

Definition bincount (classes y : list nat) : list nat :=
  map (fun c => count_occ Nat.eq_dec y c) classes.

(** [np.where(a == v)]: the positions holding [v], in increasing order. *)
Definition where_eq (a : list nat) (v : nat) : list nat :=
  List.filter (fun i => nth i a 0 =? v) (seq 0 (length a)).

(** [floored[inds] += 1]. *)
Definition incr_at (inds floored : list nat) : list nat :=
  map (fun i => nth i floored 0 + (if existsb (Nat.eqb i) inds then 1 else 0))
      (seq 0 (length floored)).

(** The loop of [_approximate_mode] over the distinct remainders,
    largest first:
<<
    for value in values:
        (inds,) = np.where(remainder == value)
        add_now = min(len(inds), need_to_add)
        inds = rng.choice(inds, size=add_now, replace=False)
        floored[inds] += 1
        need_to_add -= add_now
        if need_to_add == 0: break
>> *)
Fixpoint add_loop (values remainder floored : list nat) (need_to_add : nat)
    (rng : R) : list nat * R :=
  match values with
  | [] => (floored, rng)
  | value :: values' =>
      let inds := where_eq remainder value in
      let add_now := Nat.min (length inds) need_to_add in
      let '(inds, rng) := rs_choice rng inds add_now in
      let floored := incr_at inds floored in
      let need_to_add := need_to_add - add_now in
      if need_to_add =? 0 then (floored, rng)
      else add_loop values' remainder floored need_to_add rng
  end.

(** [_approximate_mode(class_counts, n_draws, rng)].  The quotient
    [class_counts / class_counts.sum() * n_draws] is taken exactly: its
    floor is an integer division, and its fractional part is kept
    multiplied by the total, which changes neither the equalities nor
    the order the loop looks at. *)
Definition approximate_mode (class_counts : list nat) (n_draws : nat) (rng : R)
    : list nat * R :=
  let total := list_sum class_counts in
  let floored := map (fun c => c * n_draws / total) class_counts in
  let need_to_add := n_draws - list_sum floored in
  if 0 <? need_to_add then
    let remainder := map (fun c => (c * n_draws) mod total) class_counts in
    let values := rev (unique remainder) in
    add_loop values remainder floored need_to_add rng
  else (floored, rng).

(** [_validate_shuffle_split] for a float [test_size] and
    [train_size=None]: [n_test = ceil(test_size * n_samples)],
    [n_train = n_samples - n_test], and an empty train set is refused.
    The product is taken exactly, [test_size] being the rational 2/10. *)
Definition validate_shuffle_split (n_samples : nat) (test_size : Q)
    : res (nat * nat) :=
  if negb (Qltb 0 test_size && Qltb test_size 1)
  then Raise (ValueError "test_size should be in the (0, 1) range")
  else
    let n_test := Z.to_nat (Qceiling (test_size * inject_Z (Z.of_nat n_samples))) in
    let n_train := n_samples - n_test in
    if n_train =? 0
    then Raise (ValueError "the resulting train set will be empty")
    else Ok (n_train, n_test).

(** The loop over the classes in [StratifiedShuffleSplit._iter_indices]:
<<
    for i in range(n_classes):
        permutation = rng.permutation(class_counts[i])
        perm_indices_class_i = class_indices[i].take(permutation, mode='clip')
        train.extend(perm_indices_class_i[: n_i[i]])
        test.extend(perm_indices_class_i[n_i[i] : n_i[i] + t_i[i]])
>> *)
Fixpoint class_loop (todo : list nat) (class_counts : list nat)
    (class_indices : list (list nat)) (n_i t_i : list nat)
    (train test : list nat) (rng : R) : list nat * list nat * R :=
  match todo with
  | [] => (train, test, rng)
  | i :: todo' =>
      let '(permutation, rng) :=
        rs_permutation rng (seq 0 (nth i class_counts 0)) in
      let perm_indices_class_i :=
        map (fun p => nth p (nth i class_indices []) 0) permutation in
      let train := train ++ firstn (nth i n_i 0) perm_indices_class_i in
      let test := test ++ firstn (nth i t_i 0)
                                 (skipn (nth i n_i 0) perm_indices_class_i) in
      class_loop todo' class_counts class_indices n_i t_i train test rng
  end.

(** The first split [StratifiedShuffleSplit(test_size=n_test,
    train_size=n_train, random_state=seed).split(X, y)] yields. *)
Definition stratified_shuffle_split (y : list nat) (n_train n_test : nat)
    (seed : nat) : res (list nat * list nat) :=
  let classes := unique y in
  let n_classes := length classes in
  let class_counts := bincount classes y in
  if existsb (fun c => c <? 2) class_counts
  then Raise (ValueError "The least populated class in y has only 1 member")
  else if n_train <? n_classes
  then Raise (ValueError "The train_size should be greater or equal to the number of classes")
  else if n_test <? n_classes
  then Raise (ValueError "The test_size should be greater or equal to the number of classes")
  else
    let class_indices := map (where_eq y) classes in
    let rng := rs_seed seed in
    let '(n_i, rng) := approximate_mode class_counts n_train rng in
    let class_counts_remaining :=
      map (fun i => nth i class_counts 0 - nth i n_i 0) (seq 0 n_classes) in
    let '(t_i, rng) := approximate_mode class_counts_remaining n_test rng in
    let '(train, test, rng) :=
      class_loop (seq 0 n_classes) class_counts class_indices n_i t_i [] [] rng in
    let '(train, rng) := rs_permutation rng train in
    let '(test, rng) := rs_permutation rng test in
    Ok (train, test).

(** [_safe_indexing(a, indices)]. *)
Definition safe_indexing {A} (d : A) (a : list A) (indices : list nat) : list A :=
  map (fun i => nth i a d) indices.

Record split (A : Type) : Type := {
  train_idx : list nat;
  test_idx : list nat;
  X_train : list A;
  X_test : list A;
  y_train : list nat;
  y_test : list nat
}.

(** [train_test_split(X, y, test_size=test_size, random_state=seed,
    stratify=y)]. *)
Definition train_test_split {A} (d : A) (X : list A) (y : list nat)
    (test_size : Q) (seed : nat) : res (split A) :=
  if negb (length X =? length y)
  then Raise (ValueError "Found input variables with inconsistent numbers of samples")
  else
    try! nn <- validate_shuffle_split (length X) test_size;
    try! tt <- stratified_shuffle_split y (fst nn) (snd nn) seed;
    Ok {| train_idx := fst tt; test_idx := snd tt;
          X_train := safe_indexing d X (fst tt);
          X_test := safe_indexing d X (snd tt);
          y_train := safe_indexing 0 y (fst tt);
          y_test := safe_indexing 0 y (snd tt) |}.
End Split.
Arguments train_idx {A} _.
Arguments test_idx {A} _.
Arguments X_train {A} _.
Arguments X_test {A} _.
Arguments y_train {A} _.
Arguments y_test {A} _.
End ModelSelection.

(** ** Cell 9: preprocessing

<<
    scaler = MinMaxScaler()
    X_scaled = scaler.fit_transform(X)
    X_train, X_test, y_train, y_test = train_test_split(
        X_scaled, y, test_size=0.2, random_state=42, stratify=y)
>> *)

Module Preprocessor.
Section Cell.
Context {F R : Type} `{Float64 F} `{RandomState R}.

Record preprocessed : Type := {
  scaler : MinMaxScaler.fitted (F:=F);
  X_scaled : list (list F);
  parts : ModelSelection.split (list F)
}.

Definition preprocess (X : list (list F)) (y : list nat) : res preprocessed :=
  try! sx <- MinMaxScaler.fit_transform X;
  try! sp <- ModelSelection.train_test_split (R:=R) [] (snd sx) y (2 # 10) 42;
  Ok {| scaler := fst sx; X_scaled := snd sx; parts := sp |}.
End Cell.
End Preprocessor.

(** ** sklearn.metrics *)

Module Metrics.

(** [accuracy_score(y_true, y_pred)]: the mean of [y_true == y_pred],
    the number of agreements divided by the number of samples.
    [_check_targets] refuses vectors of different lengths, and empty
    ones. *)
Definition accuracy_score (y_true y_pred : list nat) : res xreal :=
  if negb (length y_true =? length y_pred)
  then Raise (ValueError "Found input variables with inconsistent numbers of samples")
  else if length y_true =? 0
  then Raise (ValueError "Found empty input array")
  else
    let correct := length (List.filter (fun tp => fst tp =? snd tp) (combine y_true y_pred)) in
    Ok (xdiv (Some (inject_Z (Z.of_nat correct)))
             (Some (inject_Z (Z.of_nat (length y_true))))).

(** The same score in the arithmetic [F] of the data, as the scorer of
    the grid search returns it: one division of the two counts. *)
Definition accuracy_score_in {F : Type} `{Float64 F} (y_true y_pred : list nat) : res F :=
  if negb (length y_true =? length y_pred)
  then Raise (ValueError "Found input variables with inconsistent numbers of samples")
  else if length y_true =? 0
  then Raise (ValueError "Found empty input array")
  else
    let correct := length (List.filter (fun tp => fst tp =? snd tp) (combine y_true y_pred)) in
    Ok (f_div (f_of_nat correct) (f_of_nat (length y_true))).

(** [unique_labels(y_true, y_pred)]: the sorted labels of either vector. *)
Definition unique_labels (y_true y_pred : list nat) : list nat :=
  ModelSelection.unique (y_true ++ y_pred).

Definition count_pairs (t p : nat) (pairs : list (nat * nat)) : nat :=
  length (List.filter (fun tp => (fst tp =? t) && (snd tp =? p)) pairs).

(** [confusion_matrix(y_true, y_pred)]: one row and one column per
    label of [unique_labels], entry (i, j) counting the samples of true
    label [labels[i]] predicted as [labels[j]].  [_check_targets] refuses
    vectors of different lengths, and empty ones. *)
Definition confusion_matrix (y_true y_pred : list nat) : res (list (list nat)) :=
  if negb (length y_true =? length y_pred)
  then Raise (ValueError "Found input variables with inconsistent numbers of samples")
  else if length y_true =? 0
  then Raise (ValueError "Found empty input array")
  else
    let labels := unique_labels y_true y_pred in
    Ok (map (fun t => map (fun p => count_pairs t p (combine y_true y_pred)) labels)
            labels).
End Metrics.

(** ** Estimators *)

Inductive kernel : Type := rbf | poly.

Inductive gamma : Type :=
| gamma_scale
| gamma_auto
| gamma_value (g : Q).

Record svc_params : Type := {
  svc_C : Q;
  svc_kernel : kernel;
  svc_gamma : gamma;
  svc_random_state : option nat
}.

Inductive estimator : Type :=
| SVC (p : svc_params)
| KNeighborsClassifier (n_neighbors : nat)
| RandomForestClassifier (n_estimators : nat) (random_state : option nat).

(** [SVC()]: C=1.0, kernel='rbf', gamma='scale', random_state=None. *)
Definition SVC_default : svc_params :=
  {| svc_C := 1; svc_kernel := rbf; svc_gamma := gamma_scale; svc_random_state := None |}.

(** The solvers of scikit-learn (libsvm, the neighbour index, the tree
    builder) stay abstract.  A solver that draws random numbers takes the
    generator and returns it advanced; the neighbour classifier draws
    none.  A fitted model can refuse the rows it is given to predict
    (the neighbour classifier does, when it was fitted on fewer samples
    than [n_neighbors]). *)
Class Learner (F R : Type) : Type := {
  fitted_model : Type;
  libsvm_fit : svc_params -> R -> list (list F) -> list nat -> res fitted_model * R;
  knn_fit : nat -> list (list F) -> list nat -> res fitted_model;
  forest_fit : nat -> R -> list (list F) -> list nat -> res fitted_model * R;
  model_predict : fitted_model -> list (list F) -> res (list nat)
}.

(** A learner for concrete runs: it remembers the first training label
    and predicts it for every row. *)
#[export] Instance ConstantLearner (F R : Type) : Learner F R := {|
  fitted_model := nat;
  libsvm_fit := fun _ rng _ y => (Ok (hd 0 y), rng);
  knn_fit := fun _ _ y => Ok (hd 0 y);
  forest_fit := fun _ rng _ y => (Ok (hd 0 y), rng);
  model_predict := fun m X => Ok (map (fun _ => m) X)
|}.

(** ** sklearn.model_selection.StratifiedKFold *)

Module KFold.

(** The classes in the order of their first occurrence, and the labels
    encoded by their position in that order. *)
Definition first_seen (y : list nat) : list nat :=
  rev (nodup Nat.eq_dec (rev y)).

Fixpoint index_of (v : nat) (l : list nat) : nat :=
  match l with
  | [] => 0
  | x :: l' => if x =? v then 0 else S (index_of v l')
  end.

Definition encode (y : list nat) : list nat :=
  map (fun v => index_of v (first_seen y)) y.

(** [a[i :: n]]. *)
Definition stride (n i : nat) (a : list nat) : list nat :=
  map (fun j => nth j a 0) (List.filter (fun j => j mod n =? i) (seq 0 (length a))).

(** [_make_test_folds]: the fold every sample is tested in. *)
Definition make_test_folds (n_splits : nat) (y : list nat) : res (list nat) :=
  let y_encoded := encode y in
  let n_classes := length (first_seen y) in
  let y_counts := map (count_occ Nat.eq_dec y_encoded) (seq 0 n_classes) in
  if forallb (fun c => c <? n_splits) y_counts
  then Raise (ValueError "n_splits cannot be greater than the number of members in each class")
  else
    let y_order := flat_map (fun k => repeat k (nth k y_counts 0)) (seq 0 n_classes) in
    let allocation i k := count_occ Nat.eq_dec (stride n_splits i y_order) k in
    let folds_for_class k :=
      flat_map (fun i => repeat i (allocation i k)) (seq 0 n_splits) in
    Ok (map (fun j =>
               let k := nth j y_encoded 0 in
               nth (count_occ Nat.eq_dec (firstn j y_encoded) k) (folds_for_class k) 0)
            (seq 0 (length y))).

(** [StratifiedKFold(n_splits).split(X, y)]: for every fold the train
    and the test indices. *)
Definition split (n_splits : nat) (y : list nat) : res (list (list nat * list nat)) :=
  if length y <? n_splits
  then Raise (ValueError "Cannot have number of splits greater than the number of samples")
  else
    try! test_folds <- make_test_folds n_splits y;
    Ok (map (fun i =>
               (List.filter (fun j => negb (nth j test_folds 0 =? i)) (seq 0 (length y)),
                List.filter (fun j => nth j test_folds 0 =? i) (seq 0 (length y))))
            (seq 0 n_splits)).
End KFold.

(** ** The notebook's kernel state *)

Module Notebook.
Section Kernel.
Context {F R : Type} `{Float64 F} `{RandomState R} `{Learner F R}.

Definition is_Some_b {A} (o : option A) : bool :=
  match o with Some _ => true | None => false end.

(** An estimator object: its parameters, and what [fit] stored. *)
Record object : Type := {
  params : estimator;
  fitted : option fitted_model
}.

(** A grid point: one value per key of [param_grid]. *)
Record candidate : Type := {
  p_C : Q;
  p_gamma : gamma;
  p_kernel : kernel
}.

(** The objects live in a heap; variables hold references.  [models]
    and [results] are dicts, kept in insertion order.  [half_fitted]
    holds the objects whose [fit] raised after it had stored its first
    attributes ([n_features_in_], [class_weight_]) and before it stored
    a model. *)
Record kernel_state : Type := {
  heap : gmap nat object;
  half_fitted : gset nat;
  np_random : R;                          (* the global generator of numpy *)
  models : list (string * nat);
  results : list (string * xreal);
  best_params_ : option candidate
}.

Definition set_heap (h : gmap nat object) (st : kernel_state) : kernel_state :=
  {| heap := h; half_fitted := half_fitted st; np_random := np_random st;
     models := models st; results := results st; best_params_ := best_params_ st |}.
Definition set_half_fitted (a : gset nat) (st : kernel_state) : kernel_state :=
  {| heap := heap st; half_fitted := a; np_random := np_random st;
     models := models st; results := results st; best_params_ := best_params_ st |}.
Definition set_np_random (g : R) (st : kernel_state) : kernel_state :=
  {| heap := heap st; half_fitted := half_fitted st; np_random := g;
     models := models st; results := results st; best_params_ := best_params_ st |}.
Definition set_models (m : list (string * nat)) (st : kernel_state) : kernel_state :=
  {| heap := heap st; half_fitted := half_fitted st; np_random := np_random st;
     models := m; results := results st; best_params_ := best_params_ st |}.
Definition set_results (r : list (string * xreal)) (st : kernel_state) : kernel_state :=
  {| heap := heap st; half_fitted := half_fitted st; np_random := np_random st;
     models := models st; results := r; best_params_ := best_params_ st |}.
Definition set_best_params (c : option candidate) (st : kernel_state) : kernel_state :=
  {| heap := heap st; half_fitted := half_fitted st; np_random := np_random st;
     models := models st; results := results st; best_params_ := c |}.

(** A cell is a computation on the kernel state that returns a value or
    raises; what it wrote before raising stays written. *)
Definition M (A : Type) : Type := kernel_state -> res A * kernel_state.

Definition ret {A} (a : A) : M A := fun st => (Ok a, st).
Definition throw {A} (e : exn) : M A := fun st => (Raise e, st).
Definition bind {A B} (m : M A) (k : A -> M B) : M B :=
  fun st => match m st with
            | (Ok a, st') => k a st'
            | (Raise e, st') => (Raise e, st')
            end.
Definition lift {A} (r : res A) : M A := fun st => (r, st).
Definition get : M kernel_state := fun st => (Ok st, st).
Definition modify (f : kernel_state -> kernel_state) : M unit :=
  fun st => (Ok tt, f st).

Notation "'do!' x <- m ; k" := (bind m (fun x => k))
  (at level 60, x name, m at next level, right associativity).

(** [mapM]: a comprehension whose body is a computation. *)
Fixpoint for_each {A B} (f : A -> M B) (l : list A) : M (list B) :=
  match l with
  | [] => ret []
  | a :: l' =>
      do! b <- f a;
      do! bs <- for_each f l';
      ret (b :: bs)
  end.

(** *** Objects *)

(** A constructor call allocates an unfitted object, with no attribute
    of a fit. *)
Definition new (e : estimator) : M nat :=
  fun st =>
    let r := fresh (dom (heap st)) in
    (Ok r, set_heap (<[r := {| params := e; fitted := None |}]> (heap st))
             (set_half_fitted (half_fitted st ∖ {[r]}) st)).

Definition deref (r : nat) : M object :=
  fun st =>
    match heap st !! r with
    | Some o => (Ok o, st)
    | None => (Raise (KeyError "dangling reference"), st)
    end.

Definition store (r : nat) (o : object) : M unit :=
  modify (fun st => set_heap (<[r := o]> (heap st)) st).

(** [check_random_state(seed)] followed by the draws of a solver: an
    integer seed makes a generator of its own, [None] stands for the
    global generator, which the draws advance. *)
Definition with_random_state {A} (seed : option nat) (f : R -> res A * R) : M A :=
  match seed with
  | Some n => lift (fst (f (rs_seed n)))
  | None => fun st => let '(a, g) := f (np_random st) in (a, set_np_random g st)
  end.

(** [estimator.fit(X, y)].  [SVC] refuses a target with fewer than two
    classes before it calls libsvm; by then it has validated the data and
    stored [n_features_in_] and [class_weight_], which stay on the
    object.  A fit that returns stores the model, and the object is no
    longer half fitted. *)
Definition fit (r : nat) (X : list (list F)) (y : list nat) : M unit :=
  do! o <- deref r;
  do! m <-
    match params o with
    | SVC p =>
        if length (ModelSelection.unique y) <? 2
        then
          do! _ <- modify (fun st => set_half_fitted (half_fitted st ∪ {[r]}) st);
          throw (ValueError "The number of classes has to be greater than one")
        else with_random_state (svc_random_state p) (fun g => libsvm_fit p g X y)
    | KNeighborsClassifier k => lift (knn_fit k X y)
    | RandomForestClassifier n seed =>
        with_random_state seed (fun g => forest_fit n g X y)
    end;
  do! _ <- modify (fun st => set_half_fitted (half_fitted st ∖ {[r]}) st);
  store r {| params := params o; fitted := Some m |}.

(** [estimator.predict(X)]: [check_is_fitted] raises [NotFittedError] on
    an object without any attribute of a fit.  Then [X] is validated,
    which needs one row at least.  A half-fitted object fails on the
    first attribute of the model that is read; a fitted one predicts. *)
Definition predict (r : nat) (X : list (list F)) : M (list nat) :=
  do! o <- deref r;
  do! st <- get;
  if negb (is_Some_b (fitted o)) && negb (bool_decide (r ∈ half_fitted st))
  then throw NotFittedError
  else if length X =? 0
  then throw (ValueError "Found array with 0 sample(s)")
  else
    match fitted o with
    | Some m => lift (model_predict m X)
    | None => throw (AttributeError "'SVC' object has no attribute 'support_vectors_'")
    end.

(** [clone(estimator)]: a new unfitted object with the same parameters. *)
Definition clone (r : nat) : M nat :=
  do! o <- deref r;
  new (params o).

(** [estimator.set_params(C=..., gamma=..., kernel=...)]. *)
Definition set_params (r : nat) (c : candidate) : M unit :=
  do! o <- deref r;
  match params o with
  | SVC p =>
      store r {| params := SVC {| svc_C := p_C c; svc_kernel := p_kernel c;
                                  svc_gamma := p_gamma c;
                                  svc_random_state := svc_random_state p |};
                 fitted := fitted o |}
  | _ => throw (ValueError "Invalid parameter for estimator")
  end.

(** *** Dicts in insertion order *)

Fixpoint dict_get {V} (k : string) (d : list (string * V)) : option V :=
  match d with
  | [] => None
  | (k', v) :: d' => if String.eqb k k' then Some v else dict_get k d'
  end.

Fixpoint dict_set {V} (k : string) (v : V) (d : list (string * V)) : list (string * V) :=
  match d with
  | [] => [(k, v)]
  | (k', v') :: d' =>
      if String.eqb k k' then (k, v) :: d' else (k', v') :: dict_set k v d'
  end.

(** *** Cell 11: train the three models

<<
    models = {
        "SVM": SVC(kernel='rbf', C=10, gamma='scale', random_state=42),
        "KNN": KNeighborsClassifier(n_neighbors=5),
        "Random Forest": RandomForestClassifier(n_estimators=100, random_state=42)
    }
    results = {}
    for name, model in models.items():
        model.fit(X_train, y_train)
        y_pred = model.predict(X_test)
        accuracy = accuracy_score(y_test, y_pred)
        results[name] = accuracy
>> *)
Section Data.
Variables (X_train : list (list F)) (y_train : list nat).
Variables (X_test : list (list F)) (y_test : list nat).

Fixpoint train_loop (items : list (string * nat)) : M unit :=
  match items with
  | [] => ret tt
  | (name, model) :: items' =>
      do! _ <- fit model X_train y_train;
      do! y_pred <- predict model X_test;
      do! accuracy <- lift (Metrics.accuracy_score y_test y_pred);
      do! _ <- modify (fun st => set_results (dict_set name accuracy (results st)) st);
      train_loop items'
  end.

Definition cell11 : M unit :=
  do! svm <- new (SVC {| svc_C := 10; svc_kernel := rbf; svc_gamma := gamma_scale;
                         svc_random_state := Some 42 |});
  do! knn <- new (KNeighborsClassifier 5);
  do! forest <- new (RandomForestClassifier 100 (Some 42));
  do! _ <- modify (set_models [("SVM", svm); ("KNN", knn); ("Random Forest", forest)]);
  do! _ <- modify (set_results []);
  do! st <- get;
  train_loop (models st).

(** *** Cell 13: the confusion matrix of a trained model

<<
  y_pred_svm = models["SVM"].predict(X_test)
  cm = confusion_matrix(y_test, y_pred_svm)
>> *)
Definition evaluate (name : string) : M (list (list nat)) :=
  do! st <- get;
  match dict_get name (models st) with
  | None => throw (KeyError name)
  | Some model =>
      do! y_pred <- predict model X_test;
      lift (Metrics.confusion_matrix y_test y_pred)
  end.

Definition cell13 : M (list (list nat)) := evaluate "SVM".

(** *** Cell 17: grid search

<<
  param_grid = {
      'C': [0.1, 1, 10],
      'gamma': ['scale', 'auto', 0.01, 0.001],
      'kernel': ['rbf', 'poly']
  }
  grid_search = GridSearchCV(SVC(), param_grid, cv=3, scoring='accuracy',
                             verbose=2, n_jobs=-1)
  grid_search.fit(X_train, y_train)
>> *)
Record param_grid_t : Type := {
  grid_C : list Q;
  grid_gamma : list gamma;
  grid_kernel : list kernel
}.

Definition param_grid : param_grid_t :=
  {| grid_C := [1 # 10; 1; 10]%Q;
     grid_gamma := [gamma_scale; gamma_auto; gamma_value (1 # 100); gamma_value (1 # 1000)];
     grid_kernel := [rbf; poly] |}.

(** [ParameterGrid]: the product of the value lists, keys sorted
    ('C', 'gamma', 'kernel'), the last key varying fastest. *)
Definition ParameterGrid (g : param_grid_t) : list candidate :=
  flat_map (fun c =>
    flat_map (fun gm =>
      map (fun k => {| p_C := c; p_gamma := gm; p_kernel := k |}) (grid_kernel g))
      (grid_gamma g))
    (grid_C g).

(** [_fit_and_score] on a clone of the base estimator, with
    [error_score=nan]: a fit that raises scores NaN and is reported as
    failed; a scorer that raises scores NaN. *)
Definition fit_and_score (base : nat) (X : list (list F)) (y : list nat)
    (cand : candidate) (fold : list nat * list nat) : M (F * bool) :=
  do! e <- clone base;
  do! _ <- set_params e cand;
  let X_tr := ModelSelection.safe_indexing [] X (fst fold) in
  let y_tr := ModelSelection.safe_indexing 0 y (fst fold) in
  let X_te := ModelSelection.safe_indexing [] X (snd fold) in
  let y_te := ModelSelection.safe_indexing 0 y (snd fold) in
  fun st =>
    match fit e X_tr y_tr st with
    | (Raise _, st) => (Ok (f_nan, true), st)
    | (Ok _, st) =>
        match (do! y_pred <- predict e X_te;
               lift (Metrics.accuracy_score_in y_te y_pred)) st with
        | (Ok score, st) => (Ok (score, false), st)
        | (Raise _, st) => (Ok (f_nan, false), st)
        end
    end.

(** [np.average] of the scores of one candidate, in the arithmetic of
    the scores: they are added from left to right and the sum is divided
    by their number; NaN if one of them is. *)
Definition average (scores : list F) : F :=
  f_div (fold_left f_add scores f_zero) (f_of_nat (length scores)).

(** [rankdata(-a, method='min')]: one more than the number of
    strictly larger entries. *)
Definition rankdata_desc (a : list F) : list nat :=
  map (fun v => S (length (List.filter (fun w => f_lt v w) a))) a.

(** The ranks [_format_results] stores.  When every mean is NaN all rank
    first; otherwise a NaN is replaced by the smallest mean minus 1:
<<
    min_array_means = np.nanmin(array_means) - 1
    array_means = np.nan_to_num(array_means, nan=min_array_means)
    rank_result = rankdata(-array_means, method="min")
>> *)
Definition nan_to_num (means : list F) : list F :=
  let min_array_means := f_sub (MinMaxScaler.nanmin means) f_one in
  map (fun v => if f_isnan v then min_array_means else v) means.

Definition rank_test_score (means : list F) : list nat :=
  if forallb f_isnan means then map (fun _ => 1) means
  else rankdata_desc (nan_to_num means).

(** [np.argmin]: the first position of the minimum. *)
Fixpoint argmin (l : list nat) : nat :=
  match l with
  | [] => 0
  | x :: l' =>
      match l' with
      | [] => 0
      | _ => if x <=? nth (argmin l') l' 0 then 0 else S (argmin l')
      end
  end.

(** The cross-validation of [GridSearchCV.fit]: every candidate on
    every fold, candidates outermost.  With [n_jobs=-1] the library hands
    the fits to worker processes; each works on a clone of its own, and
    they are run here one after the other, in the order of the product. *)
Definition evaluate_candidates (base : nat) (X : list (list F)) (y : list nat)
    (candidate_params : list candidate) (folds : list (list nat * list nat))
    : M (list (list (F * bool))) :=
  for_each (fun cand => for_each (fit_and_score base X y cand) folds)
           candidate_params.

(** [cv_results_['mean_test_score']] and [best_index_]. *)
Definition mean_test_score (out : list (list (F * bool))) : list F :=
  map (fun row => average (map fst row)) out.

Definition best_index (out : list (list (F * bool))) : nat :=
  argmin (rank_test_score (mean_test_score out)).

(** [GridSearchCV(estimator, grid, cv=cv, scoring='accuracy').fit(X, y)],
    with [refit=True]; the value is [best_params_]. *)
Definition GridSearchCV_fit (estimator : nat) (grid : param_grid_t) (cv : nat)
    (X : list (list F)) (y : list nat) : M candidate :=
  do! folds <- lift (KFold.split cv y);
  do! base <- clone estimator;
  let candidate_params := ParameterGrid grid in
  do! out <- evaluate_candidates base X y candidate_params folds;
  if length (concat out) <? 1
  then throw (ValueError "No fits were performed")
  else if forallb snd (concat out)
  then throw (ValueError "All the fits failed")
  else
    match nth_error candidate_params (best_index out) with
    | None => throw IndexError
    | Some best =>
        do! _ <- modify (set_best_params (Some best));
        do! best_estimator_ <- clone base;
        do! _ <- set_params best_estimator_ best;
        do! _ <- fit best_estimator_ X y;
        ret best
    end.

(** The assignment binds [grid_search] to a new search object, which has
    no [best_params_] before its [fit] stores one. *)
Definition cell17 : M candidate :=
  do! svc <- new (SVC SVC_default);
  do! _ <- modify (set_best_params None);
  GridSearchCV_fit svc param_grid 3 X_train y_train.
End Data.
End Kernel.
End Notebook.

(** ** Exceptions of the plotting cells

    A cell that indexes the axes of a figure can raise a [TypeError]
    besides the exceptions above. *)

Inductive exception : Type :=
| Builtin (e : exn)
| TypeError (msg : string).

Inductive py (A : Type) : Type :=
| Return (a : A)
| Except (e : exception).
Arguments Return {A} a.
Arguments Except {A} e.

Definition py_bind {A B} (m : py A) (k : A -> py B) : py B :=
  match m with
  | Return a => k a
  | Except e => Except e
  end.

Definition of_res {A} (r : res A) : py A :=
  match r with
  | Ok a => Return a
  | Raise e => Except (Builtin e)
  end.

Notation "'py!' x <- m ; k" := (py_bind m (fun x => k))
  (at level 60, x name, m at next level, right associativity).

(** ** numpy arrays *)

Module Numpy.

(** [a[idx]] for an index that is not negative; [X.iloc[idx]] raises the
    same exception out of bounds. *)
Definition getitem {A} (a : list A) (idx : nat) : res A :=
  match nth_error a idx with
  | Some v => Ok v
  | None => Raise IndexError
  end.

(** The rows of [a.reshape(rows, cols)]. *)
Fixpoint take_rows {A} (rows cols : nat) (a : list A) : list (list A) :=
  match rows with
  | 0 => []
  | S rows' => firstn cols a :: take_rows rows' cols (skipn cols a)
  end.

(** [a.reshape(rows, cols)] of a flat array. *)
Definition reshape {A} (rows cols : nat) (a : list A) : res (list (list A)) :=
  if length a =? rows * cols
  then Ok (take_rows rows cols a)
  else Raise (ValueError "cannot reshape array").

(** [a != b] on two flat arrays: elementwise, an array of one element
    being broadcast; arrays of other lengths that differ are refused
    (since numpy 1.25). *)
Definition not_equal (a b : list nat) : res (list bool) :=
  match a, b with
  | [x], _ => Ok (map (fun v => negb (x =? v)) b)
  | _, [v] => Ok (map (fun x => negb (x =? v)) a)
  | _, _ =>
      if length a =? length b
      then Ok (map (fun xv => negb (fst xv =? snd xv)) (combine a b))
      else Raise (ValueError "operands could not be broadcast together")
  end.

(** [np.where(mask)[0]]: the positions that hold [True], in increasing
    order. *)
Definition where_true (mask : list bool) : list nat :=
  List.filter (fun i => nth i mask false) (seq 0 (length mask)).

End Numpy.

(** ** matplotlib.pyplot *)

Module Pyplot.

(** The second value of [plt.subplots(1, ncols)], with [squeeze=True]:
    one [Axes] object when [ncols] is 1, an array of [ncols] of them
    otherwise. *)
Inductive axes : Type :=
| Axes
| AxesArray (ncols : nat).

Definition subplots (ncols : nat) : res axes :=
  if ncols =? 0
  then Raise (ValueError "Number of columns must be a positive integer, not 0")
  else if ncols =? 1 then Ok Axes
  else Ok (AxesArray ncols).

(** [axes[i]]: the panel that is drawn on. *)
Definition getitem (a : axes) (i : nat) : py nat :=
  match a with
  | Axes => Except (TypeError "'Axes' object is not subscriptable")
  | AxesArray ncols => if i <? ncols then Return i else Except (Builtin IndexError)
  end.

End Pyplot.

(** ** Cell 7: sample digits and missing values

<<
    fig, axes = plt.subplots(1, 5, figsize=(10, 3))
    sample_indices = np.random.choice(len(X), 5, replace=False)
    for i, idx in enumerate(sample_indices):
        img = X.iloc[idx].to_numpy().reshape(8, 8)
        axes[i].imshow(img, cmap='gray')
        axes[i].set_title(f"Label: {y.iloc[idx]}")
    print("Missing values in X:", X.isnull().sum().sum())
>> *)

Module Exploration.
Section Cell.
Context {F R : Type} `{Float64 F} `{RandomState R} `{Learner F R}.

(** One image of the figure: the axes it is drawn on, its pixels and the
    label of its title. *)
Record panel : Type := {
  panel_axes : nat;
  image : list (list F);
  label : nat
}.

(** [np.random.choice(n, size, replace=False)], a draw from the global
    generator. *)
Definition random_choice (n size : nat) : Notebook.M (list nat) :=
  fun st =>
    if n =? 0
    then (Raise (ValueError "a must be greater than 0 unless no samples are taken"), st)
    else if n <? size
    then (Raise (ValueError "Cannot take a larger sample than population when 'replace=False'"),
          st)
    else
      let '(inds, g) := rs_choice (Notebook.np_random st) (seq 0 n) size in
      (Ok inds, Notebook.set_np_random g st).

(** The loop over [enumerate(sample_indices)]. *)
Fixpoint show_samples (axes : Pyplot.axes) (X : list (list F)) (y : list nat)
    (i : nat) (sample_indices : list nat) : py (list panel) :=
  match sample_indices with
  | [] => Return []
  | idx :: rest =>
      py! row <- of_res (Numpy.getitem X idx);
      py! img <- of_res (Numpy.reshape 8 8 row);
      py! a <- Pyplot.getitem axes i;
      py! lab <- of_res (Numpy.getitem y idx);
      py! shown <- show_samples axes X y (S i) rest;
      Return ({| panel_axes := a; image := img; label := lab |} :: shown)
  end.

Definition sample_digits (X : list (list F)) (y : list nat)
    : Notebook.kernel_state -> py (list panel) * Notebook.kernel_state :=
  fun st =>
    match Pyplot.subplots 5 with
    | Raise e => (Except (Builtin e), st)
    | Ok axes =>
        match random_choice (length X) 5 st with
        | (Raise e, st') => (Except (Builtin e), st')
        | (Ok sample_indices, st') => (show_samples axes X y 0 sample_indices, st')
        end
    end.

(** [X.isnull().sum().sum()]: the missing values of every column,
    summed over the columns. *)
Definition isnull_sum (X : list (list F)) : nat :=
  list_sum (map (fun c => length (List.filter f_isnan (MinMaxScaler.column c X)))
                (seq 0 (MinMaxScaler.n_features X))).

End Cell.
End Exploration.

(** ** sklearn.metrics.classification_report

    The numbers of the report as exact rationals, the quotients of
    counts that the library rounds to binary64; the layout of the text
    is left out. *)

Module Report.

(** One line of the report. *)
Record scores : Type := {
  precision : Q;
  recall : Q;
  f1_score : Q;
  support : nat
}.

(** [_prf_divide] with [zero_division="warn"]: 0 where the denominator
    is 0. *)
Definition prf_divide (numerator denominator : nat) : Q :=
  if denominator =? 0 then 0%Q
  else (inject_Z (Z.of_nat numerator) / inject_Z (Z.of_nat denominator))%Q.

(** Precision, recall and F1 from the counts of true positives, of
    predictions and of true labels:
<<
    precision = _prf_divide(tp_sum, pred_sum)
    recall = _prf_divide(tp_sum, true_sum)
    denom = beta2 * true_sum + pred_sum
    f_score = _prf_divide((1 + beta2) * tp_sum, denom)
>> *)
Definition prf (tp_sum pred_sum true_sum : nat) : scores :=
  {| precision := prf_divide tp_sum pred_sum;
     recall := prf_divide tp_sum true_sum;
     f1_score := prf_divide ((1 + 1) * tp_sum) (1 * true_sum + pred_sum);
     support := true_sum |}.

Definition tp_sum (y_true y_pred : list nat) (l : nat) : nat :=
  Metrics.count_pairs l l (combine y_true y_pred).
Definition pred_sum (y_pred : list nat) (l : nat) : nat := count_occ Nat.eq_dec y_pred l.
Definition true_sum (y_true : list nat) (l : nat) : nat := count_occ Nat.eq_dec y_true l.

(** [precision_recall_fscore_support(average=None)]: one line per label. *)
Definition per_label (y_true y_pred labels : list nat) : list scores :=
  map (fun l => prf (tp_sum y_true y_pred l) (pred_sum y_pred l) (true_sum y_true l))
      labels.

(** [average='micro']: the counts are summed over the labels first. *)
Definition micro (y_true y_pred labels : list nat) : scores :=
  prf (list_sum (map (tp_sum y_true y_pred) labels))
      (list_sum (map (pred_sum y_pred) labels))
      (list_sum (map (true_sum y_true) labels)).

Definition Qsum (a : list Q) : Q := fold_right Qplus 0%Q a.

(** [_nanaverage(a, weights)]: the mean, or the mean weighted by
    [weights]; weights that sum to 0 are ignored. *)
Definition nanaverage (a : list Q) (weights : option (list nat)) : Q :=
  let mean := (Qsum a / inject_Z (Z.of_nat (length a)))%Q in
  match weights with
  | None => mean
  | Some w =>
      if list_sum w =? 0 then mean
      else (Qsum (map (fun aw => fst aw * inject_Z (Z.of_nat (snd aw))) (combine a w))
            / inject_Z (Z.of_nat (list_sum w)))%Q
  end.

(** [average='macro'] and [average='weighted']: the lines of the labels
    averaged, the second with the supports as weights. *)
Definition averaged (lines : list scores) (weights : option (list nat)) : scores :=
  {| precision := nanaverage (map precision lines) weights;
     recall := nanaverage (map recall lines) weights;
     f1_score := nanaverage (map f1_score lines) weights;
     support := list_sum (map support lines) |}.

Record report : Type := {
  lines : list (nat * scores);
  accuracy : Q;
  macro_avg : scores;
  weighted_avg : scores
}.

(** [classification_report(y_true, y_pred)].  The labels are those of
    [unique_labels]; the micro average is printed as the accuracy, by
    its F1.  [_check_targets] refuses vectors of different lengths, and
    empty ones. *)
Definition classification_report (y_true y_pred : list nat) : res report :=
  if negb (length y_true =? length y_pred)
  then Raise (ValueError "Found input variables with inconsistent numbers of samples")
  else if length y_true =? 0
  then Raise (ValueError "Found empty input array")
  else
    let labels := Metrics.unique_labels y_true y_pred in
    let p := per_label y_true y_pred labels in
    Ok {| lines := combine labels p;
          accuracy := f1_score (micro y_true y_pred labels);
          macro_avg := averaged p None;
          weighted_avg := averaged p (Some (map support p)) |}.

End Report.

(** ** Cell 15: misclassified samples

<<
    y_test_np = np.array(y_test).ravel()
    y_pred_svm_np = np.array(y_pred_svm)
    misclassified_idx = np.where(y_test_np != y_pred_svm_np)[0]
    fig, axes = plt.subplots(1, min(5, len(misclassified_idx)), figsize=(10, 3))
    for i, idx in enumerate(misclassified_idx[:5]):
        img = X_test[idx].reshape(8, 8)
        axes[i].imshow(img, cmap='gray')
        axes[i].set_title(f"Pred: {y_pred_svm_np[idx]}, True: {y_test_np[idx]}")
>> *)

Module ErrorAnalysis.
Section Cell.
Context {F : Type}.

(** One image of the figure: the axes it is drawn on, its pixels and the
    two labels of its title. *)
Record panel : Type := {
  panel_axes : nat;
  image : list (list F);
  pred_label : nat;
  true_label : nat
}.

Definition misclassified_idx (y_test y_pred_svm : list nat) : res (list nat) :=
  try! mask <- Numpy.not_equal y_test y_pred_svm;
  Ok (Numpy.where_true mask).

(** The loop over [enumerate(misclassified_idx[:5])]. *)
Fixpoint show_misclassified (axes : Pyplot.axes) (X_test : list (list F))
    (y_test y_pred_svm : list nat) (i : nat) (idxs : list nat) : py (list panel) :=
  match idxs with
  | [] => Return []
  | idx :: rest =>
      py! row <- of_res (Numpy.getitem X_test idx);
      py! img <- of_res (Numpy.reshape 8 8 row);
      py! a <- Pyplot.getitem axes i;
      py! p <- of_res (Numpy.getitem y_pred_svm idx);
      py! t <- of_res (Numpy.getitem y_test idx);
      py! shown <- show_misclassified axes X_test y_test y_pred_svm (S i) rest;
      Return ({| panel_axes := a; image := img; pred_label := p; true_label := t |} :: shown)
  end.

Definition cell15 (X_test : list (list F)) (y_test y_pred_svm : list nat)
    : py (list panel) :=
  py! misclassified <- of_res (misclassified_idx y_test y_pred_svm);
  py! axes <- of_res (Pyplot.subplots (Nat.min 5 (length misclassified)));
  show_misclassified axes X_test y_test y_pred_svm 0 (firstn 5 misclassified).

End Cell.
End ErrorAnalysis.

(** * Properties *)

(** ** Lists *)

Lemma nth_map_seq {A} (f : nat -> A) (d : A) (n i : nat) :
  i < n -> nth i (map f (seq 0 n)) d = f i.
Proof.
  intros Hi.
  rewrite (nth_indep _ d (f 0)) by (rewrite length_map, length_seq; exact Hi).
  rewrite (map_nth f (seq 0 n) 0 i), seq_nth by exact Hi.
  reflexivity.
Qed.

Lemma In_nth_lt {A} (l : list A) (x d : A) :
  In x l -> exists i, i < length l /\ nth i l d = x.
Proof. apply In_nth. Qed.

(** ** The scaler in exact arithmetic *)

Module ScalerFacts.
Import MinMaxScaler.

Definition present (v : xreal) : Prop := exists q, v = Some q.

(** No value of the matrix is missing. *)
Definition no_missing (X : list (list xreal)) : Prop :=
  Forall (Forall present) X.

Lemma Qltb_lt (a b : Q) : Qltb a b = true <-> (a < b)%Q.
Proof.
  unfold Qltb. rewrite negb_true_iff. split.
  - intros Hf. apply Qnot_le_lt. intros Hle.
    apply Qle_bool_iff in Hle. congruence.
  - intros Hlt. destruct (Qle_bool b a) eqn:E; [|reflexivity].
    apply Qle_bool_iff in E. exfalso. apply (Qlt_not_le _ _ Hlt E).
Qed.

Lemma Qltb_ge (a b : Q) : Qltb a b = false <-> (b <= a)%Q.
Proof.
  unfold Qltb. rewrite negb_false_iff. apply Qle_bool_iff.
Qed.

Lemma no_infinity (X : list (list xreal)) :
  existsb (existsb (f_isinf (F:=xreal))) X = false.
Proof.
  induction X as [|r X IH]; [reflexivity|].
  cbn [existsb]. rewrite IH, orb_false_r.
  clear. induction r as [|v r IHr]; [reflexivity|].
  cbn [existsb]. rewrite IHr. reflexivity.
Qed.

Lemma check_array_ok (X X' : list (list xreal)) :
  check_array X = Ok X' ->
  X' = X /\ X <> [] /\ 0 < n_features X /\
  Forall (fun r => length r = n_features X) X.
Proof.
  unfold check_array. destruct X as [|r0 X0]; [discriminate|].
  rewrite no_infinity.
  destruct (forallb _ _) eqn:Hall; cbn [negb]; [|discriminate].
  destruct (length r0 =? 0) eqn:Hd; [discriminate|].
  intros [= <-]. repeat split; try discriminate.
  - apply Nat.eqb_neq in Hd. simpl. lia.
  - apply List.Forall_forall. intros r Hr.
    rewrite forallb_forall in Hall. apply Nat.eqb_eq, Hall, Hr.
Qed.

Lemma forallb_length {A} (n : nat) (X : list (list A)) :
  forallb (fun r => length r =? n) X = forallb (fun m => m =? n) (map (@length A) X).
Proof. induction X as [|r X IH]; simpl; [|rewrite IH]; reflexivity. Qed.

(** In exact arithmetic [check_array] looks at the shape only. *)
Lemma check_array_shape (X X' : list (list xreal)) :
  map (@length xreal) X = map (@length xreal) X' ->
  check_array X = Ok X -> check_array X' = Ok X'.
Proof.
  unfold check_array. destruct X as [|r0 X0], X' as [|r0' X0']; try discriminate.
  intros Hshape. injection Hshape as H0 Hrest.
  assert (Hfa : forallb (fun r => length r =? length r0') (r0' :: X0')
                = forallb (fun r => length r =? length r0) (r0 :: X0)).
  { rewrite !forallb_length. simpl map. rewrite H0, Hrest. reflexivity. }
  rewrite Hfa, <- H0, !no_infinity.
  destruct (forallb _ (r0 :: X0)); cbn [negb]; [|discriminate].
  destruct (length r0 =? 0); [discriminate|]. reflexivity.
Qed.

Lemma fmin_some (a b : Q) :
  exists m, fmin (F:=xreal) (Some a) (Some b) = Some m /\ (m <= a)%Q /\ (m <= b)%Q /\
            (m = a \/ m = b).
Proof.
  unfold fmin. simpl. destruct (Qltb b a) eqn:E.
  - exists b. apply Qltb_lt in E. repeat split; auto using Qle_refl, Qlt_le_weak.
  - exists a. apply Qltb_ge in E. repeat split; auto using Qle_refl.
Qed.

Lemma fmax_some (a b : Q) :
  exists m, fmax (F:=xreal) (Some a) (Some b) = Some m /\ (a <= m)%Q /\ (b <= m)%Q /\
            (m = a \/ m = b).
Proof.
  unfold fmax. simpl. destruct (Qltb a b) eqn:E.
  - exists b. apply Qltb_lt in E. repeat split; auto using Qle_refl, Qlt_le_weak.
  - exists a. apply Qltb_ge in E. repeat split; auto using Qle_refl.
Qed.

Lemma fold_fmin_some (l : list xreal) (a : Q) :
  Forall present l ->
  exists m, fold_left fmin l (Some a) = Some m /\ (m <= a)%Q /\
            forall q, In (Some q) l -> (m <= q)%Q.
Proof.
  intros Hl. revert a. induction Hl as [|v l [b ->] _ IH]; intros a.
  - exists a. simpl. split; [reflexivity|]. split; [apply Qle_refl|tauto].
  - cbn [fold_left]. destruct (fmin_some a b) as (m & -> & Ha & Hb & _).
    destruct (IH m) as (m' & -> & Hm & Hall).
    exists m'. split; [reflexivity|]. split; [eapply Qle_trans; eauto|].
    intros q [[= ->]|Hq]; [eapply Qle_trans; eauto|auto].
Qed.

Lemma fold_fmax_some (l : list xreal) (a : Q) :
  Forall present l ->
  exists m, fold_left fmax l (Some a) = Some m /\ (a <= m)%Q /\
            forall q, In (Some q) l -> (q <= m)%Q.
Proof.
  intros Hl. revert a. induction Hl as [|v l [b ->] _ IH]; intros a.
  - exists a. simpl. split; [reflexivity|]. split; [apply Qle_refl|tauto].
  - cbn [fold_left]. destruct (fmax_some a b) as (m & -> & Ha & Hb & _).
    destruct (IH m) as (m' & -> & Hm & Hall).
    exists m'. split; [reflexivity|]. split; [eapply Qle_trans; eauto|].
    intros q [[= ->]|Hq]; [eapply Qle_trans; eauto|auto].
Qed.

(** The minimum and the maximum of a column without missing values bound
    every entry. *)
Lemma nanmin_nanmax_bounds (l : list xreal) :
  Forall present l -> l <> [] ->
  exists mn mx, nanmin l = Some mn /\ nanmax l = Some mx /\
    forall q, In (Some q) l -> (mn <= q)%Q /\ (q <= mx)%Q.
Proof.
  intros Hl Hne. destruct Hl as [|v l [a ->] Hl]; [congruence|].
  unfold nanmin, nanmax. cbn [fold_left].
  change (fmin f_nan (Some a)) with (Some a).
  change (fmax f_nan (Some a)) with (Some a).
  destruct (fold_fmin_some l a Hl) as (mn & -> & Hmn & Hmin).
  destruct (fold_fmax_some l a Hl) as (mx & -> & Hmx & Hmax).
  exists mn, mx. repeat split; try reflexivity.
  - destruct H as [[= ->]|Hq]; auto.
  - destruct H as [[= ->]|Hq]; auto.
Qed.

(** What [fit] stores, column by column. *)
Definition column_scale (mn mx : xreal) : xreal :=
  let rg := f_sub mx mn in
  f_div (f_sub f_one f_zero) (if f_lt rg f_tiny then f_one else rg).

Lemma fit_ok (X : list (list xreal)) :
  check_array X = Ok X ->
  exists s, fit X = Ok s /\
    length (scale_ s) = n_features X /\
    forall c, c < n_features X ->
      nth c (data_min_ s) f_nan = nanmin (column c X) /\
      nth c (data_max_ s) f_nan = nanmax (column c X) /\
      nth c (scale_ s) f_nan
        = column_scale (nanmin (column c X)) (nanmax (column c X)) /\
      nth c (min_ s) f_nan
        = f_sub f_zero (f_mul (nanmin (column c X))
                              (column_scale (nanmin (column c X)) (nanmax (column c X)))).
Proof.
  intros Hc. unfold fit. rewrite Hc. cbn [res_bind].
  eexists. split; [reflexivity|]. cbn [scale_ data_min_ data_max_ min_].
  unfold handle_zeros_in_scale. rewrite !map_map.
  split; [rewrite length_map, length_seq; reflexivity|].
  intros c Hlt.
  assert (Hsc : forall c, c < n_features X ->
    nth c (map (fun x => f_div (f_sub f_one f_zero)
                  (if f_lt (f_sub (nth x (map (fun c0 => nanmax (column c0 X))
                                               (seq 0 (n_features X))) f_nan)
                                  (nth x (map (fun c0 => nanmin (column c0 X))
                                               (seq 0 (n_features X))) f_nan))
                           f_tiny
                   then f_one
                   else f_sub (nth x (map (fun c0 => nanmax (column c0 X))
                                          (seq 0 (n_features X))) f_nan)
                              (nth x (map (fun c0 => nanmin (column c0 X))
                                          (seq 0 (n_features X))) f_nan)))
              (seq 0 (n_features X))) f_nan
    = column_scale (nanmin (column c X)) (nanmax (column c X))).
  { intros c' Hc'. rewrite nth_map_seq by exact Hc'.
    rewrite !nth_map_seq by exact Hc'. reflexivity. }
  repeat split.
  - rewrite nth_map_seq by exact Hlt. reflexivity.
  - rewrite nth_map_seq by exact Hlt. reflexivity.
  - apply Hsc, Hlt.
  - rewrite nth_map_seq by exact Hlt. rewrite Hsc by exact Hlt.
    rewrite nth_map_seq by exact Hlt. reflexivity.
Qed.

Lemma fit_transform_ok (X : list (list xreal)) :
  check_array X = Ok X ->
  exists s, fit X = Ok s /\ fit_transform X = Ok (s, map (transform_row s) X).
Proof.
  intros Hc. destruct (fit_ok X Hc) as (s & Hfit & Hlen & _).
  exists s. split; [exact Hfit|].
  unfold fit_transform, transform. rewrite Hfit. cbn [res_bind].
  rewrite Hc. cbn [res_bind]. rewrite Hlen, Nat.eqb_refl. reflexivity.
Qed.

Lemma tiny_small : (0 < 10 # 4503599627370496)%Q /\ (10 # 4503599627370496 < 1)%Q.
Proof. split; reflexivity. Qed.

(** One scaled value, from the column's minimum and maximum. *)
Lemma scaled_value (x mn mx : Q) :
  (mn <= x)%Q -> (x <= mx)%Q ->
  exists q,
    f_add (f_mul (Some x) (column_scale (Some mn) (Some mx)))
          (f_sub f_zero (f_mul (Some mn) (column_scale (Some mn) (Some mx))))
      = Some q /\
    (0 <= q)%Q /\ (q <= 1)%Q /\ (mx == mn -> q == 0)%Q.
Proof.
  intros Hlo Hhi. destruct tiny_small as [Ht0 Ht1].
  unfold column_scale. cbn [f_add f_mul f_sub f_div f_lt f_tiny f_one f_zero Exact xlift2 xlt].
  destruct (Qltb (mx - mn) (10 # 4503599627370496)) eqn:E.
  - apply Qltb_lt in E. cbn [xdiv xlift2].
    change (Qeq_bool 1 0) with false. cbv iota.
    eexists. split; [reflexivity|].
    assert (Hq : (x * ((1 - 0) / 1) + (0 - mn * ((1 - 0) / 1)) == x - mn)%Q) by field.
    rewrite Hq. repeat split; try lra.
  - apply Qltb_ge in E. cbn [xdiv xlift2].
    assert (Hpos : (0 < mx - mn)%Q) by lra.
    destruct (Qeq_bool (mx - mn) 0) eqn:Ez.
    { apply Qeq_bool_iff in Ez. lra. }
    eexists. split; [reflexivity|].
    assert (Hq : (x * ((1 - 0) / (mx - mn)) + (0 - mn * ((1 - 0) / (mx - mn)))
                  == (x - mn) / (mx - mn))%Q) by (field; lra).
    rewrite Hq. repeat split.
    + apply Qle_shift_div_l; [exact Hpos|]. lra.
    + apply Qle_shift_div_r; [exact Hpos|]. lra.
    + intros Heq. lra.
Qed.

(** A column of a matrix without missing values, below the feature
    count, has a present value in every row. *)
Lemma column_present (X : list (list xreal)) (c : nat) :
  no_missing X -> Forall (fun r => length r = n_features X) X ->
  c < n_features X -> Forall present (column c X).
Proof.
  intros Hnm Hlen Hc. unfold no_missing in Hnm. unfold column.
  apply List.Forall_forall.
  intros v Hv. apply in_map_iff in Hv as (r & <- & Hr).
  rewrite List.Forall_forall in Hnm, Hlen.
  specialize (Hnm r Hr). rewrite List.Forall_forall in Hnm.
  apply Hnm, nth_In. rewrite (Hlen r Hr). exact Hc.
Qed.

(** Every entry of a scaled row, from the entry it comes from. *)
Lemma transform_row_nth (s : fitted) (r : list xreal) (c : nat) :
  c < length (scale_ s) ->
  nth c (transform_row s r) f_nan
  = f_add (f_mul (nth c r f_nan) (nth c (scale_ s) f_nan)) (nth c (min_ s) f_nan).
Proof.
  intros Hc. unfold transform_row. rewrite nth_map_seq by exact Hc. reflexivity.
Qed.

Lemma scaled_entry (X : list (list xreal)) (s : fitted) (r : list xreal) (c : nat) :
  check_array X = Ok X -> no_missing X -> fit X = Ok s -> In r X ->
  c < n_features X ->
  exists q mn mx,
    nth c (transform_row s r) f_nan = Some q /\
    nth c (data_min_ s) f_nan = Some mn /\
    nth c (data_max_ s) f_nan = Some mx /\
    (0 <= q)%Q /\ (q <= 1)%Q /\ (mx == mn -> q == 0)%Q.
Proof.
  intros Hc Hnm Hfit Hr Hlt.
  destruct (check_array_ok X X Hc) as (_ & Hne & Hd & Hlen).
  destruct (fit_ok X Hc) as (s' & Hfit' & Hsl & Hcols).
  rewrite Hfit in Hfit'. injection Hfit' as <-.
  destruct (Hcols c Hlt) as (Hmin & Hmax & Hscale & Hmn).
  assert (Hcp := column_present X c Hnm Hlen Hlt).
  assert (Hcne : column c X <> []).
  { unfold column. destruct X; [congruence|discriminate]. }
  destruct (nanmin_nanmax_bounds _ Hcp Hcne) as (mn & mx & Emn & Emx & Hb).
  assert (Hx : exists x, nth c r f_nan = Some x).
  { rewrite List.Forall_forall in Hcp. apply Hcp.
    unfold column. apply in_map_iff. exists r. split; [reflexivity|exact Hr]. }
  destruct Hx as (x & Ex).
  assert (Hin : In (Some x) (column c X)).
  { unfold column. apply in_map_iff. exists r. split; [exact Ex|exact Hr]. }
  destruct (Hb x Hin) as (Hlo & Hhi).
  destruct (scaled_value x mn mx Hlo Hhi) as (q & Eq & H0 & H1 & Hz).
  exists q, mn, mx.
  rewrite transform_row_nth by (rewrite Hsl; exact Hlt).
  rewrite Hscale, Hmn, Hmin, Hmax, Emn, Emx, Ex.
  repeat split; auto.
Qed.

Lemma transform_row_length (s : fitted (F:=xreal)) (r : list xreal) :
  length (transform_row s r) = length (scale_ s).
Proof. unfold transform_row. rewrite length_map, length_seq. reflexivity. Qed.

(** A value scaled into the unit interval. *)
Definition in_unit_interval (v : xreal) : Prop :=
  exists q, v = Some q /\ (0 <= q)%Q /\ (q <= 1)%Q.

(** The value is the rational zero. *)
Definition is_zero (v : xreal) : Prop :=
  exists q, v = Some q /\ (q == 0)%Q.

(** Column [c] of the fitted scaler has a maximum equal to its minimum. *)
Definition zero_range (s : fitted (F:=xreal)) (c : nat) : Prop :=
  exists mn mx, nth c (data_min_ s) f_nan = Some mn /\
                nth c (data_max_ s) f_nan = Some mx /\ (mx == mn)%Q.

(** X26: in exact arithmetic, on a matrix without missing values, the
    scaling step succeeds, every scaled value lies in the closed interval
    from 0 to 1, and every row is 0 in a column whose maximum equals its
    minimum. *)
Theorem scaled_features_in_unit_interval (X : list (list xreal)) :
  check_array X = Ok X -> no_missing X ->
  exists s Xs,
    fit_transform X = Ok (s, Xs) /\
    Forall (Forall in_unit_interval) Xs /\
    forall c, c < n_features X -> zero_range s c ->
      Forall (fun r => is_zero (nth c r f_nan)) Xs.
Proof.
  intros Hc Hnm.
  destruct (fit_transform_ok X Hc) as (s & Hfit & Hft).
  destruct (fit_ok X Hc) as (s' & Hfit' & Hsl & _).
  rewrite Hfit in Hfit'. injection Hfit' as <-.
  exists s, (map (transform_row s) X). split; [exact Hft|]. split.
  - apply List.Forall_forall. intros row Hrow.
    apply in_map_iff in Hrow as (r & <- & Hr).
    apply List.Forall_forall. intros v Hv.
    destruct (In_nth_lt _ _ f_nan Hv) as (c & Hcl & <-).
    rewrite transform_row_length, Hsl in Hcl.
    destruct (scaled_entry X s r c Hc Hnm Hfit Hr Hcl)
      as (q & mn & mx & Eq & _ & _ & H0 & H1 & _).
    exists q. auto.
  - intros c Hcl (mn & mx & Emn & Emx & Heq).
    apply List.Forall_forall. intros row Hrow.
    apply in_map_iff in Hrow as (r & <- & Hr).
    destruct (scaled_entry X s r c Hc Hnm Hfit Hr Hcl)
      as (q & mn' & mx' & Eq & Emn' & Emx' & _ & _ & Hz).
    rewrite Emn in Emn'. rewrite Emx in Emx'.
    injection Emn' as <-. injection Emx' as <-.
    exists q. split; [exact Eq|]. apply Hz, Heq.
Qed.

(** The same matrix scaled in exact arithmetic and in binary64. *)
Definition six_over_one_exact : list (list xreal) := [[Some 1%Q; Some 7%Q]; [Some 6%Q; Some 7%Q]].
Definition six_over_one_binary64 : list (list float) := [[1%float; 7%float]; [6%float; 7%float]].

Lemma scaled_features_in_unit_interval_witness :
  exists s Xs,
    fit_transform six_over_one_exact = Ok (s, Xs) /\
    Forall (Forall in_unit_interval) Xs /\
    forall c, c < n_features six_over_one_exact -> zero_range s c ->
      Forall (fun r => is_zero (nth c r f_nan)) Xs.
Proof.
  apply (scaled_features_in_unit_interval six_over_one_exact).
  - reflexivity.
  - repeat constructor; eexists; reflexivity.
Defined.

(** In binary64 the bound fails: the maximum 6 of a column whose
    minimum is 1 is scaled to [6 * 0.2 + (0 - 1 * 0.2)], which is the next
    float above 1. *)
Lemma scaled_feature_above_one_binary64 :
  exists s Xs,
    fit_transform six_over_one_binary64 = Ok (s, Xs) /\
    PrimFloat.leb (nth 0 (nth 1 Xs []) f_nan) 1 = false /\
    nth 0 (nth 1 Xs []) f_nan = 0x1.0000000000001p+0%float.
Proof.
  eexists. eexists. split; [vm_compute; reflexivity|].
  split; vm_compute; reflexivity.
Qed.

End ScalerFacts.

(** ** The stratified split *)

Module SplitFacts.
Import ModelSelection.

Lemma list_max_ge (l : list nat) (v : nat) : In v l -> v <= list_max l.
Proof.
  induction l as [|x l IH]; simpl; [tauto|].
  intros [->|Hv]; [lia|]. specialize (IH Hv). lia.
Qed.

Lemma existsb_eqb_In (v : nat) (l : list nat) :
  existsb (Nat.eqb v) l = true <-> In v l.
Proof.
  rewrite existsb_exists. split.
  - intros (x & Hx & E). apply Nat.eqb_eq in E. subst. exact Hx.
  - intros Hv. exists v. split; [exact Hv|apply Nat.eqb_refl].
Qed.

Lemma unique_In (y : list nat) (v : nat) : In v (unique y) <-> In v y.
Proof.
  unfold unique. rewrite filter_In, in_seq, existsb_eqb_In. split.
  - tauto.
  - intros Hv. pose proof (list_max_ge y v Hv). split; [lia|exact Hv].
Qed.

Lemma NoDup_filter_seq (f : nat -> bool) (a n : nat) : List.NoDup (List.filter f (seq a n)).
Proof. apply List.NoDup_filter, seq_NoDup. Qed.

Lemma unique_NoDup (y : list nat) : List.NoDup (unique y).
Proof. apply NoDup_filter_seq. Qed.

Lemma where_eq_In (a : list nat) (v i : nat) :
  In i (where_eq a v) <-> i < length a /\ nth i a 0 = v.
Proof.
  unfold where_eq. rewrite filter_In, in_seq, Nat.eqb_eq. lia.
Qed.

Lemma where_eq_NoDup (a : list nat) (v : nat) : List.NoDup (where_eq a v).
Proof. apply NoDup_filter_seq. Qed.

Lemma filter_map_S (f : nat -> bool) (l : list nat) :
  List.filter f (map S l) = map S (List.filter (fun i => f (S i)) l).
Proof.
  induction l as [|x l IH]; simpl; [reflexivity|].
  rewrite IH. destruct (f (S x)); reflexivity.
Qed.

Lemma where_eq_cons (x : nat) (a : list nat) (v : nat) :
  where_eq (x :: a) v
  = (if x =? v then [0] else []) ++ map S (where_eq a v).
Proof.
  unfold where_eq. cbn [length]. rewrite <- cons_seq, <- seq_shift.
  cbn [List.filter nth]. rewrite filter_map_S. cbn [nth].
  destruct (x =? v); reflexivity.
Qed.

Lemma where_eq_length (a : list nat) (v : nat) :
  length (where_eq a v) = count_occ Nat.eq_dec a v.
Proof.
  induction a as [|x a IH]; [reflexivity|].
  rewrite where_eq_cons, length_app, length_map, IH. cbn [count_occ].
  destruct (Nat.eq_dec x v) as [->|Hne].
  - rewrite Nat.eqb_refl. reflexivity.
  - apply Nat.eqb_neq in Hne. rewrite Hne. reflexivity.
Qed.

(** A concatenation of duplicate-free, pairwise disjoint lists. *)
Lemma NoDup_concat_map {A} (f : A -> list nat) (l : list A) :
  List.NoDup l ->
  (forall a, In a l -> List.NoDup (f a)) ->
  (forall a b i, In a l -> In b l -> In i (f a) -> In i (f b) -> a = b) ->
  List.NoDup (concat (map f l)).
Proof.
  intros Hnd. induction Hnd as [|a l Hnotin Hnd IH]; intros Hf Hdisj.
  - constructor.
  - cbn [map concat]. apply List.NoDup_app.
    + apply Hf. left. reflexivity.
    + apply IH.
      * intros b Hb. apply Hf. right. exact Hb.
      * intros b c i Hb Hc. apply Hdisj; right; assumption.
    + intros i Hia Hic. apply in_concat in Hic as (lb & Hlb & Hib).
      apply in_map_iff in Hlb as (b & <- & Hb).
      assert (a = b) by (apply (Hdisj a b i); auto using in_eq, in_cons).
      subst. contradiction.
Qed.

(** The positions of the classes partition the positions of [y]. *)
Lemma class_indices_partition (y : list nat) :
  Permutation (concat (map (where_eq y) (unique y))) (seq 0 (length y)).
Proof.
  apply Permutation.NoDup_Permutation.
  - apply NoDup_concat_map.
    + apply unique_NoDup.
    + intros v _. apply where_eq_NoDup.
    + intros a b i _ _ Ha Hb.
      apply where_eq_In in Ha, Hb. destruct Ha as [_ <-], Hb as [_ <-]. reflexivity.
  - apply seq_NoDup.
  - intros i. rewrite in_seq, in_concat. split.
    + intros (l & Hl & Hi). apply in_map_iff in Hl as (v & <- & _).
      apply where_eq_In in Hi. lia.
    + intros Hi. exists (where_eq y (nth i y 0)). split.
      * apply in_map, unique_In, nth_In. lia.
      * apply where_eq_In. split; [lia|reflexivity].
Qed.

Lemma map_nth_seq_gen {A} (d : A) (l : list A) :
  map (fun i => nth i l d) (seq 0 (length l)) = l.
Proof.
  apply (nth_ext _ _ d d).
  - rewrite length_map, length_seq. reflexivity.
  - intros i Hi. rewrite length_map, length_seq in Hi.
    rewrite nth_map_seq by exact Hi. reflexivity.
Qed.

Lemma map_nth_seq (l : list nat) :
  map (fun i => nth i l 0) (seq 0 (length l)) = l.
Proof.
  apply (nth_ext _ _ 0 0).
  - rewrite length_map, length_seq. reflexivity.
  - intros i Hi. rewrite length_map, length_seq in Hi.
    rewrite nth_map_seq by exact Hi. reflexivity.
Qed.

Lemma list_sum_map_add {A} (f g : A -> nat) (l : list A) :
  list_sum (map (fun a => f a + g a) l) = list_sum (map f l) + list_sum (map g l).
Proof. induction l as [|a l IH]; simpl; [reflexivity|]. rewrite IH. lia. Qed.

Lemma list_sum_indicator {A} (f : A -> bool) (l : list A) :
  list_sum (map (fun a => if f a then 1 else 0) l) = length (List.filter f l).
Proof.
  induction l as [|a l IH]; simpl; [reflexivity|].
  rewrite IH. destruct (f a); reflexivity.
Qed.

(** *** [floored[inds] += 1] *)

Lemma incr_at_length (inds fl : list nat) : length (incr_at inds fl) = length fl.
Proof. unfold incr_at. rewrite length_map, length_seq. reflexivity. Qed.

Lemma incr_at_nth (inds fl : list nat) (k : nat) :
  k < length fl ->
  nth k (incr_at inds fl) 0
  = nth k fl 0 + (if existsb (Nat.eqb k) inds then 1 else 0).
Proof. intros Hk. unfold incr_at. rewrite nth_map_seq by exact Hk. reflexivity. Qed.

Lemma incr_at_sum (inds fl : list nat) :
  List.NoDup inds -> (forall i, In i inds -> i < length fl) ->
  list_sum (incr_at inds fl) = list_sum fl + length inds.
Proof.
  intros Hnd Hlt. unfold incr_at.
  rewrite (list_sum_map_add (fun i => nth i fl 0)
             (fun i => if existsb (Nat.eqb i) inds then 1 else 0)).
  rewrite map_nth_seq, list_sum_indicator. f_equal.
  apply Permutation_length, Permutation.NoDup_Permutation.
  - apply NoDup_filter_seq.
  - exact Hnd.
  - intros i. rewrite filter_In, in_seq, existsb_eqb_In. split; [tauto|].
    intros Hi. specialize (Hlt i Hi). split; [lia|exact Hi].
Qed.

(** *** The arithmetic of [_approximate_mode] *)

Lemma list_sum_cons (a : nat) (l : list nat) : list_sum (a :: l) = a + list_sum l.
Proof. reflexivity. Qed.

Lemma div_mod_sum (cs : list nat) (n N : nat) :
  list_sum (map (fun c => c * n / N) cs) * N
  + list_sum (map (fun c => (c * n) mod N) cs)
  = n * list_sum cs.
Proof.
  induction cs as [|c cs IH]; [simpl; lia|].
  cbn [map]. rewrite !list_sum_cons.
  pose proof (Nat.div_mod_eq (c * n) N) as Hdm.
  set (q := c * n / N) in *. set (r := (c * n) mod N) in *.
  rewrite Nat.mul_add_distr_r, Nat.mul_add_distr_l, (Nat.mul_comm n c). lia.
Qed.

Lemma sum_mod_bound (cs : list nat) (n N : nat) :
  0 < N -> list_sum (map (fun c => (c * n) mod N) cs) <= length cs * (N - 1).
Proof.
  intros HN. induction cs as [|c cs IH]; [simpl; lia|].
  cbn [map length]. rewrite list_sum_cons.
  pose proof (Nat.mod_upper_bound (c * n) N). lia.
Qed.

Lemma length_concat_rev {A B} (f : A -> list B) (l : list A) :
  length (concat (map f (rev l))) = length (concat (map f l)).
Proof.
  induction l as [|a l IH]; [reflexivity|].
  cbn [rev map concat]. rewrite map_app, concat_app, !length_app, IH.
  cbn [map concat]. rewrite app_nil_r. lia.
Qed.

Lemma available_all (remainder : list nat) :
  length (concat (map (where_eq remainder) (rev (unique remainder))))
  = length remainder.
Proof.
  rewrite length_concat_rev.
  rewrite (Permutation_length (class_indices_partition remainder)).
  apply length_seq.
Qed.

Section Draws.
Context {R : Type} `{RandomState R} {Laws : RandomStateLaws R}.

(** The number of positions the loop can still raise. *)
Definition available (remainder values : list nat) : nat :=
  length (concat (map (where_eq remainder) values)).

Lemma add_loop_spec (remainder : list nat) (values : list nat) :
  List.NoDup values ->
  forall (floored : list nat) (need : nat) (rng : R),
    length floored = length remainder ->
    let floored' := fst (add_loop values remainder floored need rng) in
    length floored' = length remainder /\
    (forall k, k < length remainder ->
       nth k floored 0 <= nth k floored' 0 <= nth k floored 0 + 1 /\
       (~ In (nth k remainder 0) values -> nth k floored' 0 = nth k floored 0)) /\
    list_sum floored' = list_sum floored + Nat.min need (available remainder values).
Proof.
  intros Hnd. induction Hnd as [|v values Hv Hnd IH]; intros floored need rng Hlen.
  - cbn [add_loop fst]. unfold available. cbn [map concat length].
    rewrite Nat.min_0_r. repeat split; auto; lia.
  - cbn [add_loop].
    pose proof (rs_choice_sub rng (where_eq remainder v)
                  (Nat.min (length (where_eq remainder v)) need)
                  (Nat.le_min_l _ _) (where_eq_NoDup _ _)) as (Hcl & Hcn & Hci).
    destruct (rs_choice rng (where_eq remainder v)
                (Nat.min (length (where_eq remainder v)) need)) as [inds rng'].
    cbn [fst] in Hcl, Hcn, Hci.
    assert (Hin : forall i, In i inds -> i < length floored /\ nth i remainder 0 = v).
    { intros i Hi. apply Hci, where_eq_In in Hi. rewrite Hlen. exact Hi. }
    assert (Havail : available remainder (v :: values)
                     = length (where_eq remainder v) + available remainder values).
    { unfold available. cbn [map concat]. apply length_app. }
    assert (Hsum := incr_at_sum inds floored Hcn (fun i Hi => proj1 (Hin i Hi))).
    assert (Hpt : forall k, k < length remainder ->
              nth k floored 0 <= nth k (incr_at inds floored) 0 <= nth k floored 0 + 1 /\
              (nth k remainder 0 <> v -> nth k (incr_at inds floored) 0 = nth k floored 0)).
    { intros k Hk. rewrite incr_at_nth by (rewrite Hlen; exact Hk).
      destruct (existsb (Nat.eqb k) inds) eqn:E.
      - apply existsb_eqb_In, Hin in E. split; [lia|]. tauto.
      - split; [lia|]. intros _. lia. }
    destruct (need - Nat.min (length (where_eq remainder v)) need =? 0) eqn:Ez.
    + apply Nat.eqb_eq in Ez. cbn [fst].
      split; [rewrite incr_at_length; exact Hlen|]. split.
      * intros k Hk. destruct (Hpt k Hk) as [Hb Hs]. split; [exact Hb|].
        intros Hnot. apply Hs. intros E. apply Hnot. left. symmetry. exact E.
      * rewrite Hsum, Hcl, Havail. lia.
    + apply Nat.eqb_neq in Ez.
      specialize (IH (incr_at inds floored)
                     (need - Nat.min (length (where_eq remainder v)) need) rng').
      rewrite incr_at_length in IH. specialize (IH Hlen).
      cbn zeta in IH. destruct IH as (IHl & IHp & IHs).
      split; [exact IHl|]. split.
      * intros k Hk. destruct (Hpt k Hk) as [Hb Hs].
        destruct (IHp k Hk) as [Hb' Hs'].
        destruct (Nat.eq_dec (nth k remainder 0) v) as [E|E].
        -- assert (Hk' : ~ In (nth k remainder 0) values) by (rewrite E; exact Hv).
           rewrite (Hs' Hk'). split; [exact Hb|].
           intros Hnot. exfalso. apply Hnot. left. symmetry. exact E.
        -- rewrite (Hs E) in Hb'. split; [exact Hb'|].
           intros Hnot. rewrite Hs'; [apply Hs, E|].
           intros Hi. apply Hnot. right. exact Hi.
      * rewrite IHs, Hsum, Hcl, Havail. lia.
Qed.

(** The draws add up to [n_draws], and every class gets the floor of its
    share or one more. *)
Lemma approximate_mode_spec (class_counts : list nat) (n_draws : nat) (rng : R) :
  0 < list_sum class_counts ->
  let n_i := fst (approximate_mode class_counts n_draws rng) in
  length n_i = length class_counts /\
  list_sum n_i = n_draws /\
  forall k, k < length class_counts ->
    nth k class_counts 0 * n_draws / list_sum class_counts <= nth k n_i 0
    <= nth k class_counts 0 * n_draws / list_sum class_counts + 1.
Proof.
  intros HN. unfold approximate_mode.
  set (N := list_sum class_counts) in *.
  set (floored := map (fun c => c * n_draws / N) class_counts).
  set (remainder := map (fun c => (c * n_draws) mod N) class_counts).
  assert (Hfl : length floored = length remainder).
  { unfold floored, remainder. rewrite !length_map. reflexivity. }
  assert (Hrl : length remainder = length class_counts).
  { unfold remainder. apply length_map. }
  assert (Hnth : forall k, k < length class_counts ->
            nth k floored 0 = nth k class_counts 0 * n_draws / N).
  { intros k Hk. unfold floored.
    rewrite (nth_indep _ 0 ((fun c => c * n_draws / N) 0))
      by (rewrite length_map; exact Hk).
    apply (map_nth (fun c => c * n_draws / N)). }
  pose proof (div_mod_sum class_counts n_draws N) as Hdm.
  pose proof (sum_mod_bound class_counts n_draws N HN) as Hmb.
  fold floored remainder in Hdm. fold remainder in Hmb. fold N in Hdm.
  assert (Hle : list_sum floored <= n_draws) by nia.
  destruct (0 <? n_draws - list_sum floored) eqn:Eneed.
  - pose proof (add_loop_spec remainder (rev (unique remainder))
                  (List.NoDup_rev (unique_NoDup remainder))
                  floored (n_draws - list_sum floored) rng Hfl) as Hspec.
    cbn zeta in Hspec. destruct Hspec as (Hl & Hp & Hs).
    unfold available in Hs. rewrite available_all in Hs.
    cbn zeta. split; [rewrite Hl; exact Hrl|]. split.
    + rewrite Hs.
      assert ((n_draws - list_sum floored) * N <= length remainder * N) by nia.
      assert (n_draws - list_sum floored <= length remainder) by nia.
      lia.
    + intros k Hk. rewrite <- Hrl in Hk. destruct (Hp k Hk) as [Hb _].
      rewrite Hrl in Hk. rewrite (Hnth k Hk) in Hb. exact Hb.
  - apply Nat.ltb_ge in Eneed. cbn zeta. cbn [fst].
    split; [unfold floored; apply length_map|]. split; [lia|].
    intros k Hk. rewrite (Hnth k Hk). lia.
Qed.

(** Drawing as many as there are returns the counts themselves. *)
Lemma approximate_mode_all (class_counts : list nat) (rng : R) :
  0 < list_sum class_counts ->
  fst (approximate_mode class_counts (list_sum class_counts) rng) = class_counts.
Proof.
  intros HN. unfold approximate_mode.
  assert (Hfl : map (fun c => c * list_sum class_counts / list_sum class_counts)
                    class_counts = class_counts).
  { transitivity (map (fun c => c) class_counts); [|apply map_id].
    apply map_ext. intros c. apply Nat.div_mul. lia. }
  rewrite Hfl, Nat.sub_diag. reflexivity.
Qed.

(** *** The loop over the classes *)

(** What one class contributes: its train part and its test part. *)
Definition class_part (class_indices : list (list nat)) (n_i t_i : list nat)
    (k : nat) (p : list nat * list nat) : Prop :=
  Permutation (fst p ++ snd p) (nth k class_indices []) /\
  length (fst p) = nth k n_i 0 /\
  length (snd p) = nth k t_i 0.

Lemma class_loop_spec (class_counts : list nat) (class_indices : list (list nat))
    (n_i t_i : list nat) (todo : list nat) :
  (forall k, In k todo ->
     length (nth k class_indices []) = nth k class_counts 0 /\
     nth k n_i 0 <= nth k class_counts 0 /\
     nth k t_i 0 = nth k class_counts 0 - nth k n_i 0) ->
  forall (train test : list nat) (rng : R),
  exists parts,
    fst (fst (class_loop todo class_counts class_indices n_i t_i train test rng))
      = train ++ concat (map fst parts) /\
    snd (fst (class_loop todo class_counts class_indices n_i t_i train test rng))
      = test ++ concat (map snd parts) /\
    Forall2 (class_part class_indices n_i t_i) todo parts.
Proof.
  induction todo as [|k todo IH]; intros Hk train test rng.
  - exists []. cbn. rewrite !app_nil_r. auto.
  - cbn [class_loop].
    destruct (Hk k (in_eq _ _)) as (Hlen & Hn & Ht).
    pose proof (rs_permutation_perm rng (seq 0 (nth k class_counts 0))) as Hperm.
    destruct (rs_permutation rng (seq 0 (nth k class_counts 0))) as [permutation rng'].
    cbn [fst] in Hperm.
    set (pic := map (fun p => nth p (nth k class_indices []) 0) permutation).
    assert (Hpic : Permutation pic (nth k class_indices [])).
    { unfold pic. eapply Permutation_trans; [apply Permutation_map, Hperm|].
      rewrite <- Hlen, map_nth_seq. reflexivity. }
    assert (Hpl : length pic = nth k class_counts 0).
    { rewrite (Permutation_length Hpic). exact Hlen. }
    destruct (IH (fun j Hj => Hk j (in_cons _ _ _ Hj))
                 (train ++ firstn (nth k n_i 0) pic)
                 (test ++ firstn (nth k t_i 0) (skipn (nth k n_i 0) pic)) rng')
      as (parts & Htr & Hte & Hparts).
    exists ((firstn (nth k n_i 0) pic,
             firstn (nth k t_i 0) (skipn (nth k n_i 0) pic)) :: parts).
    cbn [map concat fst snd]. rewrite Htr, Hte, <- !app_assoc.
    split; [reflexivity|]. split; [reflexivity|].
    constructor; [|exact Hparts].
    assert (Hall : firstn (nth k t_i 0) (skipn (nth k n_i 0) pic)
                   = skipn (nth k n_i 0) pic).
    { apply firstn_all2. rewrite length_skipn. lia. }
    unfold class_part. cbn [fst snd]. rewrite Hall, firstn_skipn.
    split; [exact Hpic|]. split.
    + rewrite length_firstn. lia.
    + rewrite length_skipn. lia.
Qed.

End Draws.

(** The parts, put together again, are the classes. *)
Lemma parts_permutation (class_indices : list (list nat)) (n_i t_i todo : list nat)
    (parts : list (list nat * list nat)) :
  Forall2 (class_part class_indices n_i t_i) todo parts ->
  Permutation (concat (map fst parts) ++ concat (map snd parts))
              (concat (map (fun k => nth k class_indices []) todo)).
Proof.
  induction 1 as [|k p todo parts (Hp & _ & _) _ IH]; [constructor|].
  cbn [map concat].
  rewrite <- Hp, <- IH, <- !app_assoc. apply Permutation_app_head.
  rewrite !app_assoc. apply Permutation_app_tail, Permutation_app_comm.
Qed.

Lemma parts_length (class_indices : list (list nat)) (n_i t_i todo : list nat)
    (parts : list (list nat * list nat)) :
  Forall2 (class_part class_indices n_i t_i) todo parts ->
  length (concat (map fst parts)) = list_sum (map (fun k => nth k n_i 0) todo) /\
  length (concat (map snd parts)) = list_sum (map (fun k => nth k t_i 0) todo).
Proof.
  induction 1 as [|k p todo parts (_ & Hn & Ht) _ [IHn IHt]]; [split; reflexivity|].
  cbn [map concat]. rewrite !list_sum_cons, !length_app, IHn, IHt, Hn, Ht.
  split; reflexivity.
Qed.


(** *** Counting labels *)

Lemma count_occ_map_const (lab : nat -> nat) (l : list nat) (v L : nat) :
  (forall i, In i l -> lab i = v) ->
  count_occ Nat.eq_dec (map lab l) L = if v =? L then length l else 0.
Proof.
  induction l as [|i l IH]; intros Hl.
  - destruct (v =? L); reflexivity.
  - cbn [map count_occ length]. rewrite IH by (intros j Hj; apply Hl; right; exact Hj).
    rewrite (Hl i (in_eq _ _)).
    destruct (Nat.eq_dec v L) as [->|Hne].
    + rewrite Nat.eqb_refl. reflexivity.
    + apply Nat.eqb_neq in Hne. rewrite Hne. reflexivity.
Qed.

Lemma class_indices_nth (y classes : list nat) (k : nat) :
  k < length classes ->
  nth k (map (where_eq y) classes) [] = where_eq y (nth k classes 0).
Proof.
  intros Hk.
  rewrite (nth_indep _ [] (where_eq y 0)) by (rewrite length_map; exact Hk).
  apply map_nth.
Qed.

Lemma bincount_nth (y classes : list nat) (k : nat) :
  k < length classes ->
  nth k (bincount classes y) 0 = count_occ Nat.eq_dec y (nth k classes 0).
Proof.
  intros Hk. unfold bincount.
  rewrite (nth_indep _ 0 (count_occ Nat.eq_dec y 0)) by (rewrite length_map; exact Hk).
  apply (map_nth (fun c => count_occ Nat.eq_dec y c)).
Qed.

Lemma bincount_sum (y : list nat) : list_sum (bincount (unique y) y) = length y.
Proof.
  rewrite <- (length_seq (length y) 0).
  rewrite <- (Permutation_length (class_indices_partition y)).
  rewrite length_concat, map_map. unfold bincount. f_equal.
  apply map_ext. intros c. symmetry. apply where_eq_length.
Qed.

(** The labels of the parts: a part drawn from class [k] holds positions
    of label [classes[k]] only. *)
Lemma parts_count (y classes n_i t_i todo : list nat)
    (parts : list (list nat * list nat)) (L : nat) :
  (forall k, In k todo -> k < length classes) ->
  Forall2 (class_part (map (where_eq y) classes) n_i t_i) todo parts ->
  count_occ Nat.eq_dec (map (fun i => nth i y 0) (concat (map fst parts))) L
  = list_sum (map (fun k => if nth k classes 0 =? L then nth k n_i 0 else 0) todo) /\
  count_occ Nat.eq_dec (map (fun i => nth i y 0) (concat (map snd parts))) L
  = list_sum (map (fun k => if nth k classes 0 =? L then nth k t_i 0 else 0) todo).
Proof.
  intros Hk Hparts. induction Hparts as [|k p todo parts (Hp & Hn & Ht) _ IH].
  - split; reflexivity.
  - destruct (IH (fun j Hj => Hk j (in_cons _ _ _ Hj))) as [IHn IHt].
    rewrite class_indices_nth in Hp by (apply Hk, in_eq).
    assert (Hlab : forall i, In i (fst p ++ snd p) -> nth i y 0 = nth k classes 0).
    { intros i Hi. apply (Permutation_in _ Hp), where_eq_In in Hi. tauto. }
    cbn [map concat]. rewrite !map_app, !count_occ_app, !list_sum_cons, IHn, IHt.
    rewrite (count_occ_map_const _ (fst p) (nth k classes 0))
      by (intros i Hi; apply Hlab, in_or_app; left; exact Hi).
    rewrite (count_occ_map_const _ (snd p) (nth k classes 0))
      by (intros i Hi; apply Hlab, in_or_app; right; exact Hi).
    rewrite Hn, Ht. split; reflexivity.
Qed.

(** A sum with one summand. *)
Lemma list_sum_single (g : nat -> bool) (f : nat -> nat) (l : list nat) (k0 : nat) :
  List.NoDup l -> (forall k, In k l -> g k = true <-> k = k0) ->
  list_sum (map (fun k => if g k then f k else 0) l) = if existsb (Nat.eqb k0) l then f k0 else 0.
Proof.
  intros Hnd. induction Hnd as [|k l Hk Hnd IH]; intros Hg; [reflexivity|].
  cbn [map existsb]. rewrite list_sum_cons.
  rewrite IH by (intros j Hj; apply Hg; right; exact Hj).
  destruct (Nat.eq_dec k0 k) as [->|Hne].
  - rewrite Nat.eqb_refl. cbn [orb].
    rewrite (proj2 (Hg k (in_eq _ _)) eq_refl).
    destruct (existsb (Nat.eqb k) l) eqn:E; [|lia].
    apply existsb_eqb_In in E. contradiction.
  - destruct (g k) eqn:Egk.
    + apply (Hg k (in_eq _ _)) in Egk. congruence.
    + apply Nat.eqb_neq in Hne. rewrite Hne. reflexivity.
Qed.

Lemma sum_over_classes (classes : list nat) (f : nat -> nat) (k0 : nat) :
  List.NoDup classes -> k0 < length classes ->
  list_sum (map (fun k => if nth k classes 0 =? nth k0 classes 0 then f k else 0)
                (seq 0 (length classes)))
  = f k0.
Proof.
  intros Hnd Hk0.
  rewrite (list_sum_single _ f _ k0).
  - assert (E : existsb (Nat.eqb k0) (seq 0 (length classes)) = true).
    { apply existsb_eqb_In, in_seq. lia. }
    rewrite E. reflexivity.
  - apply seq_NoDup.
  - intros k Hk. apply in_seq in Hk. rewrite Nat.eqb_eq. split.
    + intros E. apply (proj1 (List.NoDup_nth classes 0) Hnd); [lia|exact Hk0|exact E].
    + intros ->. reflexivity.
Qed.

Lemma sum_difference (a b : list nat) :
  length b = length a ->
  (forall k, k < length a -> nth k b 0 <= nth k a 0) ->
  list_sum (map (fun i => nth i a 0 - nth i b 0) (seq 0 (length a))) + list_sum b
  = list_sum a.
Proof.
  intros Hlen Hle.
  assert (Eb : list_sum b = list_sum (map (fun i => nth i b 0) (seq 0 (length a))))
    by (rewrite <- Hlen, map_nth_seq; reflexivity).
  assert (Ea : list_sum a = list_sum (map (fun i => nth i a 0) (seq 0 (length a))))
    by (rewrite map_nth_seq; reflexivity).
  rewrite Eb, Ea, <- list_sum_map_add. f_equal.
  apply map_ext_in. intros i Hi. apply in_seq in Hi.
  specialize (Hle i). lia.
Qed.

Lemma ceil_fifth (n : nat) :
  Z.to_nat (Qceiling ((2 # 10) * inject_Z (Z.of_nat n))) = (n + 4) / 5.
Proof.
  unfold Qceiling, Qfloor, Qmult, Qopp, inject_Z. cbn [Qnum Qden].
  change (Z.pos (10 * 1)) with 10%Z.
  assert (E : (- (- (2 * Z.of_nat n) / 10) = (Z.of_nat n + 4) / 5)%Z).
  { Z.to_euclidean_division_equations. lia. }
  rewrite E, Z2Nat.inj_div by lia. f_equal. lia.
Qed.

(** With [test_size=0.2] the test part is a fifth, rounded up. *)
Lemma validate_shuffle_split_eq (n : nat) :
  validate_shuffle_split n (2 # 10)
  = if n - (n + 4) / 5 =? 0
    then Raise (ValueError "the resulting train set will be empty")
    else Ok (n - (n + 4) / 5, (n + 4) / 5).
Proof.
  unfold validate_shuffle_split.
  change (negb (Qltb 0 (2 # 10) && Qltb (2 # 10) 1)) with false. cbv iota.
  rewrite ceil_fifth. reflexivity.
Qed.

Lemma validate_shuffle_split_fifth (n n_train n_test : nat) :
  validate_shuffle_split n (2 # 10) = Ok (n_train, n_test) ->
  n_test = (n + 4) / 5 /\ n_train = n - n_test /\ 0 < n_train.
Proof.
  rewrite validate_shuffle_split_eq.
  destruct (n - (n + 4) / 5 =? 0) eqn:Ez; [discriminate|].
  apply Nat.eqb_neq in Ez. intros Heq.
  assert (H1 : n - (n + 4) / 5 = n_train) by congruence.
  assert (H2 : (n + 4) / 5 = n_test) by congruence.
  lia.
Qed.

(** *** The split *)

(** A label's count in a part is within one sample of the label's share:
    [|count_part - count_all * size_part / size_all| <= 1]. *)
Definition within_one_sample (count_part size_part count_all size_all : nat) : Prop :=
  count_part * size_all <= count_all * size_part + size_all /\
  count_all * size_part <= count_part * size_all + size_all.

Lemma share_bounds (c n N m : nat) :
  0 < N -> c * n / N <= m <= c * n / N + 1 ->
  m * N <= c * n + N /\ c * n <= m * N + N.
Proof.
  intros HN Hm. pose proof (Nat.div_mod_eq (c * n) N) as Hdm.
  pose proof (Nat.mod_upper_bound (c * n) N ltac:(lia)) as Hr.
  set (q := c * n / N) in *. set (r := (c * n) mod N) in *.
  assert (q * N <= m * N) by (apply Nat.mul_le_mono_r; lia).
  assert (m * N <= (q + 1) * N) by (apply Nat.mul_le_mono_r; lia).
  lia.
Qed.

Section Stratified.
Context {R : Type} `{RandomState R} {Laws : RandomStateLaws R}.

Lemma stratified_shuffle_split_spec (y : list nat) (n_train n_test seed : nat)
    (train test : list nat) :
  n_train + n_test = length y -> 0 < n_test ->
  stratified_shuffle_split y n_train n_test seed = Ok (train, test) ->
  Permutation (train ++ test) (seq 0 (length y)) /\
  length train = n_train /\ length test = n_test /\
  forall L,
    within_one_sample (count_occ Nat.eq_dec (safe_indexing 0 y train) L) n_train
                      (count_occ Nat.eq_dec y L) (length y) /\
    within_one_sample (count_occ Nat.eq_dec (safe_indexing 0 y test) L) n_test
                      (count_occ Nat.eq_dec y L) (length y).
Proof.
  intros Hsize Htest. unfold stratified_shuffle_split.
  set (classes := unique y). set (cc := bincount classes y).
  set (ci := map (where_eq y) classes).
  destruct (existsb (fun c => c <? 2) cc) eqn:Emin; [discriminate|].
  destruct (n_train <? length classes); [discriminate|].
  destruct (n_test <? length classes); [discriminate|].
  assert (Hccl : length cc = length classes) by apply length_map.
  assert (Hsum : list_sum cc = length y) by apply bincount_sum.
  assert (Hpos : 0 < list_sum cc) by lia.
  assert (Hcc2 : forall k, k < length classes -> 2 <= nth k cc 0).
  { intros k Hk.
    assert (Hin : In (nth k cc 0) cc) by (apply nth_In; lia).
    destruct (nth k cc 0 <? 2) eqn:E; [|apply Nat.ltb_ge in E; exact E].
    assert (existsb (fun c => c <? 2) cc = true)
      by (apply existsb_exists; eauto).
    congruence. }
  pose proof (approximate_mode_spec cc n_train (rs_seed seed) Hpos) as Hni.
  destruct (approximate_mode cc n_train (rs_seed seed)) as [n_i rng1].
  cbn zeta in Hni. cbn [fst] in Hni. destruct Hni as (Hnl & Hns & Hnb).
  rewrite Hccl in Hnl, Hnb.
  assert (Hnle : forall k, k < length classes -> nth k n_i 0 <= nth k cc 0).
  { intros k Hk. specialize (Hnb k Hk). specialize (Hcc2 k Hk).
    assert (nth k cc 0 * n_train / list_sum cc < nth k cc 0); [|lia].
    apply Nat.Div0.div_lt_upper_bound. rewrite Hsum, <- Hsize. nia. }
  set (remaining := map (fun i => nth i cc 0 - nth i n_i 0) (seq 0 (length classes))).
  assert (Hrs : list_sum remaining = n_test).
  { pose proof (sum_difference cc n_i) as Hd. rewrite Hccl in Hd.
    fold remaining in Hd. specialize (Hd Hnl Hnle). lia. }
  pose proof (approximate_mode_all remaining rng1) as Hti.
  rewrite Hrs in Hti. specialize (Hti Htest).
  destruct (approximate_mode remaining n_test rng1) as [t_i rng2].
  cbn [fst] in Hti. subst t_i.
  destruct (class_loop_spec cc ci n_i remaining (seq 0 (length classes))) with
    (train := @nil nat) (test := @nil nat) (rng := rng2)
    as (parts & Htr & Hte & Hparts).
  { intros k Hk. apply in_seq in Hk. destruct Hk as [_ Hk]. cbn in Hk.
    split; [|split].
    - unfold ci, cc. rewrite class_indices_nth, bincount_nth by exact Hk.
      apply where_eq_length.
    - apply Hnle, Hk.
    - unfold remaining. rewrite nth_map_seq by exact Hk. reflexivity. }
  destruct (class_loop (seq 0 (length classes)) cc ci n_i remaining [] [] rng2)
    as [[train0 test0] rng3].
  cbn [fst snd app] in Htr, Hte.
  pose proof (rs_permutation_perm rng3 train0) as Hp1.
  destruct (rs_permutation rng3 train0) as [train1 rng4]. cbn [fst] in Hp1.
  pose proof (rs_permutation_perm rng4 test0) as Hp2.
  destruct (rs_permutation rng4 test0) as [test1 rng5]. cbn [fst] in Hp2.
  intros Heq. assert (train1 = train) by congruence. assert (test1 = test) by congruence.
  subst train1 test1. clear Heq.
  destruct (parts_length _ _ _ _ _ Hparts) as [Hlt Hle].
  rewrite <- Hnl, map_nth_seq in Hlt.
  assert (Hrl : length remaining = length classes)
    by (unfold remaining; rewrite length_map, length_seq; reflexivity).
  rewrite <- Hrl, map_nth_seq in Hle.
  split; [|split; [|split]].
  - rewrite Hp1, Hp2, Htr, Hte, (parts_permutation _ _ _ _ _ Hparts).
    assert (Hcil : length ci = length classes) by apply length_map.
    rewrite <- Hcil, map_nth_seq_gen. apply class_indices_partition.
  - rewrite (Permutation_length Hp1), Htr, Hlt. exact Hns.
  - rewrite (Permutation_length Hp2), Hte, Hle. exact Hrs.
  - intros L. unfold safe_indexing.
    rewrite (proj1 (Permutation_count_occ Nat.eq_dec _ _)
               (Permutation_map (fun i => nth i y 0) Hp1) L).
    rewrite (proj1 (Permutation_count_occ Nat.eq_dec _ _)
               (Permutation_map (fun i => nth i y 0) Hp2) L).
    rewrite Htr, Hte.
    destruct (parts_count y classes n_i remaining (seq 0 (length classes)) parts L)
      as [Hct Hce]; [intros k Hk; apply in_seq in Hk; lia|exact Hparts|].
    rewrite Hct, Hce.
    destruct (in_dec Nat.eq_dec L classes) as [HL|HL].
    + destruct (In_nth_lt _ _ 0 HL) as (k0 & Hk0 & <-).
      rewrite !sum_over_classes by (try apply unique_NoDup; exact Hk0).
      unfold remaining. rewrite nth_map_seq by exact Hk0.
      rewrite <- (bincount_nth y classes k0 Hk0). fold cc.
      specialize (Hnb k0 Hk0). specialize (Hnle k0 Hk0).
      rewrite Hsum in Hnb.
      destruct (share_bounds (nth k0 cc 0) n_train (length y) (nth k0 n_i 0))
        as [Hb1 Hb2]; [lia|exact Hnb|].
      unfold within_one_sample. split; [split; assumption|].
      assert (En : n_test = length y - n_train) by lia.
      rewrite En, !Nat.mul_sub_distr_r, !Nat.mul_sub_distr_l.
      assert (nth k0 n_i 0 * length y <= nth k0 cc 0 * length y)
        by (apply Nat.mul_le_mono_r; exact Hnle).
      assert (nth k0 cc 0 * n_train <= nth k0 cc 0 * length y)
        by (apply Nat.mul_le_mono_l; lia).
      lia.
    + assert (Hz : forall f, list_sum
                (map (fun k => if nth k classes 0 =? L then f k else 0)
                     (seq 0 (length classes))) = 0).
      { intros f. rewrite (list_sum_single _ f _ (length classes)).
        - destruct (existsb (Nat.eqb (length classes)) _) eqn:E; [|reflexivity].
          apply existsb_eqb_In, in_seq in E. lia.
        - apply seq_NoDup.
        - intros k Hk. apply in_seq in Hk. rewrite Nat.eqb_eq. split.
          + intros E. exfalso. apply HL. rewrite <- E. apply nth_In. lia.
          + lia. }
      rewrite !Hz.
      assert (Hy : count_occ Nat.eq_dec y L = 0).
      { apply count_occ_not_In. intros Hin. apply HL, unique_In, Hin. }
      rewrite Hy. unfold within_one_sample. lia.
Qed.

(** The splitter raises on its three checks only. *)
Lemma stratified_shuffle_split_total (y : list nat) (n_train n_test seed : nat) :
  forallb (fun c => 2 <=? c) (bincount (unique y) y) = true ->
  length (unique y) <= n_train -> length (unique y) <= n_test ->
  exists train test, stratified_shuffle_split y n_train n_test seed = Ok (train, test).
Proof.
  intros Hmin Htr Hte. unfold stratified_shuffle_split.
  assert (E : existsb (fun c => c <? 2) (bincount (unique y) y) = false).
  { destruct (existsb _ _) eqn:E; [|reflexivity].
    apply existsb_exists in E as (c & Hc & Hlt).
    rewrite forallb_forall in Hmin. specialize (Hmin c Hc).
    apply Nat.leb_le in Hmin. apply Nat.ltb_lt in Hlt. lia. }
  rewrite E. apply Nat.ltb_ge in Htr, Hte. rewrite Htr, Hte.
  destruct (approximate_mode _ n_train _) as [n_i rng1].
  destruct (approximate_mode _ n_test _) as [t_i rng2].
  destruct (class_loop _ _ _ _ _ _ _ _) as [[train0 test0] rng3].
  destruct (rs_permutation rng3 train0) as [train1 rng4].
  destruct (rs_permutation rng4 test0) as [test1 rng5].
  eauto.
Qed.


(** What a split that was returned satisfies. *)
Lemma train_test_split_spec {A} (d : A) (X : list A) (y : list nat) (seed : nat)
    (sp : split A) :
  train_test_split d X y (2 # 10) seed = Ok sp ->
  length X = length y /\
  X_train sp = safe_indexing d X (train_idx sp) /\
  X_test sp = safe_indexing d X (test_idx sp) /\
  y_train sp = safe_indexing 0 y (train_idx sp) /\
  y_test sp = safe_indexing 0 y (test_idx sp) /\
  Permutation (train_idx sp ++ test_idx sp) (seq 0 (length y)) /\
  length (test_idx sp) = (length y + 4) / 5 /\
  length (train_idx sp) = length y - (length y + 4) / 5 /\
  forall L,
    within_one_sample (count_occ Nat.eq_dec (y_train sp) L) (length (train_idx sp))
                      (count_occ Nat.eq_dec y L) (length y) /\
    within_one_sample (count_occ Nat.eq_dec (y_test sp) L) (length (test_idx sp))
                      (count_occ Nat.eq_dec y L) (length y).
Proof.
  unfold train_test_split.
  destruct (length X =? length y) eqn:El; cbn [negb]; [|discriminate].
  apply Nat.eqb_eq in El.
  destruct (validate_shuffle_split (length X) (2 # 10)) as [[n_train n_test]|]
    eqn:Ev; cbn [res_bind fst snd]; [|discriminate].
  apply validate_shuffle_split_fifth in Ev as (Ht & Hn & Hpos).
  destruct (stratified_shuffle_split y n_train n_test seed) as [[train test]|]
    eqn:Es; cbn [res_bind fst snd]; [|discriminate].
  intros [= <-]. cbn [train_idx test_idx X_train X_test y_train y_test].
  assert (Hnt : 0 < n_test).
  { rewrite Ht. apply Nat.div_str_pos. lia. }
  assert (Hle : n_test <= length X).
  { rewrite Ht. apply Nat.Div0.div_le_upper_bound. lia. }
  apply stratified_shuffle_split_spec in Es as (Hp & Hl1 & Hl2 & Hc);
    [|rewrite <- El; lia|exact Hnt].
  rewrite Hl1, Hl2.
  repeat split; try reflexivity; try assumption;
    try (rewrite <- El; lia); apply Hc.
Qed.



End Stratified.

(** *** The counter generator keeps the laws *)

Lemma roll_permutation (g : nat) (l : list nat) : Permutation (roll g l) l.
Proof.
  unfold roll. rewrite Permutation_app_comm, firstn_skipn. reflexivity.
Qed.

#[export] Instance CounterRandomLaws : RandomStateLaws nat.
Proof.
  split.
  - intros g l. apply roll_permutation.
  - intros g l k Hk Hnd. cbn [rs_choice CounterRandom fst].
    assert (Hnr : List.NoDup (roll g l))
      by (apply (Permutation_NoDup (Permutation_sym (roll_permutation g l))), Hnd).
    split; [|split].
    + rewrite length_firstn, (Permutation_length (roll_permutation g l)). lia.
    + rewrite <- (firstn_skipn k (roll g l)) in Hnr.
      apply List.NoDup_app_remove_r in Hnr. exact Hnr.
    + intros i Hi. apply (Permutation_in _ (roll_permutation g l)).
      rewrite <- (firstn_skipn k (roll g l)). apply in_or_app. left. exact Hi.
Qed.

(** Ten samples of two classes. *)
Definition ten_labels : list nat := [0; 0; 0; 0; 0; 1; 1; 1; 1; 1].


End SplitFacts.

(** ** Cell 9 *)

Module PreprocessorFacts.
Import MinMaxScaler ModelSelection Preprocessor ScalerFacts SplitFacts.

Definition is_ok {A} (r : res A) : bool :=
  match r with Ok _ => true | Raise _ => false end.

(** The splitter looks at the labels and at the number of rows, never at
    a feature value. *)
Lemma train_test_split_rows {R : Type} `{RandomState R} {A B : Type}
    (d : A) (e : B) (X : list A) (X' : list B) (y : list nat) (seed : nat) :
  length X = length X' ->
  match train_test_split (R:=R) d X y (2 # 10) seed,
        train_test_split (R:=R) e X' y (2 # 10) seed with
  | Ok sp, Ok sp' => train_idx sp = train_idx sp' /\ test_idx sp = test_idx sp'
  | Raise _, Raise _ => True
  | _, _ => False
  end.
Proof.
  intros Hlen. unfold train_test_split. rewrite <- Hlen.
  destruct (negb (length X =? length y)); [exact I|].
  destruct (validate_shuffle_split (length X) (2 # 10)) as [nn|]; cbn [res_bind];
    [|exact I].
  destruct (stratified_shuffle_split y (fst nn) (snd nn) seed) as [tt|];
    cbn [res_bind train_idx test_idx]; [split; reflexivity|exact I].
Qed.

Section Cell.
Context {F R : Type} `{Float64 F} `{RandomState R}.

(** What cell 9 returns. *)
Lemma preprocess_ok (X : list (list F)) (y : list nat) (p : preprocessed (F:=F)) :
  preprocess (R:=R) X y = Ok p ->
  check_array X = Ok X /\
  fit X = Ok (scaler p) /\
  X_scaled p = map (transform_row (scaler p)) X /\
  train_test_split (R:=R) [] (X_scaled p) y (2 # 10) 42 = Ok (parts p).
Proof.
  unfold preprocess, fit_transform.
  destruct (fit X) as [s|] eqn:Efit; cbn [res_bind]; [|discriminate].
  unfold transform.
  destruct (check_array X) as [X0|] eqn:Ec; cbn [res_bind]; [|discriminate].
  assert (X0 = X).
  { revert Ec. unfold check_array. destruct X as [|r0 X1]; [discriminate|].
    repeat (destruct (_ : bool); try discriminate). congruence. }
  subst X0.
  destruct (n_features X =? length (scale_ s)); cbn [res_bind fst snd];
    [|discriminate].
  destruct (train_test_split [] (map (transform_row s) X) y (2 # 10) 42)
    as [sp|] eqn:Es; cbn [res_bind]; [|discriminate].
  intros [= <-]. cbn [scaler X_scaled parts]. auto.
Qed.

End Cell.

(** A dataset of ten images of one pixel. *)
Definition pixels (v : Z) : list (list xreal) :=
  map (fun z => [Some (inject_Z z)]) [3; v; 5; 9; 1; 2; 8; 4; 6; 7]%Z.

(** *** Missing values *)

Lemma check_array_id (X X0 : list (list xreal)) : check_array X = Ok X0 -> X0 = X.
Proof. intros Hc. apply (check_array_ok X X0 Hc). Qed.

Lemma check_array_shape_iff (X X' : list (list xreal)) :
  map (@length xreal) X = map (@length xreal) X' ->
  is_ok (check_array X) = is_ok (check_array X').
Proof.
  intros Hshape.
  destruct (check_array X) as [X0|e] eqn:Ec.
  - pose proof (check_array_id _ _ Ec). subst X0.
    rewrite (check_array_shape X X' Hshape Ec). reflexivity.
  - destruct (check_array X') as [X0'|e'] eqn:Ec'; [|reflexivity].
    pose proof (check_array_id _ _ Ec'). subst X0'.
    rewrite (check_array_shape X' X (eq_sym Hshape) Ec') in Ec. discriminate.
Qed.

Lemma fit_transform_raises (X : list (list xreal)) (e : exn) :
  check_array X = Raise e -> fit_transform X = Raise e.
Proof.
  intros Hc. unfold fit_transform, fit. rewrite Hc. reflexivity.
Qed.

Lemma transform_row_missing (s : fitted (F:=xreal)) (r : list xreal) (c : nat) :
  c < length (scale_ s) -> nth c r f_nan = None ->
  nth c (transform_row s r) f_nan = None.
Proof.
  intros Hc Hnone. rewrite transform_row_nth by exact Hc.
  rewrite Hnone. reflexivity.
Qed.

(** Whether cell 9 returns, for a matrix in exact arithmetic. *)
Lemma preprocess_is_ok {R : Type} `{RandomState R} (X : list (list xreal))
    (y : list nat) :
  is_ok (preprocess (R:=R) X y)
  = is_ok (check_array X)
    && is_ok (train_test_split (R:=R) tt (map (fun _ => tt) X) y (2 # 10) 42).
Proof.
  unfold preprocess.
  destruct (check_array X) as [X0|e] eqn:Ec.
  - pose proof (check_array_id _ _ Ec). subst X0.
    destruct (fit_transform_ok X Ec) as (s & _ & ->). cbn [res_bind fst snd is_ok andb].
    pose proof (train_test_split_rows (R:=R) [] tt (map (transform_row s) X)
                  (map (fun _ => tt) X) y 42) as Hrows.
    rewrite !length_map in Hrows. specialize (Hrows eq_refl).
    destruct (train_test_split [] _ y _ 42), (train_test_split tt _ y _ 42);
      cbn [res_bind is_ok]; tauto.
  - rewrite (fit_transform_raises X e Ec). reflexivity.
Qed.

(** The dataset [pixels 16] with the value of row 0 missing. *)
Definition pixels_missing : list (list xreal) :=
  [None] :: tl (pixels 16).

End PreprocessorFacts.

(** ** The confusion matrix *)

Module MetricsFacts.
Import ModelSelection Metrics SplitFacts.

Lemma list_sum_zero {A} (l : list A) : list_sum (map (fun _ => 0) l) = 0.
Proof. induction l as [|a l IH]; [reflexivity|]. cbn [map]. rewrite list_sum_cons, IH. reflexivity. Qed.

(** Sorting the items of [l] by a key with values among [labels] loses
    none and counts none twice. *)
Lemma sum_by_key {A} (key : A -> nat) (labels : list nat) (l : list A) :
  List.NoDup labels -> (forall x, In x l -> In (key x) labels) ->
  list_sum (map (fun t => length (List.filter (fun x => key x =? t) l)) labels)
  = length l.
Proof.
  intros Hnd. induction l as [|x l IH]; intros Hkey.
  - cbn [List.filter length]. apply list_sum_zero.
  - cbn [List.filter length].
    transitivity (list_sum (map (fun t => (if key x =? t then 1 else 0)
                    + length (List.filter (fun x0 => key x0 =? t) l)) labels)).
    { f_equal. apply map_ext. intros t. destruct (key x =? t); reflexivity. }
    rewrite list_sum_map_add, IH by (intros z Hz; apply Hkey; right; exact Hz).
    rewrite (list_sum_single (fun t => key x =? t) (fun _ => 1) labels (key x) Hnd).
    + assert (E : existsb (Nat.eqb (key x)) labels = true)
        by (apply existsb_eqb_In, Hkey, in_eq).
      rewrite E. reflexivity.
    + intros t _. rewrite Nat.eqb_eq. split; congruence.
Qed.

Lemma filter_filter {A} (f g : A -> bool) (l : list A) :
  List.filter (fun x => f x && g x) l = List.filter g (List.filter f l).
Proof.
  induction l as [|x l IH]; [reflexivity|].
  cbn [List.filter]. destruct (f x); cbn [andb List.filter]; rewrite IH; reflexivity.
Qed.

Lemma filter_fst_combine (t : nat) (y_true y_pred : list nat) :
  length y_true = length y_pred ->
  length (List.filter (fun tp => fst tp =? t) (combine y_true y_pred))
  = count_occ Nat.eq_dec y_true t.
Proof.
  revert y_pred. induction y_true as [|a y_true IH]; intros [|b y_pred] Hlen;
    try discriminate; [reflexivity|].
  cbn [combine List.filter count_occ fst]. injection Hlen as Hlen.
  destruct (Nat.eq_dec a t) as [->|Hne].
  - rewrite Nat.eqb_refl. cbn [length]. rewrite IH by exact Hlen. reflexivity.
  - apply Nat.eqb_neq in Hne. rewrite Hne. apply IH, Hlen.
Qed.

Lemma combine_labels (y_true y_pred : list nat) (tp : nat * nat) :
  In tp (combine y_true y_pred) ->
  In (fst tp) (unique_labels y_true y_pred) /\
  In (snd tp) (unique_labels y_true y_pred).
Proof.
  destruct tp as [t p]. intros Hin. unfold unique_labels. cbn [fst snd].
  rewrite !unique_In, !in_app_iff. split.
  - left. exact (in_combine_l _ _ _ _ Hin).
  - right. exact (in_combine_r _ _ _ _ Hin).
Qed.

(** A row of the matrix sums to the number of samples of its true label. *)
Lemma row_sum (y_true y_pred : list nat) (t : nat) :
  length y_true = length y_pred ->
  list_sum (map (fun p => count_pairs t p (combine y_true y_pred))
                (unique_labels y_true y_pred))
  = count_occ Nat.eq_dec y_true t.
Proof.
  intros Hlen. rewrite <- (filter_fst_combine t y_true y_pred Hlen).
  rewrite <- (sum_by_key snd (unique_labels y_true y_pred)
                (List.filter (fun tp => fst tp =? t) (combine y_true y_pred))).
  - f_equal. apply map_ext. intros q. unfold count_pairs.
    rewrite filter_filter. reflexivity.
  - apply unique_NoDup.
  - intros x Hx. apply filter_In in Hx as [Hx _].
    apply (combine_labels y_true y_pred x Hx).
Qed.

(** The sum of all entries. *)
Definition total (cm : list (list nat)) : nat := list_sum (map list_sum cm).

(** C6: the matrix is returned for vectors of one length that are not
    empty; its entries sum to the number of samples, and the row of a
    label sums to the number of samples with that true label.  When the
    labels that occur are 0 to 9 the matrix is 10x10 and row [i] is the
    row of label [i]. *)
Theorem confusion_matrix_sums (y_true y_pred : list nat) :
  length y_true = length y_pred -> 0 < length y_true ->
  exists cm,
    confusion_matrix y_true y_pred = Ok cm /\
    total cm = length y_true /\
    (forall i, i < length (unique_labels y_true y_pred) ->
       list_sum (nth i cm [])
       = count_occ Nat.eq_dec y_true (nth i (unique_labels y_true y_pred) 0)) /\
    (unique_labels y_true y_pred = seq 0 10 ->
       length cm = 10 /\ Forall (fun row => length row = 10) cm /\
       forall i, i < 10 -> list_sum (nth i cm []) = count_occ Nat.eq_dec y_true i).
Proof.
  intros Hlen Hpos. unfold confusion_matrix.
  assert (E1 : negb (length y_true =? length y_pred) = false)
    by (rewrite Hlen, Nat.eqb_refl; reflexivity).
  assert (E2 : (length y_true =? 0) = false) by (apply Nat.eqb_neq; lia).
  rewrite E1, E2.
  set (labels := unique_labels y_true y_pred).
  set (pairs := combine y_true y_pred).
  eexists. split; [reflexivity|].
  assert (Hrow : forall i, i < length labels ->
            list_sum (nth i (map (fun t => map (fun p => count_pairs t p pairs) labels)
                                 labels) [])
            = count_occ Nat.eq_dec y_true (nth i labels 0)).
  { intros i Hi.
    rewrite (nth_indep _ [] ((fun t => map (fun p => count_pairs t p pairs) labels) 0))
      by (rewrite length_map; exact Hi).
    rewrite (map_nth (fun t => map (fun p => count_pairs t p pairs) labels)).
    apply row_sum, Hlen. }
  split; [|split].
  - unfold total. rewrite map_map.
    transitivity (list_sum (map (fun t => length (List.filter (fun x => fst x =? t) pairs))
                                labels)).
    + f_equal. apply map_ext. intros t. unfold pairs, labels.
      rewrite row_sum, filter_fst_combine by exact Hlen. reflexivity.
    + rewrite sum_by_key.
      * unfold pairs. rewrite length_combine. lia.
      * apply unique_NoDup.
      * intros x Hx. apply (combine_labels y_true y_pred x Hx).
  - exact Hrow.
  - intros Hten. split; [|split].
    + rewrite length_map, Hten. reflexivity.
    + apply List.Forall_forall. intros row Hrow'.
      apply in_map_iff in Hrow' as (t & <- & _).
      rewrite length_map, Hten. reflexivity.
    + intros i Hi. rewrite Hrow by (rewrite Hten, length_seq; exact Hi).
      rewrite Hten, seq_nth by exact Hi. reflexivity.
Qed.

Lemma confusion_matrix_sums_witness :
  exists cm,
    confusion_matrix [0; 1; 1; 2] [0; 2; 1; 2] = Ok cm /\
    total cm = length [0; 1; 1; 2] /\
    (forall i, i < length (unique_labels [0; 1; 1; 2] [0; 2; 1; 2]) ->
       list_sum (nth i cm [])
       = count_occ Nat.eq_dec [0; 1; 1; 2]
           (nth i (unique_labels [0; 1; 1; 2] [0; 2; 1; 2]) 0)) /\
    (unique_labels [0; 1; 1; 2] [0; 2; 1; 2] = seq 0 10 ->
       length cm = 10 /\ Forall (fun row => length row = 10) cm /\
       forall i, i < 10 ->
         list_sum (nth i cm []) = count_occ Nat.eq_dec [0; 1; 1; 2] i).
Proof.
  apply (confusion_matrix_sums [0; 1; 1; 2] [0; 2; 1; 2]).
  - reflexivity.
  - cbn. lia.
Defined.

End MetricsFacts.

(** ** The two arithmetics keep the laws *)

Module FloatFacts.

(** *** Exact arithmetic *)

#[export] Instance ExactLaws : Float64Laws xreal.
Proof.
  split.
  - intros [a|]; cbn; [|reflexivity]. apply ScalerFacts.Qltb_ge, Qle_refl.
  - intros [a|] [b|] [c|]; cbn; try discriminate.
    rewrite !ScalerFacts.Qltb_lt. apply Qlt_trans.
  - intros [a|] [b|] [c|]; cbn; try discriminate.
    intros _. rewrite !ScalerFacts.Qltb_lt. intros Hac.
    destruct (Qlt_le_dec a b) as [Hab|Hba]; [left; exact Hab|right].
    eapply Qle_lt_trans; eassumption.
  - reflexivity.
  - reflexivity.
  - intros [a|] b; cbn; [discriminate|reflexivity].
  - intros [a|] b; cbn; [discriminate|reflexivity].
  - intros [a|]; cbn; [reflexivity|discriminate].
Qed.

(** *** Binary64

    The comparison of two floats that are not NaN is the lexicographic
    comparison of their keys: the class of the value (negative infinity,
    negative, zero, positive, positive infinity), then the exponent and
    the mantissa, negated for a negative value. *)
Definition sf_key (s : spec_float) : option (Z * Z * Z) :=
  match s with
  | S754_nan => None
  | S754_infinity true => Some (-2, 0, 0)%Z
  | S754_infinity false => Some (2, 0, 0)%Z
  | S754_zero _ => Some (0, 0, 0)%Z
  | S754_finite true m e => Some (-1, - e, Z.neg m)%Z
  | S754_finite false m e => Some (1, e, Z.pos m)%Z
  end.

Definition lex_lt (a b : Z * Z * Z) : Prop :=
  (fst (fst a) < fst (fst b) \/
   fst (fst a) = fst (fst b) /\
   (snd (fst a) < snd (fst b) \/ snd (fst a) = snd (fst b) /\ snd a < snd b))%Z.

Ltac key_yes :=
  split; [intros _; eexists; eexists; split; [reflexivity|split; [reflexivity|cbn; lia]]
         |intros _; reflexivity].
Ltac key_no :=
  split; [discriminate
         |let k1 := fresh in let k2 := fresh in let E1 := fresh in let E2 := fresh in
          let Hl := fresh in
          intros (k1 & k2 & E1 & E2 & Hl);
          first [discriminate E1 | discriminate E2
                |injection E1 as <-; injection E2 as <-; cbn in Hl; lia]].

Lemma SFltb_key (s1 s2 : spec_float) :
  SFltb s1 s2 = true <->
  exists k1 k2, sf_key s1 = Some k1 /\ sf_key s2 = Some k2 /\ lex_lt k1 k2.
Proof.
  unfold SFltb, SFcompare, lex_lt.
  destruct s1 as [[|]|[|]| |[|] m1 e1], s2 as [[|]|[|]| |[|] m2 e2]; cbn [sf_key];
    try solve [key_yes | key_no].
  - destruct (Z.compare_spec e1 e2) as [He|He|He]; try solve [key_yes | key_no].
    fold (Pos.compare m1 m2). destruct (Pos.compare_spec m1 m2) as [Hm|Hm|Hm]; cbn [CompOpp];
      solve [key_yes | key_no].
  - destruct (Z.compare_spec e1 e2) as [He|He|He]; try solve [key_yes | key_no].
    fold (Pos.compare m1 m2). destruct (Pos.compare_spec m1 m2) as [Hm|Hm|Hm];
      solve [key_yes | key_no].
Qed.

Lemma SFeqb_refl_key (s : spec_float) : SFeqb s s = true <-> sf_key s <> None.
Proof.
  unfold SFeqb, SFcompare.
  destruct s as [[|]|[|]| |[|] m e]; cbn [sf_key]; try (split; [discriminate|reflexivity]);
    try (split; [discriminate|congruence]).
  - destruct (Z.compare_spec e e); try lia. fold (Pos.compare m m).
    destruct (Pos.compare_spec m m); try lia. split; [discriminate|reflexivity].
  - destruct (Z.compare_spec e e); try lia. fold (Pos.compare m m).
    destruct (Pos.compare_spec m m); try lia. split; [discriminate|reflexivity].
Qed.

Lemma isnan_key (x : float) : f_isnan x = false <-> sf_key (Prim2SF x) <> None.
Proof.
  cbn [f_isnan Binary64]. rewrite FloatAxioms.eqb_spec. rewrite <- SFeqb_refl_key.
  destruct (SFeqb (Prim2SF x) (Prim2SF x)); cbn; split; congruence.
Qed.

Lemma isnan_nan (x : float) : f_isnan x = true <-> Prim2SF x = S754_nan.
Proof.
  split.
  - intros Hn. destruct (Prim2SF x) as [s|s| |s m e] eqn:E; try reflexivity;
      (assert (Hf : f_isnan x = false)
         by (apply isnan_key; rewrite E; destruct s; discriminate));
      congruence.
  - intros E. destruct (f_isnan x) eqn:Hb; [reflexivity|].
    apply isnan_key in Hb. rewrite E in Hb. contradiction.
Qed.

(** Rounding a mantissa that is not negative gives no NaN. *)
Lemma shr_1_nonneg (mrs : shr_record) :
  (0 <= shr_m mrs)%Z -> (0 <= shr_m (shr_1 mrs))%Z.
Proof.
  destruct mrs as [m r s]. cbn [shr_m]. intros Hm.
  destruct m as [|[p|p|]|p]; cbn; lia.
Qed.

Lemma iter_shr_1_nonneg (p : positive) (mrs : shr_record) :
  (0 <= shr_m mrs)%Z -> (0 <= shr_m (SpecFloat.iter_pos shr_1 p mrs))%Z.
Proof.
  revert mrs. induction p as [p IH|p IH|]; intros mrs Hm; cbn [SpecFloat.iter_pos].
  - apply IH, IH, shr_1_nonneg, Hm.
  - apply IH, IH, Hm.
  - apply shr_1_nonneg, Hm.
Qed.

Lemma shr_fexp_nonneg (prec emax m e : Z) (l : location) :
  (0 <= m)%Z -> (0 <= shr_m (fst (shr_fexp prec emax m e l)))%Z.
Proof.
  intros Hm. unfold shr_fexp, shr.
  assert (H0 : (0 <= shr_m (shr_record_of_loc m l))%Z).
  { destruct l as [|[| |]]; exact Hm. }
  destruct (_ - e)%Z; cbn [fst]; [exact H0| |exact H0].
  apply iter_shr_1_nonneg, H0.
Qed.

Lemma round_nearest_even_nonneg (m : Z) (l : location) :
  (0 <= m)%Z -> (0 <= round_nearest_even m l)%Z.
Proof.
  intros Hm. destruct l as [|[| |]]; cbn; try lia. destruct (Z.even m); lia.
Qed.

Lemma binary_round_aux_not_nan (prec emax : Z) (sx : bool) (mx ex : Z) (lx : location) :
  (0 <= mx)%Z -> binary_round_aux prec emax sx mx ex lx <> S754_nan.
Proof.
  intros Hm. unfold binary_round_aux.
  pose proof (shr_fexp_nonneg prec emax mx ex lx Hm) as H1.
  destruct (shr_fexp prec emax mx ex lx) as [mrs' e']. cbn [fst] in H1.
  pose proof (shr_fexp_nonneg prec emax _ e' loc_Exact
                (round_nearest_even_nonneg _ (loc_of_shr_record mrs') H1)) as H2.
  destruct (shr_fexp prec emax _ e' loc_Exact) as [mrs'' e'']. cbn [fst] in H2.
  destruct (shr_m mrs'') as [|m|m]; [discriminate| |lia].
  destruct (_ <=? _)%Z; discriminate.
Qed.

Lemma binary_normalize_not_nan (prec emax m e : Z) (szero : bool) :
  binary_normalize prec emax m e szero <> S754_nan.
Proof.
  unfold binary_normalize, binary_round.
  destruct m as [|m|m]; [discriminate| |].
  - destruct (shl_align m e _) as [mz ez]. apply binary_round_aux_not_nan. lia.
  - destruct (shl_align m e _) as [mz ez]. apply binary_round_aux_not_nan. lia.
Qed.

Lemma SFsub_one_not_nan (x : spec_float) :
  x <> S754_nan -> SF64sub x (Prim2SF 1%float) <> S754_nan.
Proof.
  intros Hx. change (Prim2SF 1%float) with (S754_finite false 4503599627370496 (-52)).
  unfold SF64sub, SFsub.
  destruct x as [s|s| |s m e]; try discriminate; [congruence|].
  apply binary_normalize_not_nan.
Qed.

#[export] Instance Binary64Laws : Float64Laws float.
Proof.
  split.
  - intros a. cbn [f_lt Binary64].
    destruct (PrimFloat.ltb a a) eqn:E; [|reflexivity].
    rewrite FloatAxioms.ltb_spec in E. apply SFltb_key in E as (k1 & k2 & E1 & E2 & Hl).
    rewrite E1 in E2. injection E2 as <-. unfold lex_lt in Hl. lia.
  - intros a b c. cbn [f_lt Binary64]. rewrite !FloatAxioms.ltb_spec, !SFltb_key.
    intros (k1 & k2 & E1 & E2 & Hl) (k2' & k3 & E2' & E3 & Hl').
    rewrite E2 in E2'. injection E2' as <-.
    exists k1, k3. split; [exact E1|]. split; [exact E3|]. unfold lex_lt in *. lia.
  - intros a b c. rewrite isnan_key. cbn [f_lt Binary64].
    rewrite !FloatAxioms.ltb_spec, !SFltb_key.
    intros Hb (k1 & k3 & E1 & E3 & Hl).
    destruct (sf_key (Prim2SF b)) as [k2|] eqn:E2; [|contradiction].
    destruct k1 as [[a1 a2] a3], k2 as [[b1 b2] b3], k3 as [[c1 c2] c3].
    unfold lex_lt in *. cbn [fst snd] in *.
    assert (Hd : ((a1 < b1 \/ a1 = b1 /\ (a2 < b2 \/ a2 = b2 /\ a3 < b3)) \/
                  (b1 < c1 \/ b1 = c1 /\ (b2 < c2 \/ b2 = c2 /\ b3 < c3)))%Z) by lia.
    destruct Hd as [Hd|Hd]; [left|right]; eexists; eexists;
      (split; [eassumption || reflexivity
              |split; [eassumption || reflexivity|cbn [fst snd]; exact Hd]]).
  - reflexivity.
  - intros a. rewrite isnan_nan. cbn [f_isinf Binary64].
    rewrite FloatAxioms.eqb_spec, FloatAxioms.abs_spec. intros ->. reflexivity.
  - intros a b. rewrite !isnan_nan. cbn [f_mul Binary64].
    rewrite FloatAxioms.mul_spec. intros ->. reflexivity.
  - intros a b. rewrite !isnan_nan. cbn [f_add Binary64].
    rewrite FloatAxioms.add_spec. intros ->. reflexivity.
  - intros a Ha. destruct (f_isnan (f_sub a f_one)) eqn:E; [|reflexivity].
    apply isnan_nan in E. cbn [f_sub f_one Binary64] in E.
    rewrite FloatAxioms.sub_spec in E.
    exfalso. apply (SFsub_one_not_nan (Prim2SF a)); [|exact E].
    intros En. apply isnan_nan in En. congruence.
Qed.

End FloatFacts.

(** ** The kernel state *)

Module NotebookFacts.
Import Notebook.

Section Frame.
Context {F R : Type} `{Float64 F} `{RandomState R} `{Learner F R}.

(** The objects at the references [D], the dict [models] and the dict
    [results] are in [st] what they were in [s0]. *)
Definition untouched (D : gset nat) (s0 st : kernel_state) : Prop :=
  (forall r, r ∈ D -> is_Some (heap s0 !! r) /\ heap st !! r = heap s0 !! r) /\
  models st = models s0 /\
  results st = results s0.

Lemma untouched_refl (D : gset nat) (st : kernel_state) :
  (forall r, r ∈ D -> is_Some (heap st !! r)) -> untouched D st st.
Proof. intros HD. repeat split; auto. Qed.

Lemma untouched_trans (D D' : gset nat) (s0 s1 s2 : kernel_state) :
  D ⊆ D' -> untouched D s0 s1 -> untouched D' s1 s2 -> untouched D s0 s2.
Proof.
  intros Hsub (Hh & Hm & Hr) (Hh' & Hm' & Hr'). split; [|split; congruence].
  intros r Hr0. destruct (Hh r Hr0) as [Hs He]. split; [exact Hs|].
  destruct (Hh' r (Hsub r Hr0)) as [_ He']. congruence.
Qed.

Lemma untouched_fresh (D : gset nat) (s0 st : kernel_state) :
  untouched D s0 st -> (fresh (dom (heap st)) ∉ D).
Proof.
  intros (Hh & _) Hin. destruct (Hh _ Hin) as [Hs He].
  apply (is_fresh (dom (heap st))). apply elem_of_dom. rewrite He. exact Hs.
Qed.

Lemma untouched_heap (D : gset nat) (s0 st : kernel_state) (h : gmap nat object) :
  untouched D s0 st -> (forall r, r ∈ D -> h !! r = heap st !! r) ->
  untouched D s0 (set_heap h st).
Proof.
  intros (Hh & Hm & Hr) Hsame. split; [|split; assumption].
  intros r Hr0. destruct (Hh r Hr0) as [Hs He]. split; [exact Hs|].
  cbn [heap set_heap]. rewrite Hsame by exact Hr0. exact He.
Qed.

Lemma untouched_half_fitted (D : gset nat) (s0 st : kernel_state) (a : gset nat) :
  untouched D s0 st -> untouched D s0 (set_half_fitted a st).
Proof. intros Hu. exact Hu. Qed.

Lemma new_untouched (D : gset nat) (s0 st : kernel_state) (e : estimator) :
  untouched D s0 st ->
  exists r,
    fst (new e st) = Ok r /\ (r ∉ D) /\
    heap (snd (new e st)) !! r = Some {| params := e; fitted := None |} /\
    (forall r', r' <> r -> heap (snd (new e st)) !! r' = heap st !! r') /\
    untouched D s0 (snd (new e st)).
Proof.
  intros Hu. exists (fresh (dom (heap st))). unfold new. cbn [fst snd heap set_heap].
  pose proof (untouched_fresh D s0 st Hu) as Hf.
  split; [reflexivity|]. split; [exact Hf|]. split; [apply lookup_insert_eq|].
  split.
  - intros r' Hne. apply lookup_insert_ne. congruence.
  - apply untouched_heap; [apply untouched_half_fitted, Hu|].
    intros r Hr0. apply lookup_insert_ne. intros <-. contradiction.
Qed.

Lemma store_untouched (D : gset nat) (s0 st : kernel_state) (r : nat) (o : object) :
  r ∉ D -> untouched D s0 st ->
  fst (store r o st) = Ok tt /\
  heap (snd (store r o st)) = <[r := o]> (heap st) /\
  untouched D s0 (snd (store r o st)).
Proof.
  intros Hr Hu. unfold store, modify. cbn [fst snd].
  split; [reflexivity|]. split; [reflexivity|].
  apply untouched_heap; [exact Hu|].
  intros r' Hr'. apply lookup_insert_ne. intros <-. contradiction.
Qed.

Lemma with_random_state_untouched {A} (D : gset nat) (s0 st : kernel_state)
    (seed : option nat) (f : R -> res A * R) :
  untouched D s0 st ->
  heap (snd (with_random_state seed f st)) = heap st /\
  untouched D s0 (snd (with_random_state seed f st)).
Proof.
  intros Hu. unfold with_random_state. destruct seed as [n|].
  - split; [reflexivity|exact Hu].
  - destruct (f (np_random st)) as [a g]. split; [reflexivity|exact Hu].
Qed.

(** A computation that keeps the frame. *)
Definition keeps {A} (D : gset nat) (s0 : kernel_state) (m : M A) : Prop :=
  forall st, untouched D s0 st -> untouched D s0 (snd (m st)).

Lemma keeps_bind {A B} (D : gset nat) (s0 : kernel_state) (m : M A) (k : A -> M B) :
  keeps D s0 m -> (forall a, keeps D s0 (k a)) -> keeps D s0 (bind m k).
Proof.
  intros Hm Hk st Hu. unfold bind. specialize (Hm st Hu).
  destruct (m st) as [[a|e] st']; cbn [snd] in Hm |- *; [apply Hk, Hm|exact Hm].
Qed.

Lemma keeps_pure {A} (D : gset nat) (s0 : kernel_state) (m : M A) :
  (forall st, snd (m st) = st) -> keeps D s0 m.
Proof. intros Hm st Hu. rewrite Hm. exact Hu. Qed.

Lemma keeps_half_fitted (D : gset nat) (s0 : kernel_state)
    (f : kernel_state -> gset nat) :
  keeps D s0 (modify (fun st => set_half_fitted (f st) st)).
Proof. intros st Hu. exact Hu. Qed.

(** [fit] writes the object it is called on, and no other. *)
Lemma fit_untouched (D : gset nat) (s0 st : kernel_state) (r : nat)
    (X : list (list F)) (y : list nat) :
  r ∉ D -> untouched D s0 st -> untouched D s0 (snd (fit r X y st)).
Proof.
  intros Hr Hu. assert (K : keeps D s0 (fit r X y)); [|exact (K st Hu)].
  unfold fit. apply keeps_bind.
  { apply keeps_pure. intros st0. unfold deref. destruct (heap st0 !! r); reflexivity. }
  intros o. apply keeps_bind.
  - destruct (params o) as [p|k|n seed].
    + destruct (length (ModelSelection.unique y) <? 2).
      * apply keeps_bind; [apply keeps_half_fitted|].
        intros _. apply keeps_pure. reflexivity.
      * intros st0 Hu0. apply with_random_state_untouched, Hu0.
    + apply keeps_pure. reflexivity.
    + intros st0 Hu0. apply with_random_state_untouched, Hu0.
  - intros m. apply keeps_bind; [apply keeps_half_fitted|].
    intros _ st0 Hu0. apply store_untouched; assumption.
Qed.

Lemma predict_state (r : nat) (X : list (list F)) (st : kernel_state) :
  snd (predict r X st) = st.
Proof.
  unfold predict, bind, deref, get, throw, lift.
  destruct (heap st !! r) as [o|]; [|reflexivity].
  destruct (negb (is_Some_b (fitted o)) && negb (bool_decide (r ∈ half_fitted st)));
    [reflexivity|].
  destruct (length X =? 0); [reflexivity|].
  destruct (fitted o); reflexivity.
Qed.

Lemma clone_untouched (D : gset nat) (s0 st : kernel_state) (base : nat) (o : object) :
  untouched D s0 st -> heap st !! base = Some o ->
  exists r,
    fst (clone base st) = Ok r /\ (r ∉ D) /\
    heap (snd (clone base st)) !! r = Some {| params := params o; fitted := None |} /\
    (forall r', r' <> r -> heap (snd (clone base st)) !! r' = heap st !! r') /\
    untouched D s0 (snd (clone base st)).
Proof.
  intros Hu Hb. unfold clone, bind, deref. rewrite Hb.
  apply new_untouched, Hu.
Qed.

Lemma set_params_untouched (D : gset nat) (s0 st : kernel_state) (r : nat)
    (c : candidate) (p : svc_params) (fm : option fitted_model) :
  r ∉ D -> untouched D s0 st ->
  heap st !! r = Some {| params := SVC p; fitted := fm |} ->
  fst (set_params r c st) = Ok tt /\ untouched D s0 (snd (set_params r c st)).
Proof.
  intros Hr Hu Hb. unfold set_params, bind, deref. rewrite Hb. cbn [params fitted].
  destruct (store_untouched D s0 st r
              {| params := SVC {| svc_C := p_C c; svc_kernel := p_kernel c;
                                  svc_gamma := p_gamma c;
                                  svc_random_state := svc_random_state p |};
                 fitted := fm |} Hr Hu) as (Hok & _ & Hu').
  split; assumption.
Qed.

(** One fit-and-score always returns a score, and writes its own clone
    only. *)
Lemma fit_and_score_untouched (D : gset nat) (s0 st : kernel_state) (base : nat)
    (X : list (list F)) (y : list nat) (cand : candidate)
    (fold : list nat * list nat) (p : svc_params) (fm : option fitted_model) :
  untouched D s0 st -> base ∈ D ->
  heap s0 !! base = Some {| params := SVC p; fitted := fm |} ->
  exists v,
    fst (fit_and_score base X y cand fold st) = Ok v /\
    untouched D s0 (snd (fit_and_score base X y cand fold st)).
Proof.
  intros Hu Hb Hbase.
  assert (Hb0 : heap st !! base = Some {| params := SVC p; fitted := fm |}).
  { destruct Hu as (Hh & _). destruct (Hh base Hb) as [_ ->]. exact Hbase. }
  unfold fit_and_score, bind, lift.
  destruct (clone_untouched D s0 st base _ Hu Hb0) as (e & He & HeD & Hhe & _ & Hu1).
  destruct (clone base st) as [a st1]. cbn [fst snd] in He, Hhe, Hu1. subst a.
  cbn [params] in Hhe.
  destruct (set_params_untouched D s0 st1 e cand p None HeD Hu1 Hhe) as (Hsp & Hu2).
  destruct (set_params e cand st1) as [a st2]. cbn [fst snd] in Hsp, Hu2. subst a.
  pose proof (fit_untouched D s0 st2 e
                (ModelSelection.safe_indexing [] X (fst fold))
                (ModelSelection.safe_indexing 0 y (fst fold)) HeD Hu2) as Hu3.
  destruct (fit e _ _ st2) as [[u|ex] st3]; cbn [snd] in Hu3; [|eauto].
  pose proof (predict_state e (ModelSelection.safe_indexing [] X (snd fold)) st3)
    as Hps.
  destruct (predict e _ st3) as [[y_pred|ex] st4]; cbn [snd] in Hps; subst st4;
    [|eauto].
  destruct (Metrics.accuracy_score_in _ y_pred); eauto.
Qed.

(** A comprehension whose body always returns, under an invariant. *)
Lemma for_each_ok {A B : Type} (P : kernel_state -> Prop) (Q : B -> Prop)
    (f : A -> M B) (l : list A) :
  (forall a st, P st -> exists b, fst (f a st) = Ok b /\ Q b /\ P (snd (f a st))) ->
  forall st, P st ->
    exists bs, fst (for_each f l st) = Ok bs /\ length bs = length l /\
               Forall Q bs /\ P (snd (for_each f l st)).
Proof.
  intros Hf. induction l as [|a l IH]; intros st HP.
  - exists []. cbn. auto.
  - cbn [for_each]. unfold bind, ret.
    destruct (Hf a st HP) as (b & Hb & HQ & HP1).
    destruct (f a st) as [rb st1]. cbn [fst snd] in Hb, HP1. subst rb.
    destruct (IH st1 HP1) as (bs & Hbs & Hlen & HQs & HP2).
    destruct (for_each f l st1) as [rbs st2]. cbn [fst snd] in Hbs, HP2. subst rbs.
    exists (b :: bs). cbn [fst snd length]. auto.
Qed.

(** The cross-validation returns one score per candidate and fold. *)
Lemma evaluate_candidates_ok (D : gset nat) (s0 st : kernel_state) (base : nat)
    (X : list (list F)) (y : list nat) (cands : list candidate)
    (folds : list (list nat * list nat)) (p : svc_params) (fm : option fitted_model) :
  untouched D s0 st -> base ∈ D ->
  heap s0 !! base = Some {| params := SVC p; fitted := fm |} ->
  exists out,
    fst (evaluate_candidates base X y cands folds st) = Ok out /\
    length out = length cands /\
    Forall (fun row => length row = length folds) out /\
    untouched D s0 (snd (evaluate_candidates base X y cands folds st)).
Proof.
  intros Hu Hb Hbase. unfold evaluate_candidates.
  apply (for_each_ok (untouched D s0) (fun row => length row = length folds));
    [|exact Hu].
  intros cand st1 Hu1.
  destruct (for_each_ok (untouched D s0) (fun _ => True)
              (fit_and_score base X y cand) folds) with (st := st1)
    as (row & Hrow & Hlen & _ & Hu2); [|exact Hu1|eauto].
  intros fold st2 Hu2.
  destruct (fit_and_score_untouched D s0 st2 base X y cand fold p fm Hu2 Hb Hbase)
    as (v & Hv & Hu3).
  eauto.
Qed.

End Frame.

(** *** Choosing the best candidate *)

Lemma argmin_spec (l : list nat) :
  l <> [] ->
  argmin l < length l /\
  (forall j, j < length l -> nth (argmin l) l 0 <= nth j l 0) /\
  (forall j, j < argmin l -> nth (argmin l) l 0 < nth j l 0).
Proof.
  induction l as [|x l IH]; [congruence|]. intros _.
  destruct l as [|x' l'].
  - cbn. repeat split; try lia. intros [|j] Hj; cbn in *; lia.
  - destruct IH as (Hlt & Hmin & Hfirst); [discriminate|].
    set (l := x' :: l') in *. cbn [argmin]. fold l.
    replace (match l with [] => 0 | _ :: _ =>
               if x <=? nth (argmin l) l 0 then 0 else S (argmin l) end)
      with (if x <=? nth (argmin l) l 0 then 0 else S (argmin l)) by reflexivity.
    destruct (x <=? nth (argmin l) l 0) eqn:E.
    + apply Nat.leb_le in E. cbn [length nth]. repeat split; try lia.
      intros [|j] Hj; [lia|]. cbn [nth]. specialize (Hmin j). lia.
    + apply Nat.leb_gt in E. cbn [length nth]. repeat split; try lia.
      * intros [|j] Hj; [cbn [nth]; lia|]. cbn [nth]. apply Hmin. lia.
      * intros [|j] Hj; [cbn [nth]; lia|]. cbn [nth]. apply Hfirst. lia.
Qed.

Lemma filter_length_le {A} (f g : A -> bool) (l : list A) :
  (forall x, In x l -> f x = true -> g x = true) ->
  length (List.filter f l) <= length (List.filter g l).
Proof.
  induction l as [|x l IH]; intros Hfg; [reflexivity|].
  cbn [List.filter].
  assert (IH' := IH (fun z Hz => Hfg z (in_cons _ _ _ Hz))).
  destruct (f x) eqn:Ef.
  - rewrite (Hfg x (in_eq _ _) Ef). cbn [length]. lia.
  - destruct (g x); cbn [length]; lia.
Qed.

Lemma filter_length_lt {A} (f g : A -> bool) (l : list A) (x0 : A) :
  (forall x, In x l -> f x = true -> g x = true) ->
  In x0 l -> f x0 = false -> g x0 = true ->
  length (List.filter f l) < length (List.filter g l).
Proof.
  induction l as [|x l IH]; intros Hfg Hin Hf Hg; [contradiction|].
  cbn [List.filter].
  assert (Hle := filter_length_le f g l (fun z Hz => Hfg z (in_cons _ _ _ Hz))).
  destruct Hin as [->|Hin].
  - rewrite Hf, Hg. cbn [length]. lia.
  - assert (IH' := IH (fun z Hz => Hfg z (in_cons _ _ _ Hz)) Hin Hf Hg).
    destruct (f x) eqn:Ef.
    + rewrite (Hfg x (in_eq _ _) Ef). cbn [length]. lia.
    + destruct (g x); cbn [length]; lia.
Qed.

Section Ranking.
Context {F : Type} `{Float64 F}.

(** The number of entries above a value. *)
Definition above (a : list F) (v : F) : nat :=
  length (List.filter (fun w => f_lt v w) a).

(** The winner among the means [means], as the ranks of
    [rank_test_score] choose it.  When every mean is NaN it is the first
    combination.  Otherwise the combinations are compared by their keys,
    the entries of [nan_to_num means]: no key is NaN, and the key of a
    mean that is not NaN is the mean; no key is above the winner's, and
    the key of every combination before the winner is below the
    winner's. *)
Definition first_best (means : list F) (i : nat) : Prop :=
  i < length means /\
  if forallb f_isnan means then i = 0
  else
    let keys := nan_to_num means in
    forall j, j < length means ->
      f_isnan (nth j keys f_nan) = false /\
      (f_isnan (nth j means f_nan) = false -> nth j keys f_nan = nth j means f_nan) /\
      f_lt (nth i keys f_nan) (nth j keys f_nan) = false /\
      (j < i -> f_lt (nth j keys f_nan) (nth i keys f_nan) = true).

Lemma rank_test_score_length (means : list F) :
  length (rank_test_score means) = length means.
Proof.
  unfold rank_test_score, rankdata_desc, nan_to_num.
  destruct (forallb f_isnan means); rewrite ?length_map; reflexivity.
Qed.

Lemma nan_to_num_length (means : list F) : length (nan_to_num means) = length means.
Proof. unfold nan_to_num. apply length_map. Qed.

Lemma nan_to_num_nth (means : list F) (k : nat) :
  k < length means ->
  nth k (nan_to_num means) f_nan
  = if f_isnan (nth k means f_nan)
    then f_sub (MinMaxScaler.nanmin means) f_one
    else nth k means f_nan.
Proof.
  intros Hk. unfold nan_to_num.
  set (fill := fun v : F => if f_isnan v then f_sub (MinMaxScaler.nanmin means) f_one else v).
  rewrite (nth_indep _ f_nan (fill f_nan)) by (rewrite length_map; exact Hk).
  rewrite (map_nth fill). reflexivity.
Qed.

Lemma nth_map_const (l : list F) (c d k : nat) :
  k < length l -> nth k (map (fun _ => c) l) d = c.
Proof.
  revert k. induction l as [|x l IH]; intros [|k] Hk; cbn in *; try lia.
  apply IH. lia.
Qed.

Context {Laws : Float64Laws F}.

Lemma above_strict (a : list F) (u v : F) :
  f_lt u v = true -> In v a -> above a v < above a u.
Proof.
  intros Huv Hin. apply (filter_length_lt _ _ a v).
  - intros w _ Hvw. exact (f_lt_trans u v w Huv Hvw).
  - exact Hin.
  - apply f_lt_irrefl.
  - exact Huv.
Qed.

Lemma above_mono (a : list F) (u v : F) :
  f_isnan v = false -> f_lt u v = false -> above a u <= above a v.
Proof.
  intros Hv Huv. apply filter_length_le. intros w _ Huw.
  destruct (f_lt_cotrans u v w Hv Huw) as [E|E]; [congruence|exact E].
Qed.

(** [np.nanmin] of means that are not all NaN is not NaN. *)
Lemma fold_fmin_not_nan (l : list F) (acc : F) :
  f_isnan acc = false \/ forallb f_isnan l = false ->
  f_isnan (fold_left MinMaxScaler.fmin l acc) = false.
Proof.
  revert acc. induction l as [|b l IH]; intros acc Hacc.
  - destruct Hacc as [Hacc|Hl]; [exact Hacc|discriminate].
  - cbn [fold_left]. apply IH. unfold MinMaxScaler.fmin.
    cbn [forallb] in Hacc.
    destruct (f_isnan b) eqn:Eb.
    + destruct Hacc as [Hacc|Hl]; [left; exact Hacc|right; exact Hl].
    + left. destruct (f_isnan acc) eqn:Ea; [exact Eb|].
      destruct (f_lt b acc); assumption.
Qed.

Lemma nan_to_num_not_nan (means : list F) (k : nat) :
  forallb f_isnan means = false -> k < length means ->
  f_isnan (nth k (nan_to_num means) f_nan) = false.
Proof.
  intros Hall Hk. rewrite nan_to_num_nth by exact Hk.
  destruct (f_isnan (nth k means f_nan)) eqn:E; [|exact E].
  apply f_sub_one. unfold MinMaxScaler.nanmin. apply fold_fmin_not_nan.
  right. exact Hall.
Qed.

Lemma best_of_means (means : list F) :
  means <> [] -> first_best means (argmin (rank_test_score means)).
Proof.
  intros Hne.
  assert (Hpos : 0 < length means) by (destruct means; [congruence|cbn; lia]).
  assert (Hrne : rank_test_score means <> []).
  { intros E. apply (f_equal (@length nat)) in E.
    rewrite rank_test_score_length in E. cbn in E. lia. }
  destruct (argmin_spec _ Hrne) as (Hlt & Hmin & Hfirst).
  rewrite rank_test_score_length in Hlt, Hmin.
  set (i := argmin (rank_test_score means)) in *. clearbody i.
  split; [exact Hlt|].
  unfold rank_test_score in Hmin, Hfirst.
  destruct (forallb f_isnan means) eqn:Eall.
  - destruct i as [|i]; [reflexivity|]. exfalso.
    specialize (Hfirst 0 ltac:(lia)). rewrite !nth_map_const in Hfirst by lia. lia.
  - cbv zeta. set (a := nan_to_num means) in *.
    assert (Hal : length a = length means) by apply nan_to_num_length.
    unfold rankdata_desc in Hmin, Hfirst. fold (above a) in Hmin, Hfirst.
    assert (Hrank : forall k, k < length means ->
              nth k (map (fun v => S (above a v)) a) 0 = S (above a (nth k a f_nan))).
    { intros k Hk.
      rewrite (nth_indep _ 0 ((fun v => S (above a v)) f_nan))
        by (rewrite length_map, Hal; exact Hk).
      apply (map_nth (fun v => S (above a v))). }
    intros j Hj. split; [|split; [|split]].
    + apply nan_to_num_not_nan; assumption.
    + intros Hnn. unfold a. rewrite nan_to_num_nth by exact Hj. rewrite Hnn. reflexivity.
    + destruct (f_lt (nth i a f_nan) (nth j a f_nan)) eqn:E; [exfalso|reflexivity].
      assert (Hin : In (nth j a f_nan) a) by (apply nth_In; rewrite Hal; exact Hj).
      pose proof (above_strict a _ _ E Hin) as Hs.
      specialize (Hmin j Hj). rewrite !Hrank in Hmin by assumption. lia.
    + intros Hji.
      assert (Hnn : f_isnan (nth i a f_nan) = false)
        by (apply nan_to_num_not_nan; assumption).
      destruct (f_lt (nth j a f_nan) (nth i a f_nan)) eqn:E; [reflexivity|exfalso].
      pose proof (above_mono a _ _ Hnn E) as Hm.
      specialize (Hfirst j Hji). rewrite !Hrank in Hfirst by assumption. lia.
Qed.

End Ranking.

(** *** The grid and the search *)

Lemma kfold_split_length (n_splits : nat) (y : list nat)
    (folds : list (list nat * list nat)) :
  KFold.split n_splits y = Ok folds -> length folds = n_splits.
Proof.
  unfold KFold.split. destruct (length y <? n_splits); [discriminate|].
  destruct (KFold.make_test_folds n_splits y); cbn [res_bind]; [|discriminate].
  intros [= <-]. rewrite length_map, length_seq. reflexivity.
Qed.

Lemma length_concat_uniform {A} (k : nat) (out : list (list A)) :
  Forall (fun row => length row = k) out -> length (concat out) = length out * k.
Proof.
  induction 1 as [|row out Hrow _ IH]; [reflexivity|].
  cbn [concat length]. rewrite length_app, IH, Hrow. lia.
Qed.

Lemma grid_regularization :
  Forall (fun c => p_C c = (1 # 10)%Q \/ p_C c = 1%Q \/ p_C c = 10%Q)
         (ParameterGrid param_grid).
Proof.
  unfold ParameterGrid, param_grid. cbn [flat_map map app grid_C grid_gamma grid_kernel].
  repeat (apply List.Forall_cons; [cbn [p_C]; auto|]). apply List.Forall_nil.
Qed.

Section GridSearch.
Context {F R : Type} `{Float64 F} `{RandomState R} `{Learner F R}.
Variables (X : list (list F)) (y : list nat).

(** The parameters of the estimator the search fits for a candidate:
    those of the grid, and the [random_state] of the base estimator. *)
Definition svc_with (p : svc_params) (c : candidate) : svc_params :=
  {| svc_C := p_C c; svc_kernel := p_kernel c; svc_gamma := p_gamma c;
     svc_random_state := svc_random_state p |}.

(** What [GridSearchCV.fit] on the estimator [estimator], an [SVC] of
    parameters [p], returns or raises from the state [st].  It raises
    what the fold splitter raises.  Otherwise the cross-validation
    returns the scores [out] of 24 combinations on 3 folds; when all 72
    fits failed the search raises, and when one did not, the winner
    [best] is the combination at [best_index out], a clone of the base
    estimator is given its parameters and fitted on all of [X], and the
    search returns [best] if that fit returns and raises what it raises
    if it does not. *)
Definition search_result (p : svc_params) (estimator : nat) (st : kernel_state)
    (r : res candidate) : Prop :=
  match KFold.split 3 y with
  | Raise e => r = Raise e
  | Ok folds =>
      exists base st1 out st2,
        clone estimator st = (Ok base, st1) /\
        evaluate_candidates base X y (ParameterGrid param_grid) folds st1 = (Ok out, st2) /\
        length out = 24 /\ Forall (fun row => length row = 3) out /\
        if forallb snd (concat out)
        then r = Raise (ValueError "All the fits failed")
        else
          exists best refit st3 st4,
            nth_error (ParameterGrid param_grid) (best_index out) = Some best /\
            first_best (mean_test_score out) (best_index out) /\
            (p_C best = (1 # 10)%Q \/ p_C best = 1%Q \/ p_C best = 10%Q) /\
            clone base (set_best_params (Some best) st2) = (Ok refit, st3) /\
            set_params refit best st3 = (Ok tt, st4) /\
            heap st4 !! refit = Some {| params := SVC (svc_with p best); fitted := None |} /\
            r = match fst (fit refit X y st4) with
                | Ok _ => Ok best
                | Raise e => Raise e
                end
  end.

Lemma untouched_best_params (D : gset nat) (s0 st : kernel_state)
    (c : option candidate) :
  untouched D s0 st -> untouched D s0 (set_best_params c st).
Proof. intros Hu. exact Hu. Qed.

Lemma set_params_heap (st : kernel_state) (r : nat) (c : candidate) (p : svc_params)
    (fm : option fitted_model) :
  heap st !! r = Some {| params := SVC p; fitted := fm |} ->
  heap (snd (set_params r c st)) !! r
  = Some {| params := SVC (svc_with p c); fitted := fm |}.
Proof.
  intros Hr. unfold set_params, bind, deref. rewrite Hr. cbn [params fitted].
  unfold store, modify. cbn [snd heap set_heap]. apply lookup_insert_eq.
Qed.

(** The search writes its own clones only. *)
Lemma GridSearchCV_fit_untouched (D : gset nat) (s0 st : kernel_state)
    (estimator : nat) (p : svc_params) (fm : option fitted_model) :
  untouched D s0 st ->
  heap st !! estimator = Some {| params := SVC p; fitted := fm |} ->
  untouched D s0 (snd (GridSearchCV_fit estimator param_grid 3 X y st)).
Proof.
  intros Hu He. unfold GridSearchCV_fit, bind, lift, ret, throw.
  destruct (KFold.split 3 y) as [folds|e] eqn:Ek; [|exact Hu].
  destruct (clone_untouched D s0 st estimator _ Hu He)
    as (base & Hb & HbD & Hhb & _ & Hu1).
  destruct (clone estimator st) as [rb st1] eqn:Ecl.
  cbn [fst snd params] in Hb, Hhb, Hu1. subst rb.
  set (D' := D ∪ {[base]}).
  assert (HDD' : D ⊆ D') by set_solver.
  assert (Hu1' : untouched D' st1 st1).
  { apply untouched_refl. intros r Hr. apply elem_of_union in Hr as [Hr|Hr].
    - destruct Hu1 as (Hh & _). destruct (Hh r Hr) as [Hs ->]. exact Hs.
    - apply elem_of_singleton in Hr. subst r. rewrite Hhb. eauto. }
  assert (HbD' : base ∈ D') by set_solver.
  destruct (evaluate_candidates_ok D' st1 st1 base X y (ParameterGrid param_grid)
              folds p None Hu1' HbD' Hhb) as (out & Hout & _ & _ & Hu2).
  destruct (evaluate_candidates base X y (ParameterGrid param_grid) folds st1)
    as [rout st2] eqn:Eev. cbn [fst snd] in Hout, Hu2. subst rout.
  assert (Hu2' : untouched D s0 st2)
    by exact (untouched_trans D D' s0 st1 st2 HDD' Hu1 Hu2).
  destruct (length (concat out) <? 1); [exact Hu2'|].
  destruct (forallb snd (concat out)); [exact Hu2'|].
  destruct (nth_error (ParameterGrid param_grid) (best_index out)) as [best|];
    [|exact Hu2'].
  unfold modify. cbn [fst snd].
  assert (Hu3 : untouched D' st1 (set_best_params (Some best) st2)) by exact Hu2.
  assert (Hb3 : heap (set_best_params (Some best) st2) !! base
                = Some {| params := SVC p; fitted := None |}).
  { destruct Hu3 as (Hh & _). destruct (Hh base HbD') as [_ ->]. exact Hhb. }
  destruct (clone_untouched D' st1 _ base _ Hu3 Hb3)
    as (r & Hr & HrD & Hhr & _ & Hu4).
  destruct (clone base (set_best_params (Some best) st2)) as [rr st4].
  cbn [fst snd params] in Hr, Hhr, Hu4. subst rr.
  destruct (set_params_untouched D' st1 st4 r best p None HrD Hu4 Hhr) as (Hsp & Hu5).
  destruct (set_params r best st4) as [ru st5]. cbn [fst snd] in Hsp, Hu5. subst ru.
  pose proof (fit_untouched D' st1 st5 r X y HrD Hu5) as Hu6.
  destruct (fit r X y st5) as [[u|e] st6]; cbn [fst snd] in Hu6 |- *;
    exact (untouched_trans D D' s0 st1 st6 HDD' Hu1 Hu6).
Qed.

(** Cell 17 changes neither [models] nor [results] nor an object that
    exists when it starts. *)
Lemma cell17_untouched (D : gset nat) (st : kernel_state) :
  (forall r, r ∈ D -> is_Some (heap st !! r)) ->
  untouched D st (snd (cell17 X y st)).
Proof.
  intros HD. unfold cell17, bind.
  destruct (new_untouched D st st (SVC SVC_default) (untouched_refl D st HD))
    as (svc & Hs & _ & Hhs & _ & Hu1).
  destruct (new (SVC SVC_default) st) as [rs st1]. cbn [fst snd] in Hs, Hhs, Hu1 |- *.
  subst rs. unfold modify.
  exact (GridSearchCV_fit_untouched D st (set_best_params None st1) svc SVC_default None
           Hu1 Hhs).
Qed.

Context {Laws : Float64Laws F}.

Lemma GridSearchCV_fit_outcome (D : gset nat) (s0 st : kernel_state)
    (estimator : nat) (p : svc_params) (fm : option fitted_model) :
  untouched D s0 st ->
  heap st !! estimator = Some {| params := SVC p; fitted := fm |} ->
  untouched D s0 (snd (GridSearchCV_fit estimator param_grid 3 X y st)) /\
  search_result p estimator st (fst (GridSearchCV_fit estimator param_grid 3 X y st)).
Proof.
  intros Hu He. unfold GridSearchCV_fit, search_result, bind, lift, ret, throw.
  destruct (KFold.split 3 y) as [folds|e] eqn:Ek.
  2:{ cbn [fst snd]. split; [exact Hu|reflexivity]. }
  pose proof (kfold_split_length 3 y folds Ek) as Hfl.
  destruct (clone_untouched D s0 st estimator _ Hu He)
    as (base & Hb & HbD & Hhb & _ & Hu1).
  destruct (clone estimator st) as [rb st1] eqn:Ecl.
  cbn [fst snd params] in Hb, Hhb, Hu1. subst rb.
  set (D' := D ∪ {[base]}).
  assert (HDD' : D ⊆ D') by set_solver.
  assert (Hu1' : untouched D' st1 st1).
  { apply untouched_refl. intros r Hr. apply elem_of_union in Hr as [Hr|Hr].
    - destruct Hu1 as (Hh & _). destruct (Hh r Hr) as [Hs ->]. exact Hs.
    - apply elem_of_singleton in Hr. subst r. rewrite Hhb. eauto. }
  assert (HbD' : base ∈ D') by set_solver.
  destruct (evaluate_candidates_ok D' st1 st1 base X y (ParameterGrid param_grid)
              folds p None Hu1' HbD' Hhb) as (out & Hout & Hol & Hrows & Hu2).
  change (length (ParameterGrid param_grid)) with 24 in Hol.
  rewrite Hfl in Hrows.
  pose proof (length_concat_uniform 3 out Hrows) as Hcl. rewrite Hol in Hcl.
  change (24 * 3) with 72 in Hcl.
  destruct (evaluate_candidates base X y (ParameterGrid param_grid) folds st1)
    as [rout st2] eqn:Eev. cbn [fst snd] in Hout, Hu2. subst rout.
  assert (Hu2' : untouched D s0 st2)
    by exact (untouched_trans D D' s0 st1 st2 HDD' Hu1 Hu2).
  rewrite Hcl. change (72 <? 1) with false. cbv iota.
  destruct (forallb snd (concat out)) eqn:Eall.
  { cbn [fst snd]. split; [exact Hu2'|].
    exists base, st1, out, st2. rewrite Eall.
    split; [reflexivity|]. split; [exact Eev|]. auto. }
  assert (Hmne : mean_test_score out <> []).
  { unfold mean_test_score. intros E. apply (f_equal (@length F)) in E.
    rewrite length_map, Hol in E. discriminate. }
  pose proof (best_of_means _ Hmne) as Hbest. fold (best_index out) in Hbest.
  assert (Hbl : best_index out < 24).
  { destruct Hbest as [Hbl _]. unfold mean_test_score in Hbl.
    rewrite length_map, Hol in Hbl. exact Hbl. }
  destruct (nth_error (ParameterGrid param_grid) (best_index out)) as [best|] eqn:En.
  2:{ apply nth_error_None in En.
      change (length (ParameterGrid param_grid)) with 24 in En. lia. }
  unfold modify. cbn [fst snd].
  assert (Hu3 : untouched D' st1 (set_best_params (Some best) st2)) by exact Hu2.
  assert (Hb3 : heap (set_best_params (Some best) st2) !! base
                = Some {| params := SVC p; fitted := None |}).
  { destruct Hu3 as (Hh & _). destruct (Hh base HbD') as [_ ->]. exact Hhb. }
  destruct (clone_untouched D' st1 _ base _ Hu3 Hb3)
    as (r & Hr & HrD & Hhr & _ & Hu4).
  destruct (clone base (set_best_params (Some best) st2)) as [rr st4] eqn:Ecl2.
  cbn [fst snd params] in Hr, Hhr, Hu4. subst rr.
  destruct (set_params_untouched D' st1 st4 r best p None HrD Hu4 Hhr) as (Hsp & Hu5).
  pose proof (set_params_heap st4 r best p None Hhr) as Hh5.
  destruct (set_params r best st4) as [ru st5] eqn:Esp. cbn [fst snd] in Hsp, Hu5, Hh5.
  subst ru.
  pose proof (fit_untouched D' st1 st5 r X y HrD Hu5) as Hu6.
  split.
  - destruct (fit r X y st5) as [[u|e] st6]; cbn [fst snd] in Hu6 |- *;
      exact (untouched_trans D D' s0 st1 st6 HDD' Hu1 Hu6).
  - exists base, st1, out, st2. rewrite Eall.
    split; [reflexivity|]. split; [exact Eev|]. split; [exact Hol|].
    split; [exact Hrows|].
    exists best, r, st4, st5.
    split; [exact En|]. split; [exact Hbest|]. split.
    { pose proof grid_regularization as Hreg. rewrite List.Forall_forall in Hreg.
      apply Hreg. eapply nth_error_In, En. }
    split; [exact Ecl2|]. split; [exact Esp|]. split; [exact Hh5|].
    destruct (fit r X y st5) as [[u|e] st6]; reflexivity.
Qed.

(** Cell 17, from a state in which the objects [D] exist. *)
Lemma cell17_outcome (D : gset nat) (st : kernel_state) :
  (forall r, r ∈ D -> is_Some (heap st !! r)) ->
  untouched D st (snd (cell17 X y st)) /\
  search_result SVC_default (fresh (dom (heap st)))
                (set_best_params None (snd (new (SVC SVC_default) st)))
                (fst (cell17 X y st)).
Proof.
  intros HD. unfold cell17, bind.
  destruct (new_untouched D st st (SVC SVC_default) (untouched_refl D st HD))
    as (svc & Hs & _ & Hhs & _ & Hu1).
  assert (Hsvc : svc = fresh (dom (heap st))) by (unfold new in Hs; cbn in Hs; congruence).
  destruct (new (SVC SVC_default) st) as [rs st1]. cbn [fst snd] in Hs, Hhs, Hu1 |- *.
  subst rs. rewrite <- Hsvc. unfold modify.
  exact (GridSearchCV_fit_outcome D st (set_best_params None st1) svc SVC_default None
           Hu1 Hhs).
Qed.

End GridSearch.

(** *** Training *)

Section Training.
Context {F R : Type} `{Float64 F} `{RandomState R} `{Learner F R}.
Variables (X_train : list (list F)) (y_train : list nat).
Variables (X_test : list (list F)) (y_test : list nat).

(** The estimator draws from a generator of its own, or from none. *)
Definition seeded (e : estimator) : Prop :=
  match e with
  | SVC p => svc_random_state p <> None
  | KNeighborsClassifier _ => True
  | RandomForestClassifier _ seed => seed <> None
  end.

(** What [fit] stores in a seeded estimator: a function of its
    parameters and of the training data. *)
Definition fit_outcome (e : estimator) : res fitted_model :=
  match e with
  | SVC p =>
      if length (ModelSelection.unique y_train) <? 2
      then Raise (ValueError "The number of classes has to be greater than one")
      else match svc_random_state p with
           | Some n => fst (libsvm_fit p (rs_seed n) X_train y_train)
           | None => Raise NotFittedError
           end
  | KNeighborsClassifier k => knn_fit k X_train y_train
  | RandomForestClassifier n (Some seed) =>
      fst (forest_fit n (rs_seed seed) X_train y_train)
  | RandomForestClassifier n None => Raise NotFittedError
  end.

(** The state a fit of the object [r] leaves: with the model stored, or,
    when an [SVC] refused the classes, with the object half fitted. *)
Definition after_fit (r : nat) (e : estimator) (m : fitted_model) (st : kernel_state)
    : kernel_state :=
  set_heap (<[r := {| params := e; fitted := Some m |}]> (heap st))
           (set_half_fitted (half_fitted st ∖ {[r]}) st).

Definition after_raise (r : nat) (e : estimator) (st : kernel_state) : kernel_state :=
  match e with
  | SVC _ =>
      if length (ModelSelection.unique y_train) <? 2
      then set_half_fitted (half_fitted st ∪ {[r]}) st
      else st
  | _ => st
  end.

Lemma fit_seeded (st : kernel_state) (r : nat) (e : estimator)
    (fm : option fitted_model) :
  heap st !! r = Some {| params := e; fitted := fm |} -> seeded e ->
  fit r X_train y_train st
  = match fit_outcome e with
    | Ok m => (Ok tt, after_fit r e m st)
    | Raise ex => (Raise ex, after_raise r e st)
    end.
Proof.
  intros Hr Hs. unfold fit, bind, deref. rewrite Hr. cbn [params].
  destruct e as [p|k|n seed]; cbn [seeded fit_outcome after_raise] in *.
  - destruct (length (ModelSelection.unique y_train) <? 2); [reflexivity|].
    destruct (svc_random_state p) as [sd|]; [|congruence].
    unfold with_random_state, lift.
    destruct (fst (libsvm_fit p (rs_seed sd) X_train y_train)); reflexivity.
  - unfold lift. destruct (knn_fit k X_train y_train); reflexivity.
  - destruct seed as [sd|]; [|congruence].
    unfold with_random_state, lift.
    destruct (fst (forest_fit n (rs_seed sd) X_train y_train)); reflexivity.
Qed.

(** A fit that raises has stored no model. *)
Lemma fit_raise_state (st : kernel_state) (r : nat) (X : list (list F))
    (y : list nat) (ex : exn) :
  fst (fit r X y st) = Raise ex ->
  heap (snd (fit r X y st)) = heap st /\
  models (snd (fit r X y st)) = models st /\
  results (snd (fit r X y st)) = results st.
Proof.
  unfold fit, bind, deref, with_random_state, lift, modify, store, throw.
  destruct (heap st !! r) as [o|]; [|auto].
  destruct (params o) as [p|k|n seed].
  - destruct (length (ModelSelection.unique y) <? 2); [cbn; auto|].
    destruct (svc_random_state p) as [sd|].
    + destruct (fst (libsvm_fit p (rs_seed sd) X y)); cbn; [discriminate|auto].
    + destruct (libsvm_fit p (np_random st) X y) as [[m|e] g]; cbn;
        [discriminate|auto].
  - destruct (knn_fit k X y); cbn; [discriminate|auto].
  - destruct seed as [sd|].
    + destruct (fst (forest_fit n (rs_seed sd) X y)); cbn; [discriminate|auto].
    + destruct (forest_fit n (np_random st) X y) as [[m|e] g]; cbn;
        [discriminate|auto].
Qed.

(** What [predict] on the test part returns for a fitted model. *)
Definition predict_outcome (m : fitted_model) : res (list nat) :=
  if length X_test =? 0
  then Raise (ValueError "Found array with 0 sample(s)")
  else model_predict m X_test.

Lemma predict_fitted (st : kernel_state) (r : nat) (e : estimator) (m : fitted_model) :
  heap st !! r = Some {| params := e; fitted := Some m |} ->
  predict r X_test st = (predict_outcome m, st).
Proof.
  intros Hr. unfold predict, predict_outcome, bind, deref, get, throw, lift.
  rewrite Hr. cbn [fitted is_Some_b negb andb].
  destruct (length X_test =? 0); reflexivity.
Qed.

(** The accuracy of an estimator on the test part. *)
Definition score_outcome (e : estimator) : res xreal :=
  try! m <- fit_outcome e;
  try! y_pred <- predict_outcome m;
  Metrics.accuracy_score y_test y_pred.

(** The loop of cell 11 on the estimators themselves. *)
Fixpoint loop_outcome (es : list (string * estimator)) (acc : list (string * xreal))
    : res unit * list (string * xreal) :=
  match es with
  | [] => (Ok tt, acc)
  | (name, e) :: es' =>
      match score_outcome e with
      | Ok a => loop_outcome es' (dict_set name a acc)
      | Raise ex => (Raise ex, acc)
      end
  end.

(** The item [(name, r)] of [models] refers to the estimator [e]. *)
Definition refers (st : kernel_state) (item : string * nat)
    (ne : string * estimator) : Prop :=
  fst item = fst ne /\
  exists fm, heap st !! snd item = Some {| params := snd ne; fitted := fm |}.

(** After a loop that returned, the item is fitted. *)
Definition is_fitted (st : kernel_state) (item : string * nat)
    (ne : string * estimator) : Prop :=
  fst item = fst ne /\
  exists m, fit_outcome (snd ne) = Ok m /\
            heap st !! snd item = Some {| params := snd ne; fitted := Some m |}.

Lemma refers_insert (st st' : kernel_state) (r : nat) (o : object)
    (items : list (string * nat)) (es : list (string * estimator)) :
  heap st' = <[r := o]> (heap st) -> ~ In r (map snd items) ->
  Forall2 (refers st) items es -> Forall2 (refers st') items es.
Proof.
  intros Hh Hnotin Hrefs.
  induction Hrefs as [|item ne items es (Hn & fm1 & Hl) _ IH]; constructor.
  - split; [exact Hn|]. exists fm1. rewrite Hh, lookup_insert_ne; [exact Hl|].
    intros E. apply Hnotin. left. symmetry. exact E.
  - apply IH. intros Hin. apply Hnotin. right. exact Hin.
Qed.

Lemma train_loop_outcome (items : list (string * nat))
    (es : list (string * estimator)) :
  List.NoDup (map snd items) -> Forall (fun ne => seeded (snd ne)) es ->
  forall st, Forall2 (refers st) items es ->
    fst (train_loop X_train y_train X_test y_test items st)
      = fst (loop_outcome es (results st)) /\
    results (snd (train_loop X_train y_train X_test y_test items st))
      = snd (loop_outcome es (results st)) /\
    models (snd (train_loop X_train y_train X_test y_test items st)) = models st /\
    (forall r', ~ In r' (map snd items) ->
       heap (snd (train_loop X_train y_train X_test y_test items st)) !! r'
       = heap st !! r') /\
    (forall r', is_Some (heap st !! r') ->
       is_Some (heap (snd (train_loop X_train y_train X_test y_test items st)) !! r')) /\
    (fst (train_loop X_train y_train X_test y_test items st) = Ok tt ->
     Forall2 (is_fitted (snd (train_loop X_train y_train X_test y_test items st)))
             items es).
Proof.
  intros Hnd Hseed. revert es Hseed.
  induction items as [|[name r] items IH]; intros es Hseed st Hrefs.
  - inversion Hrefs; subst. cbn. repeat split; auto.
  - inversion Hrefs as [|item ne items' es' (Hname & fm & Hr) Hrest]; subst.
    destruct ne as [name' e]. cbn [fst snd] in Hname, Hr. subst name'.
    inversion Hseed as [|ne es0 Hse Hseed']; subst. cbn [snd] in Hse.
    cbn [map] in Hnd. inversion Hnd as [|r0 rs Hnotin Hnd']; subst.
    assert (Estep : train_loop X_train y_train X_test y_test ((name, r) :: items) st
              = match fit_outcome e with
                | Ok m =>
                    let st1 := after_fit r e m st in
                    match (try! y_pred <- predict_outcome m;
                           Metrics.accuracy_score y_test y_pred) with
                    | Ok a =>
                        train_loop X_train y_train X_test y_test items
                          (set_results (dict_set name a (results st1)) st1)
                    | Raise ex => (Raise ex, st1)
                    end
                | Raise ex => (Raise ex, after_raise r e st)
                end).
    { cbn [train_loop]. unfold bind at 1. rewrite (fit_seeded st r e fm Hr Hse).
      destruct (fit_outcome e) as [m|ex]; [|reflexivity]. cbv zeta.
      unfold bind at 1.
      rewrite (predict_fitted (after_fit r e m st) r e m) by apply lookup_insert_eq.
      destruct (predict_outcome m) as [y_pred|ex]; cbn [res_bind]; [|reflexivity].
      unfold lift, bind, modify.
      destruct (Metrics.accuracy_score y_test y_pred); reflexivity. }
    rewrite Estep. clear Estep. cbn [loop_outcome]. unfold score_outcome.
    destruct (fit_outcome e) as [m|ex] eqn:Efit; cbn [res_bind].
    2:{ cbn [fst snd].
        assert (Hst : heap (after_raise r e st) = heap st /\
                      results (after_raise r e st) = results st /\
                      models (after_raise r e st) = models st).
        { unfold after_raise. destruct e as [p| |]; auto.
          destruct (_ <? 2); auto. }
        destruct Hst as (Eh & Er & Em). rewrite Eh, Er, Em.
        repeat split; auto. discriminate. }
    cbv zeta.
    set (st1 := after_fit r e m st).
    assert (Hh1 : heap st1 = <[r := {| params := e; fitted := Some m |}]> (heap st))
      by reflexivity.
    assert (Hr1 : heap st1 !! r = Some {| params := e; fitted := Some m |})
      by apply lookup_insert_eq.
    destruct (try! y_pred <- predict_outcome m; Metrics.accuracy_score y_test y_pred)
      as [a|ex].
    2:{ cbn [fst snd]. rewrite Hh1. repeat split; auto.
        - intros r' Hr'. apply lookup_insert_ne. intros <-. apply Hr'. left. reflexivity.
        - intros r' Hr'. apply lookup_insert_is_Some'. right. exact Hr'.
        - discriminate. }
    set (st2 := set_results (dict_set name a (results st1)) st1).
    assert (Hrefs2 : Forall2 (refers st2) items es').
    { apply (refers_insert st st2 r {| params := e; fitted := Some m |});
        [exact Hh1|exact Hnotin|exact Hrest]. }
    destruct (IH Hnd' es' Hseed' st2 Hrefs2)
      as (Hout & Hres & Hmod & Hframe & Halloc & Hfit).
    change (results st2) with (dict_set name a (results st)) in Hout, Hres.
    split; [exact Hout|]. split; [exact Hres|]. split; [exact Hmod|].
    split; [|split].
    + intros r' Hr'. rewrite Hframe by (intros Hin; apply Hr'; right; exact Hin).
      change (heap st2) with (heap st1). rewrite Hh1.
      apply lookup_insert_ne. intros <-. apply Hr'. left. reflexivity.
    + intros r' Hr'. apply Halloc. change (heap st2) with (heap st1). rewrite Hh1.
      apply lookup_insert_is_Some'. right. exact Hr'.
    + intros Hok. constructor; [|apply Hfit, Hok].
      split; [reflexivity|]. exists m. split; [exact Efit|]. cbn [snd].
      rewrite Hframe by exact Hnotin. exact Hr1.
Qed.

(** The estimators of cell 11. *)
Definition three_models : list (string * estimator) :=
  [("SVM", SVC {| svc_C := 10; svc_kernel := rbf; svc_gamma := gamma_scale;
                  svc_random_state := Some 42 |});
   ("KNN", KNeighborsClassifier 5);
   ("Random Forest", RandomForestClassifier 100 (Some 42))].

Lemma three_models_seeded : Forall (fun ne => seeded (snd ne)) three_models.
Proof. repeat (apply List.Forall_cons; [cbn; congruence || exact I|]). apply List.Forall_nil. Qed.

(** Cell 11 from any kernel state: its value and [results] are those of
    the loop on the three estimators, and [models] holds three
    references to objects of the heap. *)
Lemma cell11_outcome (st : kernel_state) :
  let st' := snd (cell11 X_train y_train X_test y_test st) in
  fst (cell11 X_train y_train X_test y_test st) = fst (loop_outcome three_models []) /\
  results st' = snd (loop_outcome three_models []) /\
  map fst (models st') = map fst three_models /\
  (forall name r, In (name, r) (models st') -> is_Some (heap st' !! r)) /\
  (fst (cell11 X_train y_train X_test y_test st) = Ok tt ->
   Forall2 (is_fitted st') (models st') three_models).
Proof.
  pose (r1 := fresh (dom (heap st))).
  pose (e1 := SVC {| svc_C := 10; svc_kernel := rbf; svc_gamma := gamma_scale;
                     svc_random_state := Some 42 |}).
  pose (h1 := <[r1 := {| params := e1; fitted := None |}]> (heap st)).
  pose (r2 := fresh (dom h1)).
  pose (h2 := <[r2 := {| params := KNeighborsClassifier 5; fitted := None |}]> h1).
  pose (r3 := fresh (dom h2)).
  pose (h3 := <[r3 := {| params := RandomForestClassifier 100 (Some 42);
                         fitted := None |}]> h2).
  pose (items := [("SVM", r1); ("KNN", r2); ("Random Forest", r3)]).
  pose (st4 := set_results []
                 (set_models items
                    (set_heap h3
                       (set_half_fitted (half_fitted st ∖ {[r1]} ∖ {[r2]} ∖ {[r3]}) st)))).
  assert (Ecell : cell11 X_train y_train X_test y_test st
                  = train_loop X_train y_train X_test y_test items st4)
    by reflexivity.
  rewrite Ecell. clear Ecell.
  assert (H12 : r1 <> r2).
  { intros E. apply (is_fresh (dom h1)). fold r2. rewrite <- E.
    apply elem_of_dom. unfold h1. rewrite lookup_insert_eq. eauto. }
  assert (H13 : r1 <> r3).
  { intros E. apply (is_fresh (dom h2)). fold r3. rewrite <- E.
    apply elem_of_dom. unfold h2, h1.
    rewrite lookup_insert_ne, lookup_insert_eq by (intros E'; congruence). eauto. }
  assert (H23 : r2 <> r3).
  { intros E. apply (is_fresh (dom h2)). fold r3. rewrite <- E.
    apply elem_of_dom. unfold h2. rewrite lookup_insert_eq. eauto. }
  assert (Hh : heap st4 = h3) by reflexivity.
  assert (Hrefs : Forall2 (refers st4) items three_models).
  { unfold items, three_models. repeat constructor; cbn [fst snd]; rewrite Hh.
    - exists None. unfold h3, h2, h1.
      rewrite !lookup_insert_ne, lookup_insert_eq by congruence. reflexivity.
    - exists None. unfold h3, h2.
      rewrite lookup_insert_ne, lookup_insert_eq by congruence. reflexivity.
    - exists None. unfold h3. rewrite lookup_insert_eq. reflexivity. }
  assert (Hnd : List.NoDup (map snd items)).
  { unfold items. cbn [map snd]. repeat constructor; cbn [In]; intuition congruence. }
  destruct (train_loop_outcome items three_models Hnd three_models_seeded st4 Hrefs)
    as (Hout & Hres & Hmod & _ & Halloc & Hfit).
  change (results st4) with (@nil (string * xreal)) in Hout, Hres.
  change (models st4) with items in Hmod.
  cbv zeta. rewrite Hmod. split; [exact Hout|]. split; [exact Hres|].
  split; [reflexivity|]. split; [|exact Hfit].
  intros name r Hin. apply Halloc. rewrite Hh.
  assert (Hr : r = r1 \/ r = r2 \/ r = r3).
  { unfold items in Hin. cbn [In] in Hin.
    destruct Hin as [E|[E|[E|Hf]]]; [| | |contradiction]; injection E; auto. }
  unfold h3, h2, h1. rewrite !lookup_insert_is_Some'.
  destruct Hr as [-> | [-> | ->]]; auto.
Qed.

(** The confusion matrix of a trained estimator, from the estimator. *)
Definition evaluate_outcome (es : list (string * estimator)) (name : string)
    : res (list (list nat)) :=
  match dict_get name es with
  | None => Raise (KeyError name)
  | Some e =>
      try! m <- fit_outcome e;
      try! y_pred <- predict_outcome m;
      Metrics.confusion_matrix y_test y_pred
  end.

Lemma evaluate_fitted (st : kernel_state) (es : list (string * estimator))
    (name : string) :
  Forall2 (is_fitted st) (models st) es ->
  fst (evaluate X_test y_test name st) = evaluate_outcome es name.
Proof.
  intros Hfit. unfold evaluate, evaluate_outcome, bind, get.
  induction Hfit as [|[n r] [n' e] items es' (Hn & m & Hm & Hr) _ IH].
  - reflexivity.
  - cbn [fst snd] in Hn, Hm, Hr. subst n'. cbn [dict_get].
    destruct (String.eqb name n); [|exact IH].
    rewrite (predict_fitted st r e m Hr), Hm. cbn [res_bind].
    destruct (predict_outcome m); reflexivity.
Qed.

(** C7: the accuracies, the value or exception of the training cell, and
    the confusion matrix of every trained model are the same from any two
    kernel states, whatever the objects of their heaps and the states of
    their global random generators: every estimator that draws random
    numbers is constructed with [random_state=42]. *)
Theorem training_is_reproducible (st1 st2 : kernel_state) :
  fst (cell11 X_train y_train X_test y_test st1)
    = fst (cell11 X_train y_train X_test y_test st2) /\
  results (snd (cell11 X_train y_train X_test y_test st1))
    = results (snd (cell11 X_train y_train X_test y_test st2)) /\
  (fst (cell11 X_train y_train X_test y_test st1) = Ok tt ->
   forall name,
     fst (evaluate X_test y_test name (snd (cell11 X_train y_train X_test y_test st1)))
     = fst (evaluate X_test y_test name (snd (cell11 X_train y_train X_test y_test st2)))).
Proof.
  destruct (cell11_outcome st1) as (Ho1 & Hr1 & _ & _ & Hf1).
  destruct (cell11_outcome st2) as (Ho2 & Hr2 & _ & _ & Hf2).
  split; [congruence|]. split; [congruence|].
  intros Hok name.
  rewrite (evaluate_fitted _ three_models name (Hf1 Hok)).
  rewrite (evaluate_fitted _ three_models name (Hf2 ltac:(congruence))).
  reflexivity.
Qed.

(** *** A fit that raises *)

Lemma train_loop_app (before rest : list (string * nat)) (st : kernel_state) :
  train_loop X_train y_train X_test y_test (before ++ rest) st
  = match train_loop X_train y_train X_test y_test before st with
    | (Ok _, st1) => train_loop X_train y_train X_test y_test rest st1
    | (Raise ex, st1) => (Raise ex, st1)
    end.
Proof.
  revert st. induction before as [|[name r] before IH]; intros st; [reflexivity|].
  cbn [app train_loop]. unfold bind.
  destruct (fit r X_train y_train st) as [[u|ex] s1]; [|reflexivity].
  destruct (predict r X_test s1) as [[y_pred|ex] s2]; [|reflexivity].
  unfold lift. destruct (Metrics.accuracy_score y_test y_pred) as [a|ex];
    [|reflexivity].
  unfold modify. apply IH.
Qed.

(** C8, as the code has it: when the fit of a variant raises, the loop
    raises that exception at once; the accuracies are those recorded for
    the variants before it, and the variants after it are neither fitted
    nor scored (the heap is the one the failing fit found). *)
Theorem fit_failure_aborts_training (before after : list (string * nat))
    (name : string) (r : nat) (st st1 : kernel_state) (ex : exn) :
  train_loop X_train y_train X_test y_test before st = (Ok tt, st1) ->
  fst (fit r X_train y_train st1) = Raise ex ->
  let run := train_loop X_train y_train X_test y_test
               (before ++ (name, r) :: after) st in
  fst run = Raise ex /\
  heap (snd run) = heap st1 /\
  models (snd run) = models st1 /\
  results (snd run) = results st1.
Proof.
  intros Hbefore Hfit. cbv zeta. rewrite train_loop_app, Hbefore.
  pose proof (fit_raise_state st1 r X_train y_train ex Hfit) as Hstate.
  assert (E : train_loop X_train y_train X_test y_test ((name, r) :: after) st1
              = (Raise ex, snd (fit r X_train y_train st1))).
  { cbn [train_loop]. unfold bind at 1.
    destruct (fit r X_train y_train st1) as [[u|e] s]; cbn [fst snd] in Hfit |- *;
      [discriminate|congruence]. }
  rewrite E. cbn [fst snd]. split; [reflexivity|exact Hstate].
Qed.

End Training.

Section Cells.
Context {F R : Type} `{Float64 F} `{RandomState R} `{Learner F R}.
Variables (X_train : list (list F)) (y_train : list nat).
Variables (X_test : list (list F)) (y_test : list nat).

(** C1, as the code has it: the grid has 3 x 4 x 2 = 24 combinations, and
    on the 3 folds the cross-validation of [GridSearchCV] returns
    24 x 3 = 72 scores, one per fit/score operation. *)
Theorem grid_has_24_combinations (st : kernel_state) (base : nat) (p : svc_params)
    (fm : option fitted_model) :
  heap st !! base = Some {| params := SVC p; fitted := fm |} ->
  length (ParameterGrid param_grid) = 24 /\
  match KFold.split 3 y_train with
  | Ok folds =>
      length folds = 3 /\
      exists out,
        fst (evaluate_candidates base X_train y_train (ParameterGrid param_grid)
               folds st) = Ok out /\
        length out = 24 /\ Forall (fun row => length row = 3) out /\
        length (concat out) = 72
  | Raise _ => True
  end.
Proof.
  intros Hbase. split; [reflexivity|].
  destruct (KFold.split 3 y_train) as [folds|e] eqn:Ek; [|exact I].
  pose proof (kfold_split_length 3 y_train folds Ek) as Hfl.
  split; [exact Hfl|].
  assert (Hu : untouched {[base]} st st).
  { apply untouched_refl. intros r Hr. apply elem_of_singleton in Hr. subst r.
    rewrite Hbase. eauto. }
  destruct (evaluate_candidates_ok {[base]} st st base X_train y_train
              (ParameterGrid param_grid) folds p fm Hu ltac:(set_solver) Hbase)
    as (out & Hout & Hol & Hrows & _).
  change (length (ParameterGrid param_grid)) with 24 in Hol. rewrite Hfl in Hrows.
  exists out. repeat split; try assumption.
  rewrite (length_concat_uniform 3 out Hrows), Hol. reflexivity.
Qed.

(** C5, as the code has it: the search raises what the fold splitter
    raises when it refuses the labels; otherwise it makes the 72 fits of
    the cross-validation, raises when every one of them failed, and
    else refits the winner on the whole training set, returning it when
    that fit returns and raising what it raises when it does not.  The
    winner is one combination of the grid, the first in the order of the
    grid whose key is the largest: the key of a combination is its mean
    score over the 3 folds as numpy computes it, the three scores added
    from left to right and the sum divided by 3 in the arithmetic of the
    data, or the smallest mean minus 1 when the mean is NaN.  Its
    regularization strength is 0.1, 1 or 10. *)
Theorem grid_search_winner {Laws : Float64Laws F} (st : kernel_state) :
  search_result X_train y_train SVC_default
    (fresh (dom (heap st))) (set_best_params None (snd (new (SVC SVC_default) st)))
    (fst (cell17 X_train y_train st)).
Proof.
  apply (cell17_outcome X_train y_train ∅ st). intros r Hr. set_solver.
Qed.

(** C10: the grid search is given a new, unfitted [SVC()] that is not
    an object of the heap the training cell left, and fits clones of it;
    it changes neither [models] nor [results] nor any object that was in
    that heap, the three fitted models among them. *)
Theorem grid_search_leaves_models_untouched (st : kernel_state) :
  let st1 := snd (cell11 X_train y_train X_test y_test st) in
  let st2 := snd (cell17 X_train y_train st1) in
  let svc := fresh (dom (heap st1)) in
  heap st1 !! svc = None /\
  heap (snd (new (SVC SVC_default) st1)) !! svc
    = Some {| params := SVC SVC_default; fitted := None |} /\
  models st2 = models st1 /\
  results st2 = results st1 /\
  (forall r o, heap st1 !! r = Some o -> heap st2 !! r = Some o) /\
  (forall name r, In (name, r) (models st1) -> is_Some (heap st1 !! r)).
Proof.
  cbv zeta.
  set (st1 := snd (cell11 X_train y_train X_test y_test st)).
  destruct (cell11_outcome X_train y_train X_test y_test st) as (_ & _ & _ & Hal & _).
  fold st1 in Hal.
  destruct (cell17_untouched X_train y_train (dom (heap st1)) st1)
    as (Hh & Hm & Hr).
  { intros r Hr. apply elem_of_dom. exact Hr. }
  split; [apply not_elem_of_dom, is_fresh|].
  split; [apply lookup_insert_eq|].
  split; [exact Hm|]. split; [exact Hr|]. split; [|exact Hal].
  intros r o Ho. destruct (Hh r) as [_ ->]; [|exact Ho].
  apply elem_of_dom. rewrite Ho. eauto.
Qed.

End Cells.

(** *** Concrete runs

    With exact arithmetic, the counter generator and the constant
    learner. *)

Definition fresh_kernel : kernel_state (F:=xreal) (R:=nat) :=
  {| heap := ∅; half_fitted := ∅; np_random := 0; models := []; results := [];
     best_params_ := None |}.

(** A kernel whose heap holds one [SVC()]. *)
Definition svc_kernel : kernel_state (F:=xreal) (R:=nat) :=
  {| heap := {[ 0 := {| params := SVC SVC_default; fitted := None |} ]};
     half_fitted := ∅; np_random := 0; models := []; results := [];
     best_params_ := None |}.

(** Twelve training samples of two classes, and of one class. *)
Definition twelve_rows : list (list xreal) :=
  map (fun z => [Some (inject_Z z)]) [0; 1; 2; 3; 4; 5; 6; 7; 8; 9; 10; 11]%Z.
Definition two_classes : list nat := [0; 0; 0; 0; 1; 1; 1; 0; 0; 1; 1; 1].
Definition one_class : list nat := repeat 0 12.

Lemma grid_has_24_combinations_witness :
  length (ParameterGrid param_grid) = 24 /\
  match KFold.split 3 two_classes with
  | Ok folds =>
      length folds = 3 /\
      exists out,
        fst (evaluate_candidates 0 twelve_rows two_classes (ParameterGrid param_grid)
               folds svc_kernel) = Ok out /\
        length out = 24 /\ Forall (fun row => length row = 3) out /\
        length (concat out) = 72
  | Raise _ => True
  end.
Proof.
  apply (grid_has_24_combinations twelve_rows two_classes svc_kernel 0 SVC_default None).
  reflexivity.
Defined.

(** C1 as stated fails: the grid does not have 12 combinations. *)
Lemma grid_has_not_12_combinations :
  length (ParameterGrid param_grid) <> 12 /\
  length (ParameterGrid param_grid) * 3 <> 36.
Proof. split; discriminate. Qed.

(** C5 as stated fails: on a training set of one class every fit of the
    cross-validation raises, and the search raises instead of returning a
    winner. *)
Lemma grid_search_raises_when_all_fits_fail :
  fst (cell17 twelve_rows one_class fresh_kernel)
    = Raise (ValueError "All the fits failed") /\
  best_params_ (snd (cell17 twelve_rows one_class fresh_kernel)) = None.
Proof. split; vm_compute; reflexivity. Qed.

(** A run in binary64: the twelve rows as floats, in a kernel of the
    float arithmetic. *)
Definition fresh_kernel_f64 : kernel_state (F:=float) (R:=nat) :=
  {| heap := ∅; half_fitted := ∅; np_random := 0; models := []; results := [];
     best_params_ := None |}.

Definition twelve_rows_f64 : list (list float) :=
  map (fun v => [v]) [0; 1; 2; 3; 4; 5; 6; 7; 8; 9; 10; 11]%float.

(** In binary64 the mean depends on the order of the folds: the scores
    0.1, 0.2 and 0.3 give the mean 0.20000000000000004, the scores 0.3,
    0.2 and 0.1 the mean 0.19999999999999998, and the search ranks the
    first above the second. *)
Definition ascending_scores : list float :=
  [0x1.999999999999ap-4; 0x1.999999999999ap-3; 0x1.3333333333333p-2]%float.

Lemma mean_depends_on_the_order_of_the_folds :
  f_lt (average (rev ascending_scores)) (average ascending_scores) = true /\
  rank_test_score [average (rev ascending_scores); average ascending_scores] = [2; 1].
Proof. split; vm_compute; reflexivity. Qed.

Lemma grid_search_winner_witness :
  search_result twelve_rows_f64 two_classes SVC_default
    (fresh (dom (heap fresh_kernel_f64)))
    (set_best_params None (snd (new (SVC SVC_default) fresh_kernel_f64)))
    (fst (cell17 twelve_rows_f64 two_classes fresh_kernel_f64)) /\
  fst (cell17 twelve_rows_f64 two_classes fresh_kernel_f64)
  = Ok {| p_C := 1 # 10; p_gamma := gamma_scale; p_kernel := rbf |}.
Proof.
  split.
  - apply (grid_search_winner (Laws := FloatFacts.Binary64Laws)
             twelve_rows_f64 two_classes fresh_kernel_f64).
  - vm_compute. reflexivity.
Defined.

(** C8 as stated fails: on a training set of one class the fit of the
    SVM raises, cell 11 raises with it, and no accuracy is recorded for
    the two other variants, which are left unfitted. *)
Lemma svm_failure_leaves_others_unevaluated :
  let run := cell11 twelve_rows one_class twelve_rows one_class fresh_kernel in
  fst run = Raise (ValueError "The number of classes has to be greater than one") /\
  results (snd run) = [] /\
  dict_get "KNN" (results (snd run)) = None /\
  dict_get "Random Forest" (results (snd run)) = None /\
  map (fun item => (fst item, fitted <$> heap (snd run) !! snd item)) (models (snd run))
    = [("SVM", Some None); ("KNN", Some None); ("Random Forest", Some None)].
Proof. cbv zeta. repeat split; vm_compute; reflexivity. Qed.

Lemma fit_failure_aborts_training_witness :
  let run := train_loop twelve_rows one_class twelve_rows one_class
               ([] ++ ("SVM", 0) :: [("KNN", 1); ("Random Forest", 2)]) svc_kernel in
  fst run = Raise (ValueError "The number of classes has to be greater than one") /\
  heap (snd run) = heap svc_kernel /\
  models (snd run) = models svc_kernel /\
  results (snd run) = results svc_kernel.
Proof.
  apply (fit_failure_aborts_training twelve_rows one_class twelve_rows one_class
           [] [("KNN", 1); ("Random Forest", 2)] "SVM" 0 svc_kernel svc_kernel).
  - reflexivity.
  - vm_compute. reflexivity.
Defined.

End NotebookFacts.

(** ** Accuracy and the confusion matrix *)

Module AccuracyFacts.
Import ModelSelection Metrics SplitFacts MetricsFacts.

(** The number of positions at which the two vectors agree. *)
Definition agreements (y_true y_pred : list nat) : nat :=
  length (List.filter (fun tp => fst tp =? snd tp) (combine y_true y_pred)).

(** [_check_targets] accepts vectors of one length that are not empty. *)
Lemma check_targets_pass (y_true y_pred : list nat) :
  length y_true = length y_pred -> 0 < length y_true ->
  negb (length y_true =? length y_pred) = false /\ (length y_true =? 0) = false.
Proof.
  intros Hlen Hpos. split.
  - rewrite Hlen, Nat.eqb_refl. reflexivity.
  - apply Nat.eqb_neq. lia.
Qed.

(** The sum of the diagonal. *)
Definition trace (cm : list (list nat)) : nat :=
  list_sum (map (fun i => nth i (nth i cm []) 0) (seq 0 (length cm))).

Lemma filter_length_bound {A} (f : A -> bool) (l : list A) :
  length (List.filter f l) <= length l.
Proof.
  induction l as [|x l IH]; [reflexivity|].
  cbn [List.filter]. destruct (f x); cbn [length]; lia.
Qed.

Lemma agreements_le (y_true y_pred : list nat) :
  agreements y_true y_pred <= length y_true.
Proof.
  unfold agreements.
  etransitivity; [apply filter_length_bound|]. rewrite length_combine. lia.
Qed.

Lemma agreements_cons (a b : nat) (y_true y_pred : list nat) :
  agreements (a :: y_true) (b :: y_pred)
  = (if a =? b then 1 else 0) + agreements y_true y_pred.
Proof.
  unfold agreements. cbn [combine List.filter fst snd].
  destruct (a =? b); reflexivity.
Qed.

Lemma agreements_all (y_true y_pred : list nat) :
  length y_true = length y_pred ->
  agreements y_true y_pred = length y_true <-> y_pred = y_true.
Proof.
  revert y_pred. induction y_true as [|a y_true IH]; intros [|b y_pred] Hlen;
    try discriminate.
  - split; reflexivity.
  - injection Hlen as Hlen. rewrite agreements_cons. cbn [length].
    pose proof (agreements_le y_true y_pred) as Hle.
    destruct (a =? b) eqn:E.
    + apply Nat.eqb_eq in E. subst b. split.
      * intros Hs. f_equal. apply IH; [exact Hlen|lia].
      * intros [= ->]. f_equal. apply IH; [exact Hlen|reflexivity].
    + apply Nat.eqb_neq in E. split; [lia|]. intros [= -> _]. congruence.
Qed.

Lemma inject_nat_pos (n : nat) : 0 < n -> (0 < inject_Z (Z.of_nat n))%Q.
Proof.
  intros Hn. change 0%Q with (inject_Z 0). rewrite <- Zlt_Qlt. lia.
Qed.

Lemma inject_nat_le (c n : nat) :
  c <= n -> (inject_Z (Z.of_nat c) <= inject_Z (Z.of_nat n))%Q.
Proof. intros Hc. rewrite <- Zle_Qle. lia. Qed.

Lemma xdiv_nat (c n : nat) :
  0 < n ->
  xdiv (Some (inject_Z (Z.of_nat c))) (Some (inject_Z (Z.of_nat n)))
  = Some (inject_Z (Z.of_nat c) / inject_Z (Z.of_nat n))%Q.
Proof.
  intros Hn. unfold xdiv.
  destruct (Qeq_bool (inject_Z (Z.of_nat n)) 0) eqn:E; [|reflexivity].
  apply Qeq_bool_iff in E. pose proof (inject_nat_pos n Hn) as Hp.
  rewrite E in Hp. exfalso. apply (Qlt_irrefl 0), Hp.
Qed.

(** A count out of [n]: a fraction between 0 and 1, and 1 for [n] out
    of [n] only. *)
Lemma fraction_bounds (c n : nat) :
  c <= n -> 0 < n ->
  let q := (inject_Z (Z.of_nat c) / inject_Z (Z.of_nat n))%Q in
  (0 <= q)%Q /\ (q <= 1)%Q /\ ((q == 1)%Q <-> c = n).
Proof.
  intros Hc Hn. cbv zeta.
  pose proof (inject_nat_pos n Hn) as Hp.
  pose proof (inject_nat_le c n Hc) as Hle.
  assert (H0 : (0 <= inject_Z (Z.of_nat c))%Q).
  { change 0%Q with (inject_Z 0). rewrite <- Zle_Qle. lia. }
  assert (Hnz : ~ (inject_Z (Z.of_nat n) == 0)%Q).
  { intros E. rewrite E in Hp. apply (Qlt_irrefl 0), Hp. }
  split; [|split].
  - apply Qle_shift_div_l; [exact Hp|]. rewrite Qmult_0_l. exact H0.
  - apply Qle_shift_div_r; [exact Hp|]. rewrite Qmult_1_l. exact Hle.
  - split.
    + intros Hq.
      assert (He : (inject_Z (Z.of_nat c) == inject_Z (Z.of_nat n))%Q).
      { rewrite <- (Qmult_div_r (inject_Z (Z.of_nat c)) (inject_Z (Z.of_nat n)) Hnz).
        rewrite Hq. ring. }
      apply Nat2Z.inj, inject_Z_injective, He.
    + intros ->. field. exact Hnz.
Qed.

(** X1: the accuracy of cell 11 is a fraction of the test samples: it lies
    between 0 and 1, and it is 1 exactly when every prediction is the
    true label. *)
Theorem accuracy_is_a_fraction (y_true y_pred : list nat) :
  length y_true = length y_pred -> 0 < length y_true ->
  exists q,
    accuracy_score y_true y_pred = Ok (Some q) /\
    (0 <= q)%Q /\ (q <= 1)%Q /\ ((q == 1)%Q <-> y_pred = y_true).
Proof.
  intros Hlen Hpos. unfold accuracy_score.
  destruct (check_targets_pass y_true y_pred Hlen Hpos) as [Ec1 Ec2]. rewrite Ec1, Ec2.
  fold (agreements y_true y_pred). rewrite xdiv_nat by exact Hpos.
  eexists. split; [reflexivity|].
  destruct (fraction_bounds (agreements y_true y_pred) (length y_true)
              (agreements_le y_true y_pred) Hpos) as (H0 & H1 & Hone).
  split; [exact H0|]. split; [exact H1|].
  rewrite Hone. apply agreements_all, Hlen.
Qed.

Lemma accuracy_is_a_fraction_witness :
  exists q,
    accuracy_score [0; 1; 1; 2] [0; 2; 1; 2] = Ok (Some q) /\
    (0 <= q)%Q /\ (q <= 1)%Q /\ ((q == 1)%Q <-> [0; 2; 1; 2] = [0; 1; 1; 2]).
Proof.
  apply (accuracy_is_a_fraction [0; 1; 1; 2] [0; 2; 1; 2]).
  - reflexivity.
  - cbn. lia.
Defined.


(** The matrix [confusion_matrix] returns, and the sum of its entries. *)
Lemma confusion_matrix_ok (y_true y_pred : list nat) :
  length y_true = length y_pred -> 0 < length y_true ->
  let labels := unique_labels y_true y_pred in
  let cm := map (fun t => map (fun p => count_pairs t p (combine y_true y_pred)) labels)
                labels in
  confusion_matrix y_true y_pred = Ok cm /\ total cm = length y_true.
Proof.
  intros Hlen Hpos. cbv zeta. unfold confusion_matrix.
  destruct (check_targets_pass y_true y_pred Hlen Hpos) as [Ec1 Ec2]. rewrite Ec1, Ec2.
  split; [reflexivity|].
  unfold total. rewrite map_map.
  transitivity (list_sum (map (fun t => length (List.filter (fun x => fst x =? t)
                                                  (combine y_true y_pred)))
                              (unique_labels y_true y_pred))).
  - f_equal. apply map_ext. intros t.
    rewrite row_sum, filter_fst_combine by exact Hlen. reflexivity.
  - rewrite sum_by_key.
    + rewrite length_combine. lia.
    + apply unique_NoDup.
    + intros x Hx. apply (combine_labels y_true y_pred x Hx).
Qed.

Lemma map_nth_labels {A} (g : nat -> A) (l : list nat) :
  map (fun i => g (nth i l 0)) (seq 0 (length l)) = map g l.
Proof.
  rewrite <- (map_map (fun i => nth i l 0) g), map_nth_seq. reflexivity.
Qed.

(** The diagonal counts the agreements. *)
Lemma diagonal_sum (y_true y_pred : list nat) :
  list_sum (map (fun t => count_pairs t t (combine y_true y_pred))
                (unique_labels y_true y_pred))
  = agreements y_true y_pred.
Proof.
  unfold agreements.
  rewrite <- (sum_by_key fst (unique_labels y_true y_pred)
                (List.filter (fun tp => fst tp =? snd tp) (combine y_true y_pred))).
  - f_equal. apply map_ext. intros t. unfold count_pairs.
    rewrite <- filter_filter. f_equal. apply filter_ext. intros [a b]. cbn [fst snd].
    destruct (a =? t) eqn:Ea, (b =? t) eqn:Eb, (a =? b) eqn:Eab; try reflexivity;
      repeat match goal with
             | H : (_ =? _) = true |- _ => apply Nat.eqb_eq in H
             | H : (_ =? _) = false |- _ => apply Nat.eqb_neq in H
             end; congruence.
  - apply unique_NoDup.
  - intros x Hx. apply filter_In in Hx as [Hx _].
    apply (combine_labels y_true y_pred x Hx).
Qed.

(** The entries of the matrix over the labels [labels]. *)
Lemma matrix_entry (labels : list nat) (pairs : list (nat * nat)) (i j : nat) :
  i < length labels -> j < length labels ->
  nth j (nth i (map (fun t => map (fun p => count_pairs t p pairs) labels) labels) []) 0
  = count_pairs (nth i labels 0) (nth j labels 0) pairs.
Proof.
  intros Hi Hj.
  rewrite (nth_indep _ [] ((fun t => map (fun p => count_pairs t p pairs) labels) 0))
    by (rewrite length_map; exact Hi).
  rewrite (map_nth (fun t => map (fun p => count_pairs t p pairs) labels)).
  rewrite (nth_indep _ 0 ((fun p => count_pairs (nth i labels 0) p pairs) 0))
    by (rewrite length_map; exact Hj).
  apply (map_nth (fun p => count_pairs (nth i labels 0) p pairs)).
Qed.

Lemma confusion_matrix_trace (y_true y_pred : list nat) :
  let labels := unique_labels y_true y_pred in
  trace (map (fun t => map (fun p => count_pairs t p (combine y_true y_pred)) labels)
             labels)
  = agreements y_true y_pred.
Proof.
  cbv zeta. set (labels := unique_labels y_true y_pred).
  set (pairs := combine y_true y_pred).
  unfold trace. rewrite length_map.
  rewrite <- diagonal_sum. fold labels. fold pairs.
  rewrite <- (map_nth_labels (fun t => count_pairs t t pairs) labels).
  f_equal. apply map_ext_in. intros i Hi. apply in_seq in Hi.
  apply matrix_entry; lia.
Qed.

(** X3: cells 11 and 13 agree: the accuracy is the sum of the diagonal of
    the confusion matrix over the sum of all its entries, and the
    diagonal counts the correct predictions. *)
Theorem accuracy_is_trace_over_total (y_true y_pred : list nat) :
  length y_true = length y_pred -> 0 < length y_true ->
  exists cm,
    confusion_matrix y_true y_pred = Ok cm /\
    trace cm = agreements y_true y_pred /\
    accuracy_score y_true y_pred
    = Ok (Some (inject_Z (Z.of_nat (trace cm)) / inject_Z (Z.of_nat (total cm)))%Q).
Proof.
  intros Hlen Hpos.
  destruct (confusion_matrix_ok y_true y_pred Hlen Hpos) as (Hcm & Htot).
  pose proof (confusion_matrix_trace y_true y_pred) as Htr.
  cbv zeta in Hcm, Htot, Htr.
  eexists. split; [exact Hcm|]. split; [exact Htr|].
  rewrite Htr, Htot. unfold accuracy_score.
  destruct (check_targets_pass y_true y_pred Hlen Hpos) as [Ec1 Ec2]. rewrite Ec1, Ec2.
  fold (agreements y_true y_pred). rewrite xdiv_nat by exact Hpos. reflexivity.
Qed.

Lemma accuracy_is_trace_over_total_witness :
  exists cm,
    confusion_matrix [0; 1; 1; 2] [0; 2; 1; 2] = Ok cm /\
    trace cm = agreements [0; 1; 1; 2] [0; 2; 1; 2] /\
    accuracy_score [0; 1; 1; 2] [0; 2; 1; 2]
    = Ok (Some (inject_Z (Z.of_nat (trace cm)) / inject_Z (Z.of_nat (total cm)))%Q).
Proof.
  apply (accuracy_is_trace_over_total [0; 1; 1; 2] [0; 2; 1; 2]).
  - reflexivity.
  - cbn. lia.
Defined.

End AccuracyFacts.

(** ** Reshaping a row into an image *)

Module NumpyFacts.
Import Numpy.

Lemma firstn_add {A} (n m : nat) (a : list A) :
  firstn (n + m) a = firstn n a ++ firstn m (skipn n a).
Proof.
  revert a. induction n as [|n IH]; intros a; [reflexivity|].
  destruct a as [|x a]; [cbn; rewrite firstn_nil; reflexivity|].
  cbn [Nat.add firstn skipn app]. rewrite IH. reflexivity.
Qed.

Lemma take_rows_length {A} (rows cols : nat) (a : list A) :
  length (take_rows rows cols a) = rows.
Proof.
  revert a. induction rows as [|rows IH]; intros a; [reflexivity|].
  cbn [take_rows length]. rewrite IH. reflexivity.
Qed.

Lemma take_rows_concat {A} (rows cols : nat) (a : list A) :
  concat (take_rows rows cols a) = firstn (rows * cols) a.
Proof.
  revert a. induction rows as [|rows IH]; intros a; [reflexivity|].
  cbn [take_rows concat Nat.mul]. rewrite IH, firstn_add. reflexivity.
Qed.

Lemma take_rows_width {A} (rows cols : nat) (a : list A) :
  rows * cols <= length a ->
  Forall (fun r => length r = cols) (take_rows rows cols a).
Proof.
  revert a. induction rows as [|rows IH]; intros a Hlen; [constructor|].
  cbn [take_rows]. cbn [Nat.mul] in Hlen. constructor.
  - rewrite length_firstn. lia.
  - apply IH. rewrite length_skipn. lia.
Qed.

Lemma take_rows_nth {A} (rows cols : nat) (a : list A) (i j : nat) (d : A) :
  i < rows -> j < cols ->
  nth j (nth i (take_rows rows cols a) []) d = nth (i * cols + j) a d.
Proof.
  revert a i. induction rows as [|rows IH]; intros a i Hi Hj; [lia|].
  cbn [take_rows]. destruct i as [|i].
  - cbn [nth Nat.mul Nat.add]. rewrite nth_firstn.
    apply Nat.ltb_lt in Hj. rewrite Hj. reflexivity.
  - cbn [nth]. rewrite IH by lia. rewrite nth_skipn. f_equal. cbn [Nat.mul]. lia.
Qed.

(** X4: [reshape] raises exactly when the sizes disagree; otherwise the
    image has [rows] rows of [cols] pixels, pixel (i, j) is entry
    [i * cols + j] of the row, and flattening the image gives the row
    back. *)
Theorem reshape_round_trip {A} (rows cols : nat) (a : list A) :
  (length a <> rows * cols ->
   reshape rows cols a = Raise (ValueError "cannot reshape array")) /\
  (length a = rows * cols ->
   exists img,
     reshape rows cols a = Ok img /\
     length img = rows /\
     Forall (fun r => length r = cols) img /\
     concat img = a /\
     forall i j d, i < rows -> j < cols ->
       nth j (nth i img []) d = nth (i * cols + j) a d).
Proof.
  unfold reshape. split.
  - intros Hne. apply Nat.eqb_neq in Hne. rewrite Hne. reflexivity.
  - intros Hlen. rewrite Hlen, Nat.eqb_refl. eexists. split; [reflexivity|].
    split; [apply take_rows_length|].
    split; [apply take_rows_width; lia|].
    split.
    + rewrite take_rows_concat, <- Hlen. apply firstn_all.
    + intros i j d Hi Hj. apply take_rows_nth; assumption.
Qed.

End NumpyFacts.

(** ** Cell 15 *)

Module ErrorAnalysisFacts.
Import Numpy Pyplot ErrorAnalysis AccuracyFacts.

(** The list grows strictly from left to right. *)
Definition increasing (l : list nat) : Prop :=
  forall i j, i < j -> j < length l -> nth i l 0 < nth j l 0.

Lemma filter_seq_increasing (f : nat -> bool) (a n : nat) :
  increasing (List.filter f (seq a n)) /\
  forall i, In i (List.filter f (seq a n)) -> a <= i.
Proof.
  revert a. induction n as [|n IH]; intros a.
  - split; [intros i j _ Hj; cbn in Hj; lia|intros i []].
  - destruct (IH (S a)) as (Hinc & Hge). cbn [seq List.filter].
    destruct (f a).
    + split.
      * intros i [|j] Hij Hj; [lia|]. cbn [length] in Hj. destruct i as [|i].
        -- cbn [nth]. apply (Hge (nth j (List.filter f (seq (S a) n)) 0)).
           apply nth_In. lia.
        -- cbn [nth]. apply Hinc; lia.
      * intros i [<-|Hi]; [lia|]. specialize (Hge i Hi). lia.
    + split; [exact Hinc|]. intros i Hi. specialize (Hge i Hi). lia.
Qed.

Lemma not_equal_same_length (a b : list nat) :
  length a = length b ->
  not_equal a b = Ok (map (fun xv => negb (fst xv =? snd xv)) (combine a b)).
Proof.
  intros Hlen. unfold not_equal.
  destruct a as [|x [|x' a]], b as [|v [|v' b]]; try discriminate; try reflexivity.
  rewrite Hlen, Nat.eqb_refl. reflexivity.
Qed.

Lemma combine_as_map (a b : list nat) :
  length a = length b ->
  combine a b = map (fun i => (nth i a 0, nth i b 0)) (seq 0 (length a)).
Proof.
  intros Hlen.
  rewrite <- (SplitFacts.map_nth_seq_gen (0, 0) (combine a b)) at 1.
  rewrite length_combine, <- Hlen, Nat.min_id.
  apply map_ext. intros i. apply combine_nth, Hlen.
Qed.

Lemma filter_map_length {A B} (f : B -> bool) (h : A -> B) (l : list A) :
  length (List.filter f (map h l)) = length (List.filter (fun x => f (h x)) l).
Proof.
  induction l as [|x l IH]; [reflexivity|].
  cbn [map List.filter]. destruct (f (h x)); cbn [length]; rewrite IH; reflexivity.
Qed.

Lemma filter_split_length {A} (f : A -> bool) (l : list A) :
  length (List.filter (fun x => negb (f x)) l) + length (List.filter f l) = length l.
Proof.
  induction l as [|x l IH]; [reflexivity|].
  cbn [List.filter]. destruct (f x); cbn [negb length]; lia.
Qed.

(** The positions at which the prediction is not the true label. *)
Definition disagreements (y_test y_pred : list nat) : list nat :=
  List.filter (fun i => negb (nth i y_test 0 =? nth i y_pred 0)) (seq 0 (length y_test)).

Lemma misclassified_idx_same_length (y_test y_pred : list nat) :
  length y_test = length y_pred ->
  misclassified_idx y_test y_pred = Ok (disagreements y_test y_pred).
Proof.
  intros Hlen. unfold misclassified_idx.
  rewrite not_equal_same_length by exact Hlen. cbn [res_bind]. f_equal.
  unfold where_true, disagreements.
  rewrite length_map, length_combine, <- Hlen, Nat.min_id.
  apply filter_ext. intros i.
  etransitivity;
    [exact (map_nth (fun xv : nat * nat => negb (fst xv =? snd xv))
                    (combine y_test y_pred) (0, 0) i)|].
  rewrite combine_nth by exact Hlen. reflexivity.
Qed.

Lemma disagreements_length (y_test y_pred : list nat) :
  length y_test = length y_pred ->
  length (disagreements y_test y_pred) + agreements y_test y_pred = length y_test.
Proof.
  intros Hlen. unfold agreements, disagreements.
  rewrite (combine_as_map y_test y_pred Hlen).
  rewrite (filter_map_length (fun tp => fst tp =? snd tp)). cbn [fst snd].
  rewrite (filter_split_length (fun i => nth i y_test 0 =? nth i y_pred 0)).
  apply length_seq.
Qed.

Lemma disagreements_In (y_test y_pred : list nat) (i : nat) :
  In i (disagreements y_test y_pred)
  <-> i < length y_test /\ nth i y_test 0 <> nth i y_pred 0.
Proof.
  unfold disagreements. rewrite filter_In, in_seq, negb_true_iff, Nat.eqb_neq.
  split; intros [Hi Hne]; (split; [lia|exact Hne]).
Qed.

(** X5: the indices cell 15 computes are the positions at which the
    prediction differs from the true label, in increasing order; with
    the correct predictions they make up the test set, so the accuracy
    of cell 11 is one minus their share. *)
Theorem misclassified_are_the_disagreements (y_test y_pred : list nat) :
  length y_test = length y_pred ->
  exists l,
    misclassified_idx y_test y_pred = Ok l /\
    (forall i, In i l <-> i < length y_test /\ nth i y_test 0 <> nth i y_pred 0) /\
    increasing l /\
    length l + agreements y_test y_pred = length y_test /\
    (0 < length y_test ->
     Metrics.accuracy_score y_test y_pred
     = Ok (Some (inject_Z (Z.of_nat (length y_test - length l))
                 / inject_Z (Z.of_nat (length y_test)))%Q)).
Proof.
  intros Hlen. exists (disagreements y_test y_pred).
  pose proof (disagreements_length y_test y_pred Hlen) as Hsum.
  split; [apply misclassified_idx_same_length, Hlen|].
  split; [apply disagreements_In|].
  split; [apply filter_seq_increasing|].
  split; [exact Hsum|].
  intros Hpos. unfold Metrics.accuracy_score.
  destruct (AccuracyFacts.check_targets_pass y_test y_pred Hlen Hpos) as [Ec1 Ec2].
  rewrite Ec1, Ec2.
  fold (agreements y_test y_pred). rewrite xdiv_nat by exact Hpos.
  replace (length y_test - length (disagreements y_test y_pred))
    with (agreements y_test y_pred) by lia.
  reflexivity.
Qed.

Lemma misclassified_are_the_disagreements_witness :
  exists l,
    misclassified_idx [0; 1; 1; 2] [0; 2; 1; 2] = Ok l /\
    (forall i, In i l <-> i < length [0; 1; 1; 2]
                          /\ nth i [0; 1; 1; 2] 0 <> nth i [0; 2; 1; 2] 0) /\
    increasing l /\
    length l + agreements [0; 1; 1; 2] [0; 2; 1; 2] = length [0; 1; 1; 2] /\
    (0 < length [0; 1; 1; 2] ->
     Metrics.accuracy_score [0; 1; 1; 2] [0; 2; 1; 2]
     = Ok (Some (inject_Z (Z.of_nat (length [0; 1; 1; 2] - length l))
                 / inject_Z (Z.of_nat (length [0; 1; 1; 2])))%Q)).
Proof.
  apply (misclassified_are_the_disagreements [0; 1; 1; 2] [0; 2; 1; 2]).
  reflexivity.
Defined.

Section Panels.
Context {F : Type}.
Variables (X_test : list (list F)) (y_test y_pred : list nat).

(** The panel on axes [j] that shows the test sample [idx]. *)
Definition panel_of (j idx : nat) : panel (F:=F) :=
  {| panel_axes := j;
     image := take_rows 8 8 (nth idx X_test []);
     pred_label := nth idx y_pred 0;
     true_label := nth idx y_test 0 |}.

Lemma getitem_ok {A} (a : list A) (idx : nat) (d : A) :
  idx < length a -> Numpy.getitem a idx = Ok (nth idx a d).
Proof.
  intros Hi. unfold Numpy.getitem. rewrite (nth_error_nth' a d Hi). reflexivity.
Qed.

(** The samples the loop can show: rows of 64 pixels of the test set. *)
Definition showable (idx : nat) : Prop :=
  idx < length X_test /\ idx < length y_test /\ idx < length y_pred /\
  length (nth idx X_test []) = 64.

Lemma show_misclassified_array (n : nat) (idxs : list nat) :
  (forall idx, In idx idxs -> showable idx) ->
  forall i, i + length idxs <= n ->
    show_misclassified (AxesArray n) X_test y_test y_pred i idxs
    = Return (map (fun ji => panel_of (fst ji) (snd ji))
                  (combine (seq i (length idxs)) idxs)).
Proof.
  induction idxs as [|idx rest IH]; intros Hall i Hn; [reflexivity|].
  cbn [show_misclassified length seq combine map fst snd].
  destruct (Hall idx (in_eq _ _)) as (HX & Ht & Hp & H64).
  rewrite (getitem_ok X_test idx [] HX). cbn [of_res py_bind].
  unfold reshape. rewrite H64. cbn [Nat.mul Nat.add Nat.eqb of_res py_bind].
  unfold Pyplot.getitem. cbn [length] in Hn.
  assert (Hi : (i <? n) = true) by (apply Nat.ltb_lt; lia).
  rewrite Hi. cbn [py_bind].
  rewrite (getitem_ok y_pred idx 0 Hp), (getitem_ok y_test idx 0 Ht).
  cbn [of_res py_bind].
  rewrite IH by (try (intros z Hz; apply Hall; right; exact Hz); lia).
  reflexivity.
Qed.

Hypothesis Hpred : length y_test = length y_pred.
Hypothesis Hrows : length X_test = length y_test.
Hypothesis Hpixels : Forall (fun r => length r = 64) X_test.

Lemma disagreements_showable (idx : nat) :
  In idx (disagreements y_test y_pred) -> showable idx.
Proof.
  intros Hin. apply disagreements_In in Hin as [Hi _]. unfold showable.
  repeat split; try lia.
  rewrite List.Forall_forall in Hpixels. apply Hpixels, nth_In. lia.
Qed.

(** X6: cell 15 needs two misclassified samples.  With none, [subplots] is
    asked for 0 columns and raises a [ValueError]; with exactly one it
    returns a single [Axes] object, and indexing it raises a
    [TypeError]. *)
Theorem cell15_raises_below_two_misclassified :
  let k := length y_test - agreements y_test y_pred in
  (k = 0 ->
   cell15 X_test y_test y_pred
   = Except (Builtin (ValueError "Number of columns must be a positive integer, not 0"))) /\
  (k = 1 ->
   cell15 X_test y_test y_pred
   = Except (TypeError "'Axes' object is not subscriptable")).
Proof.
  cbv zeta. pose proof (disagreements_length y_test y_pred Hpred) as Hsum.
  unfold cell15. rewrite (misclassified_idx_same_length y_test y_pred Hpred).
  cbn [of_res py_bind].
  pose proof disagreements_showable as Hshow.
  destruct (disagreements y_test y_pred) as [|idx [|idx' l]];
    cbn [length] in Hsum; split; intros Hk; try lia.
  - reflexivity.
  - cbn [length Nat.min subplots Nat.eqb of_res py_bind firstn show_misclassified].
    destruct (Hshow idx (in_eq _ _)) as (HX & _ & _ & H64).
    rewrite (getitem_ok X_test idx [] HX). cbn [of_res py_bind].
    unfold reshape. rewrite H64. reflexivity.
Qed.

(** X7: with at least two misclassified samples cell 15 shows the first
    five of them (all of them when there are fewer), in the order of
    their positions: panel [j] holds the 8x8 image of the [j]-th
    misclassified test row, and its title carries a predicted label
    that differs from the true one. *)
Theorem cell15_shows_first_five_misclassified :
  2 <= length y_test - agreements y_test y_pred ->
  exists l panels,
    misclassified_idx y_test y_pred = Ok l /\
    cell15 X_test y_test y_pred = Return panels /\
    length panels = Nat.min 5 (length l) /\
    forall j p, nth_error panels j = Some p ->
      exists idx,
        nth_error l j = Some idx /\
        panel_axes p = j /\
        length (image p) = 8 /\
        concat (image p) = nth idx X_test [] /\
        pred_label p = nth idx y_pred 0 /\
        true_label p = nth idx y_test 0 /\
        pred_label p <> true_label p.
Proof.
  intros Hk. pose proof (disagreements_length y_test y_pred Hpred) as Hsum.
  set (l := disagreements y_test y_pred) in *.
  assert (Hl : 2 <= length l) by lia.
  exists l. eexists.
  split; [apply misclassified_idx_same_length, Hpred|].
  unfold cell15. rewrite (misclassified_idx_same_length y_test y_pred Hpred).
  fold l. cbn [of_res py_bind].
  assert (Hsub : subplots (Nat.min 5 (length l)) = Ok (AxesArray (Nat.min 5 (length l)))).
  { unfold subplots.
    destruct (Nat.min 5 (length l) =? 0) eqn:E0; [apply Nat.eqb_eq in E0; lia|].
    destruct (Nat.min 5 (length l) =? 1) eqn:E1; [apply Nat.eqb_eq in E1; lia|].
    reflexivity. }
  rewrite Hsub. cbn [of_res py_bind].
  assert (Hfl : length (firstn 5 l) = Nat.min 5 (length l)) by apply length_firstn.
  rewrite show_misclassified_array.
  2:{ intros idx Hin. apply disagreements_showable. fold l.
      rewrite <- (firstn_skipn 5 l). apply in_or_app. left. exact Hin. }
  2:{ rewrite Hfl. lia. }
  split; [reflexivity|].
  split; [rewrite length_map, length_combine, length_seq, Hfl; apply Nat.min_id|].
  intros j p Hp.
  rewrite nth_error_map in Hp.
  destruct (nth_error (combine (seq 0 (length (firstn 5 l))) (firstn 5 l)) j)
    as [[j' idx]|] eqn:Hji; [|discriminate].
  cbn [option_map] in Hp. injection Hp as <-.
  pose proof (nth_error_Some (combine (seq 0 (length (firstn 5 l))) (firstn 5 l)) j) as Hjl.
  rewrite Hji in Hjl. rewrite length_combine, length_seq, Nat.min_id in Hjl.
  assert (Hj : j < length (firstn 5 l)) by (apply Hjl; discriminate).
  assert (Hnth := nth_error_nth _ _ (0, 0) Hji).
  rewrite combine_nth in Hnth by apply length_seq.
  rewrite seq_nth in Hnth by exact Hj. injection Hnth as Hj' Hidx. subst j'.
  assert (Hin : In idx l).
  { rewrite <- (firstn_skipn 5 l). apply in_or_app. left. rewrite <- Hidx.
    apply nth_In, Hj. }
  destruct (disagreements_showable idx Hin) as (HX & _ & _ & H64).
  apply disagreements_In in Hin as [_ Hne].
  exists idx. cbn [fst snd panel_of panel_axes image pred_label true_label].
  split.
  { rewrite <- Hidx.
    rewrite <- (firstn_skipn 5 l) at 1. rewrite nth_error_app1 by exact Hj.
    apply nth_error_nth', Hj. }
  split; [reflexivity|]. split; [apply NumpyFacts.take_rows_length|].
  split.
  { rewrite NumpyFacts.take_rows_concat. apply firstn_all2. rewrite H64. cbn. lia. }
  split; [reflexivity|]. split; [reflexivity|]. congruence.
Qed.

End Panels.

(** Test sets of 64-pixel rows for concrete runs. *)
Definition blank_rows (n : nat) : list (list nat) := repeat (repeat 0 64) n.

Lemma cell15_raises_below_two_misclassified_witness :
  let k := length [0; 1; 1; 2] - agreements [0; 1; 1; 2] [0; 2; 1; 2] in
  (k = 0 ->
   cell15 (blank_rows 4) [0; 1; 1; 2] [0; 2; 1; 2]
   = Except (Builtin (ValueError "Number of columns must be a positive integer, not 0"))) /\
  (k = 1 ->
   cell15 (blank_rows 4) [0; 1; 1; 2] [0; 2; 1; 2]
   = Except (TypeError "'Axes' object is not subscriptable")).
Proof.
  apply (cell15_raises_below_two_misclassified (blank_rows 4) [0; 1; 1; 2] [0; 2; 1; 2]).
  - reflexivity.
  - reflexivity.
  - repeat constructor.
Defined.

Lemma cell15_shows_first_five_misclassified_witness :
  exists l panels,
    misclassified_idx [0; 1; 1; 2] [1; 2; 1; 2] = Ok l /\
    cell15 (blank_rows 4) [0; 1; 1; 2] [1; 2; 1; 2] = Return panels /\
    length panels = Nat.min 5 (length l) /\
    forall j p, nth_error panels j = Some p ->
      exists idx,
        nth_error l j = Some idx /\
        panel_axes p = j /\
        length (image p) = 8 /\
        concat (image p) = nth idx (blank_rows 4) [] /\
        pred_label p = nth idx [1; 2; 1; 2] 0 /\
        true_label p = nth idx [0; 1; 1; 2] 0 /\
        pred_label p <> true_label p.
Proof.
  apply (cell15_shows_first_five_misclassified (blank_rows 4) [0; 1; 1; 2] [1; 2; 1; 2]).
  - reflexivity.
  - reflexivity.
  - repeat constructor.
  - cbn. lia.
Defined.

End ErrorAnalysisFacts.

(** ** Cell 7 *)

Module ExplorationFacts.
Import Numpy Exploration Notebook.

Section Samples.
Context {F R : Type} `{Float64 F} `{RandomState R} `{Learner F R}.
Context {Laws : RandomStateLaws R}.
Variables (X : list (list F)) (y : list nat).

(** The panel on axes [j] that shows the sample [idx]. *)
Definition sample_panel (j idx : nat) : panel (F:=F) :=
  {| panel_axes := j;
     image := take_rows 8 8 (nth idx X []);
     label := nth idx y 0 |}.

Lemma show_samples_array (n : nat) (idxs : list nat) :
  (forall idx, In idx idxs ->
     idx < length X /\ idx < length y /\ length (nth idx X []) = 64) ->
  forall i, i + length idxs <= n ->
    show_samples (Pyplot.AxesArray n) X y i idxs
    = Return (map (fun ji => sample_panel (fst ji) (snd ji))
                  (combine (seq i (length idxs)) idxs)).
Proof.
  induction idxs as [|idx rest IH]; intros Hall i Hn; [reflexivity|].
  cbn [show_samples length seq combine map fst snd].
  destruct (Hall idx (in_eq _ _)) as (HX & Hy & H64).
  rewrite (ErrorAnalysisFacts.getitem_ok X idx [] HX). cbn [of_res py_bind].
  unfold reshape. rewrite H64. cbn [Nat.mul Nat.add Nat.eqb of_res py_bind].
  unfold Pyplot.getitem. cbn [length] in Hn.
  assert (Hi : (i <? n) = true) by (apply Nat.ltb_lt; lia).
  rewrite Hi. cbn [py_bind].
  rewrite (ErrorAnalysisFacts.getitem_ok y idx 0 Hy). cbn [of_res py_bind].
  rewrite IH by (try (intros z Hz; apply Hall; right; exact Hz); lia).
  reflexivity.
Qed.

(** X8: cell 7 raises a [ValueError] on a dataset of fewer than five rows.
    On a larger dataset of 64-pixel rows it shows five different rows,
    each with its own label, one per axes; the draw advances the global
    generator of numpy and changes nothing else of the kernel. *)
Theorem sample_digits_shows_five_rows (st : kernel_state) :
  (length X < 5 ->
   exists msg, sample_digits X y st = (Except (Builtin (ValueError msg)), st)) /\
  (5 <= length X -> length y = length X -> Forall (fun r => length r = 64) X ->
   exists inds st',
     sample_digits X y st
     = (Return (map (fun ji => sample_panel (fst ji) (snd ji)) (combine (seq 0 5) inds)),
        st') /\
     length inds = 5 /\ List.NoDup inds /\ (forall i, In i inds -> i < length X) /\
     heap st' = heap st /\ models st' = models st /\ results st' = results st /\
     best_params_ st' = best_params_ st).
Proof.
  unfold sample_digits, random_choice. cbn [Pyplot.subplots Nat.eqb]. split.
  - intros Hlt. destruct (length X =? 0) eqn:E0; [eauto|].
    assert (E5 : (length X <? 5) = true) by (apply Nat.ltb_lt; exact Hlt).
    rewrite E5. eauto.
  - intros Hge Hy Hpix.
    destruct (length X =? 0) eqn:E0; [apply Nat.eqb_eq in E0; lia|].
    assert (E5 : (length X <? 5) = false) by (apply Nat.ltb_ge; exact Hge).
    rewrite E5.
    destruct (rs_choice_sub (np_random st) (seq 0 (length X)) 5) as (Hl & Hnd & Hin).
    { rewrite length_seq. exact Hge. }
    { apply seq_NoDup. }
    destruct (rs_choice (np_random st) (seq 0 (length X)) 5) as [inds g].
    cbn [fst] in Hl, Hnd, Hin.
    assert (Hrange : forall i, In i inds -> i < length X).
    { intros i Hi. specialize (Hin i Hi). apply in_seq in Hin. lia. }
    exists inds, (set_np_random g st).
    rewrite show_samples_array.
    + rewrite Hl. repeat split; try assumption; reflexivity.
    + intros idx Hidx. specialize (Hrange idx Hidx). repeat split; try lia.
      rewrite List.Forall_forall in Hpix. apply Hpix, nth_In, Hrange.
    + rewrite Hl. lia.
Qed.

End Samples.

(** Six blank images, labelled 0 to 5. *)
Definition six_rows : list (list xreal) := repeat (repeat (Some 0%Q) 64) 6.

Lemma sample_digits_shows_five_rows_witness :
  (length six_rows < 5 ->
   exists msg,
     sample_digits six_rows (seq 0 6) NotebookFacts.fresh_kernel
     = (Except (Builtin (ValueError msg)), NotebookFacts.fresh_kernel)) /\
  (5 <= length six_rows -> length (seq 0 6) = length six_rows ->
   Forall (fun r => length r = 64) six_rows ->
   exists inds st',
     sample_digits six_rows (seq 0 6) NotebookFacts.fresh_kernel
     = (Return (map (fun ji => sample_panel six_rows (seq 0 6) (fst ji) (snd ji))
                    (combine (seq 0 5) inds)),
        st') /\
     length inds = 5 /\ List.NoDup inds /\ (forall i, In i inds -> i < length six_rows) /\
     heap st' = heap NotebookFacts.fresh_kernel /\
     models st' = models NotebookFacts.fresh_kernel /\
     results st' = results NotebookFacts.fresh_kernel /\
     best_params_ st' = best_params_ NotebookFacts.fresh_kernel).
Proof.
  apply (sample_digits_shows_five_rows (Laws:=SplitFacts.CounterRandomLaws)
           six_rows (seq 0 6) NotebookFacts.fresh_kernel).
Defined.

(** *** Missing values *)

Import MinMaxScaler ScalerFacts.

Lemma list_sum_eq_0 (l : list nat) : list_sum l = 0 <-> Forall (fun n => n = 0) l.
Proof.
  induction l as [|a l IH].
  - split; [constructor|reflexivity].
  - rewrite SplitFacts.list_sum_cons. split.
    + intros Hs. constructor; [lia|]. apply IH. lia.
    + intros Hall. inversion Hall; subst. apply IH in H2. lia.
Qed.

Lemma filter_length_0 {A} (f : A -> bool) (l : list A) :
  length (List.filter f l) = 0 <-> forall x, In x l -> f x = false.
Proof.
  induction l as [|a l IH].
  - split; [intros _ x []|reflexivity].
  - cbn [List.filter]. destruct (f a) eqn:E.
    + split; [discriminate|]. intros Hall. specialize (Hall a (in_eq _ _)). congruence.
    + rewrite IH. split.
      * intros Hall x [<-|Hx]; [exact E|apply Hall, Hx].
      * intros Hall x Hx. apply Hall. right. exact Hx.
Qed.

(** X9: the count printed by cell 7 is 0 exactly when no value of the
    dataset is missing. *)
Theorem isnull_sum_zero_iff_no_missing (X : list (list xreal)) :
  check_array X = Ok X -> isnull_sum X = 0 <-> no_missing X.
Proof.
  intros Hc. destruct (check_array_ok X X Hc) as (_ & _ & _ & Hlen).
  rewrite List.Forall_forall in Hlen.
  unfold isnull_sum, no_missing. rewrite list_sum_eq_0, List.Forall_forall. split.
  - intros Hall. apply List.Forall_forall. intros r Hr.
    apply List.Forall_forall. intros v Hv.
    destruct (In_nth_lt r v f_nan Hv) as (c & Hcl & <-).
    rewrite (Hlen r Hr) in Hcl.
    assert (Hz : length (List.filter f_isnan (column c X)) = 0).
    { apply Hall. apply in_map_iff. exists c. split; [reflexivity|].
      apply in_seq. lia. }
    rewrite filter_length_0 in Hz.
    specialize (Hz (nth c r f_nan)).
    destruct (nth c r f_nan) as [q|] eqn:E; [exists q; reflexivity|].
    assert (Hin : In None (column c X)).
    { unfold column. apply in_map_iff. exists r. split; [exact E|exact Hr]. }
    specialize (Hz Hin). discriminate.
  - intros Hnm n Hn. apply in_map_iff in Hn as (c & <- & Hcs). apply in_seq in Hcs.
    apply filter_length_0. intros v Hv.
    assert (Hp : Forall present (column c X)).
    { apply column_present; [exact Hnm|apply List.Forall_forall; exact Hlen|lia]. }
    rewrite List.Forall_forall in Hp. destruct (Hp v Hv) as (q & ->). reflexivity.
Qed.

Lemma isnull_sum_zero_iff_no_missing_witness :
  isnull_sum six_rows = 0 <-> no_missing six_rows.
Proof.
  apply (isnull_sum_zero_iff_no_missing six_rows). reflexivity.
Defined.

Lemma fold_fmin_is_some (l : list xreal) (a : Q) :
  exists m, fold_left fmin l (Some a) = Some m.
Proof.
  revert a. induction l as [|v l IH]; intros a; [eauto|].
  cbn [fold_left]. destruct v as [b|].
  - destruct (fmin_some a b) as (m & -> & _). apply IH.
  - change (fmin (F:=xreal) (Some a) None) with (Some a). apply IH.
Qed.

Lemma fold_fmax_is_some (l : list xreal) (a : Q) :
  exists m, fold_left fmax l (Some a) = Some m.
Proof.
  revert a. induction l as [|v l IH]; intros a; [eauto|].
  cbn [fold_left]. destruct v as [b|].
  - destruct (fmax_some a b) as (m & -> & _). apply IH.
  - change (fmax (F:=xreal) (Some a) None) with (Some a). apply IH.
Qed.

(** A column with a value that is present has a minimum and a maximum. *)
Lemma nan_extremes_some (l : list xreal) (x : Q) :
  In (Some x) l -> exists a b, nanmin l = Some a /\ nanmax l = Some b.
Proof.
  unfold nanmin, nanmax. induction l as [|v l IH]; intros Hin; [contradiction|].
  cbn [fold_left]. destruct v as [b|].
  - change (fmin (F:=xreal) f_nan (Some b)) with (Some b).
    change (fmax (F:=xreal) f_nan (Some b)) with (Some b).
    destruct (fold_fmin_is_some l b) as (m & ->).
    destruct (fold_fmax_is_some l b) as (m' & ->). eauto.
  - change (fmin (F:=xreal) f_nan None) with (f_nan (F:=xreal)).
    change (fmax (F:=xreal) f_nan None) with (f_nan (F:=xreal)).
    apply IH. destruct Hin as [Hin|Hin]; [discriminate|exact Hin].
Qed.

Lemma column_scale_some (a b : Q) : exists k, column_scale (Some a) (Some b) = Some k.
Proof.
  unfold column_scale.
  cbn [f_add f_mul f_sub f_div f_lt f_tiny f_one f_zero Exact xlift2 xlt].
  destruct (Qltb (b - a) (10 # 4503599627370496)) eqn:E.
  - cbn [xdiv]. change (Qeq_bool 1 0) with false. eauto.
  - apply Qltb_ge in E. cbn [xdiv].
    destruct (Qeq_bool (b - a) 0) eqn:Ez; [|eauto].
    apply Qeq_bool_iff in Ez. destruct tiny_small as [Ht _]. lra.
Qed.

Lemma filter_map_ext_length {A B} (f : B -> bool) (g h : A -> B) (l : list A) :
  (forall x, In x l -> f (g x) = f (h x)) ->
  length (List.filter f (map g l)) = length (List.filter f (map h l)).
Proof.
  induction l as [|x l IH]; intros Hx; [reflexivity|].
  cbn [map List.filter]. rewrite (Hx x (in_eq _ _)).
  assert (IH' := IH (fun z Hz => Hx z (in_cons _ _ _ Hz))).
  destruct (f (h x)); cbn [length]; rewrite IH'; reflexivity.
Qed.

(** X10: scaling neither fills a missing value nor loses a value: the scaled
    matrix of cell 9 has as many missing values as the dataset. *)
Theorem scaling_keeps_missing_count {R : Type} `{RandomState R}
    (X : list (list xreal)) (y : list nat) (p : Preprocessor.preprocessed (F:=xreal)) :
  Preprocessor.preprocess (R:=R) X y = Ok p ->
  isnull_sum (Preprocessor.X_scaled p) = isnull_sum X.
Proof.
  intros Hp.
  destruct (PreprocessorFacts.preprocess_ok (R:=R) X y p Hp) as (Hc & Hfit & -> & _).
  destruct (check_array_ok X X Hc) as (_ & Hne & Hd & Hlen).
  destruct (fit_ok X Hc) as (s & Hfit' & Hsl & Hcols).
  rewrite Hfit in Hfit'. injection Hfit' as <-.
  set (s := Preprocessor.scaler p) in *.
  unfold isnull_sum.
  assert (Hnf : n_features (map (transform_row s) X) = n_features X).
  { destruct X as [|r0 X0]; [congruence|]. cbn [map n_features].
    rewrite transform_row_length. exact Hsl. }
  rewrite Hnf. f_equal. apply map_ext_in. intros c Hcs. apply in_seq in Hcs.
  assert (Hc' : c < n_features X) by lia.
  destruct (Hcols c Hc') as (_ & _ & Hscale & Hmn).
  unfold column. rewrite map_map.
  apply (filter_map_ext_length f_isnan
           (fun r => nth c (transform_row s r) f_nan) (fun r => nth c r f_nan)).
  intros r Hr. rewrite transform_row_nth by (rewrite Hsl; exact Hc').
  destruct (nth c r f_nan) as [x|] eqn:Ex; [|reflexivity].
  assert (Hin : In (Some x) (column c X)).
  { unfold column. apply in_map_iff. exists r. split; [exact Ex|exact Hr]. }
  destruct (nan_extremes_some _ x Hin) as (a & b & Ea & Eb).
  rewrite Hscale, Hmn, Ea, Eb.
  destruct (column_scale_some a b) as (k & ->). reflexivity.
Qed.

Lemma scaling_keeps_missing_count_witness :
  exists p,
    Preprocessor.preprocess (R:=nat) PreprocessorFacts.pixels_missing SplitFacts.ten_labels
      = Ok p /\
    isnull_sum (Preprocessor.X_scaled p) = isnull_sum PreprocessorFacts.pixels_missing.
Proof.
  eexists. split; [vm_compute; reflexivity|].
  apply (scaling_keeps_missing_count (R:=nat) PreprocessorFacts.pixels_missing
           SplitFacts.ten_labels).
  vm_compute. reflexivity.
Defined.

End ExplorationFacts.

(** ** The classification report *)

Module ReportFacts.
Import Metrics Report AccuracyFacts.

(** A rate: a rational between 0 and 1. *)
Definition rate (q : Q) : Prop := (0 <= q)%Q /\ (q <= 1)%Q.

Lemma count_occ_as_filter (l : list nat) (v : nat) :
  count_occ Nat.eq_dec l v = length (List.filter (fun x => x =? v) l).
Proof.
  induction l as [|x l IH]; [reflexivity|].
  cbn [count_occ List.filter]. destruct (Nat.eq_dec x v) as [->|Hne].
  - rewrite Nat.eqb_refl. cbn [length]. rewrite IH. reflexivity.
  - apply Nat.eqb_neq in Hne. rewrite Hne. exact IH.
Qed.

Lemma filter_snd_combine (p : nat) (y_true y_pred : list nat) :
  length y_true = length y_pred ->
  length (List.filter (fun tp => snd tp =? p) (combine y_true y_pred))
  = count_occ Nat.eq_dec y_pred p.
Proof.
  revert y_pred. induction y_true as [|a y_true IH]; intros [|b y_pred] Hlen;
    try discriminate; [reflexivity|].
  cbn [combine List.filter count_occ snd]. injection Hlen as Hlen.
  destruct (Nat.eq_dec b p) as [->|Hne].
  - rewrite Nat.eqb_refl. cbn [length]. rewrite IH by exact Hlen. reflexivity.
  - apply Nat.eqb_neq in Hne. rewrite Hne. apply IH, Hlen.
Qed.

(** The true positives of a label are among its predictions and among
    its samples. *)
Lemma tp_sum_le (y_true y_pred : list nat) (l : nat) :
  length y_true = length y_pred ->
  tp_sum y_true y_pred l <= pred_sum y_pred l /\
  tp_sum y_true y_pred l <= true_sum y_true l.
Proof.
  intros Hlen. unfold tp_sum, pred_sum, true_sum, count_pairs.
  rewrite <- (filter_snd_combine l y_true y_pred Hlen).
  rewrite <- (MetricsFacts.filter_fst_combine l y_true y_pred Hlen).
  split; apply NotebookFacts.filter_length_le; intros x _ Hx;
    apply andb_true_iff in Hx; tauto.
Qed.

Lemma sum_over_labels (y labels : list nat) :
  List.NoDup labels -> (forall v, In v y -> In v labels) ->
  list_sum (map (count_occ Nat.eq_dec y) labels) = length y.
Proof.
  intros Hnd Hin. rewrite <- (MetricsFacts.sum_by_key (fun v => v) labels y Hnd Hin).
  f_equal. apply map_ext. intros v. apply count_occ_as_filter.
Qed.

Lemma labels_cover (y_true y_pred : list nat) :
  (forall v, In v y_true -> In v (unique_labels y_true y_pred)) /\
  (forall v, In v y_pred -> In v (unique_labels y_true y_pred)).
Proof.
  unfold unique_labels. split; intros v Hv; apply SplitFacts.unique_In, in_or_app; auto.
Qed.

Lemma labels_not_empty (y_true y_pred : list nat) :
  0 < length y_true -> (length (unique_labels y_true y_pred) =? 0) = false.
Proof.
  intros Hpos. apply Nat.eqb_neq. destruct y_true as [|a y_true]; [cbn in Hpos; lia|].
  pose proof (proj1 (labels_cover (a :: y_true) y_pred) a (in_eq _ _)) as Hin.
  destruct (unique_labels (a :: y_true) y_pred); [contradiction|cbn; lia].
Qed.

Lemma prf_divide_pos (a b : nat) :
  0 < b -> prf_divide a b = (inject_Z (Z.of_nat a) / inject_Z (Z.of_nat b))%Q.
Proof.
  intros Hb. unfold prf_divide. destruct (b =? 0) eqn:E; [|reflexivity].
  apply Nat.eqb_eq in E. lia.
Qed.

Lemma prf_divide_0_l (b : nat) : (prf_divide 0 b == 0)%Q.
Proof.
  unfold prf_divide. destruct (b =? 0); [reflexivity|].
  unfold Qdiv. apply Qmult_0_l.
Qed.

Lemma prf_divide_rate (a b : nat) : a <= b -> rate (prf_divide a b).
Proof.
  intros Hab. destruct b as [|b].
  - unfold prf_divide. cbn [Nat.eqb]. split; [apply Qle_refl|discriminate].
  - rewrite prf_divide_pos by lia.
    destruct (fraction_bounds a (S b) Hab ltac:(lia)) as (H0 & H1 & _).
    split; assumption.
Qed.

Lemma inject_nat_add (a b : nat) :
  (inject_Z (Z.of_nat (a + b)) == inject_Z (Z.of_nat a) + inject_Z (Z.of_nat b))%Q.
Proof. rewrite Nat2Z.inj_add, inject_Z_plus. reflexivity. Qed.

Lemma harmonic_mean (a b c : Q) :
  (0 < b)%Q -> (0 < c)%Q ->
  ((a + a) / (c + b) * (a / b + a / c) == 2 * (a / b) * (a / c))%Q.
Proof. intros Hb Hc. field. repeat split; lra. Qed.

(** The F1 of a line is the harmonic mean of its precision and recall. *)
Lemma prf_harmonic (tp p t : nat) :
  tp <= p -> tp <= t ->
  (f1_score (prf tp p t) * (precision (prf tp p t) + recall (prf tp p t))
   == 2 * precision (prf tp p t) * recall (prf tp p t))%Q.
Proof.
  intros Hp Ht. cbn [prf precision recall f1_score].
  replace ((1 + 1) * tp) with (tp + tp) by lia.
  replace (1 * t + p) with (t + p) by lia.
  destruct tp as [|tp].
  - cbn [Nat.add]. rewrite !prf_divide_0_l. ring.
  - rewrite !prf_divide_pos by lia. rewrite !inject_nat_add.
    apply harmonic_mean; apply inject_nat_pos; lia.
Qed.

Lemma combine_map_r {A B} (f : A -> B) (l : list A) :
  combine l (map f l) = map (fun x => (x, f x)) l.
Proof. induction l as [|x l IH]; [reflexivity|]. cbn [map combine]. rewrite IH. reflexivity. Qed.

Lemma combine_map_map {A B C} (f : A -> B) (g : A -> C) (l : list A) :
  combine (map f l) (map g l) = map (fun x => (f x, g x)) l.
Proof. induction l as [|x l IH]; [reflexivity|]. cbn [map combine]. rewrite IH. reflexivity. Qed.

(** X11: every line of the report of cell 13 is for one label that occurs;
    the support is the number of test samples of the label, and the
    supports add up to the size of the test set.  With the numbers of
    the report taken in exact arithmetic, as the quotients of the counts
    they are computed from, the precision, recall and F1 of a line are
    rates and the F1 is the harmonic mean of the two others (the
    library rounds each quotient to binary64, where the last identity
    can fail by a unit in the last place). *)
Theorem report_lines_are_rates (y_true y_pred : list nat) :
  length y_true = length y_pred -> 0 < length y_true ->
  exists r,
    classification_report y_true y_pred = Ok r /\
    map fst (lines r) = unique_labels y_true y_pred /\
    Forall (fun ls =>
              rate (precision (snd ls)) /\ rate (recall (snd ls)) /\
              rate (f1_score (snd ls)) /\
              (f1_score (snd ls) * (precision (snd ls) + recall (snd ls))
               == 2 * precision (snd ls) * recall (snd ls))%Q /\
              support (snd ls) = count_occ Nat.eq_dec y_true (fst ls))
           (lines r) /\
    list_sum (map (fun ls => support (snd ls)) (lines r)) = length y_true.
Proof.
  intros Hlen Hpos. unfold classification_report.
  destruct (check_targets_pass y_true y_pred Hlen Hpos) as [Ec1 Ec2]. rewrite Ec1, Ec2.
  eexists. split; [reflexivity|]. cbn [lines]. unfold per_label.
  rewrite combine_map_r. split; [|split].
  - rewrite map_map. cbn [fst]. apply map_id.
  - apply List.Forall_forall. intros ls Hls.
    apply in_map_iff in Hls as (l & <- & _). cbn [fst snd].
    destruct (tp_sum_le y_true y_pred l Hlen) as (Hp & Ht).
    split; [apply prf_divide_rate, Hp|].
    split; [apply prf_divide_rate, Ht|].
    split; [apply prf_divide_rate; lia|].
    split; [apply prf_harmonic; assumption|reflexivity].
  - rewrite map_map. cbn [snd prf support].
    apply sum_over_labels; [apply SplitFacts.unique_NoDup|apply labels_cover].
Qed.

Lemma report_lines_are_rates_witness :
  exists r,
    classification_report [0; 1; 1; 2] [0; 2; 1; 2] = Ok r /\
    map fst (lines r) = unique_labels [0; 1; 1; 2] [0; 2; 1; 2] /\
    Forall (fun ls =>
              rate (precision (snd ls)) /\ rate (recall (snd ls)) /\
              rate (f1_score (snd ls)) /\
              (f1_score (snd ls) * (precision (snd ls) + recall (snd ls))
               == 2 * precision (snd ls) * recall (snd ls))%Q /\
              support (snd ls) = count_occ Nat.eq_dec [0; 1; 1; 2] (fst ls))
           (lines r) /\
    list_sum (map (fun ls => support (snd ls)) (lines r)) = length [0; 1; 1; 2].
Proof.
  apply (report_lines_are_rates [0; 1; 1; 2] [0; 2; 1; 2]).
  - reflexivity.
  - cbn. lia.
Defined.

Lemma Qsum_cons (x : Q) (a : list Q) : Qsum (x :: a) = (x + Qsum a)%Q.
Proof. reflexivity. Qed.

(** The recalls weighted by the supports add up to the true positives. *)
Lemma weighted_recall_sum (tp t : nat -> nat) (labels : list nat) :
  (forall l, tp l <= t l) ->
  (Qsum (map (fun l => prf_divide (tp l) (t l) * inject_Z (Z.of_nat (t l))) labels)
   == inject_Z (Z.of_nat (list_sum (map tp labels))))%Q.
Proof.
  intros Hle. induction labels as [|l labels IH]; [reflexivity|].
  cbn [map]. rewrite Qsum_cons, IH, SplitFacts.list_sum_cons, inject_nat_add.
  apply Qplus_comp; [|reflexivity].
  specialize (Hle l). destruct (t l) as [|n] eqn:Et.
  - replace (tp l) with 0 by lia. unfold prf_divide. cbn [Nat.eqb]. reflexivity.
  - rewrite prf_divide_pos by lia. field.
    intros E. pose proof (inject_nat_pos (S n) ltac:(lia)) as Hp.
    rewrite E in Hp. apply (Qlt_irrefl 0), Hp.
Qed.

Lemma half_of_double (a b : Q) : (0 < b)%Q -> ((a + a) / (b + b) == a / b)%Q.
Proof. intros Hb. field. split; lra. Qed.

(** X12: with the numbers of the report taken in exact arithmetic, as
    the quotients of the counts they are computed from, the accuracy
    line of the report is the accuracy of cell 11: the micro-averaged
    precision, recall and F1 all equal it, and so does the recall of the
    weighted average (in binary64 the weighted sum of the rounded
    recalls can differ from it by a unit in the last place).  The
    averages are over the whole test set. *)
Theorem report_accuracy_is_accuracy_score (y_true y_pred : list nat) :
  length y_true = length y_pred -> 0 < length y_true ->
  exists r q,
    classification_report y_true y_pred = Ok r /\
    accuracy_score y_true y_pred = Ok (Some q) /\
    (accuracy r == q)%Q /\
    (precision (micro y_true y_pred (unique_labels y_true y_pred)) == q)%Q /\
    (recall (micro y_true y_pred (unique_labels y_true y_pred)) == q)%Q /\
    (recall (weighted_avg r) == q)%Q /\
    support (macro_avg r) = length y_true /\
    support (weighted_avg r) = length y_true.
Proof.
  intros Hlen Hpos. unfold classification_report, accuracy_score.
  destruct (check_targets_pass y_true y_pred Hlen Hpos) as [Ec1 Ec2]. rewrite Ec1, Ec2.
  fold (agreements y_true y_pred). rewrite xdiv_nat by exact Hpos.
  eexists. eexists. split; [reflexivity|]. split; [reflexivity|].
  cbn [accuracy macro_avg weighted_avg averaged support recall].
  set (labels := unique_labels y_true y_pred).
  assert (Htp : list_sum (map (tp_sum y_true y_pred) labels) = agreements y_true y_pred)
    by apply diagonal_sum.
  assert (Ht : list_sum (map (true_sum y_true) labels) = length y_true).
  { apply sum_over_labels; [apply SplitFacts.unique_NoDup|apply labels_cover]. }
  assert (Hp : list_sum (map (pred_sum y_pred) labels) = length y_true).
  { rewrite Hlen. apply sum_over_labels; [apply SplitFacts.unique_NoDup|apply labels_cover]. }
  assert (Hsup : list_sum (map support (per_label y_true y_pred labels)) = length y_true).
  { unfold per_label. rewrite map_map. exact Ht. }
  pose proof (inject_nat_pos (length y_true) Hpos) as Hn.
  unfold micro. rewrite Htp, Ht, Hp. cbn [prf precision recall f1_score].
  split; [|split; [|split; [|split; [|split]]]].
  - replace ((1 + 1) * agreements y_true y_pred)
      with (agreements y_true y_pred + agreements y_true y_pred) by lia.
    replace (1 * length y_true + length y_true)
      with (length y_true + length y_true) by lia.
    rewrite prf_divide_pos by lia. rewrite !inject_nat_add.
    apply half_of_double, Hn.
  - rewrite prf_divide_pos by lia. reflexivity.
  - rewrite prf_divide_pos by lia. reflexivity.
  - unfold nanaverage. rewrite Hsup.
    destruct (length y_true =? 0) eqn:E0; [apply Nat.eqb_eq in E0; lia|].
    unfold per_label. rewrite !map_map, combine_map_map, map_map.
    cbn [fst snd prf recall support].
    rewrite (weighted_recall_sum (tp_sum y_true y_pred) (true_sum y_true) labels)
      by (intros l; apply (tp_sum_le y_true y_pred l Hlen)).
    rewrite Htp. reflexivity.
  - exact Hsup.
  - exact Hsup.
Qed.

(** Four test samples, one of them misclassified. *)
Definition four_true : list nat := [0; 1; 1; 2].
Definition four_pred : list nat := [0; 2; 1; 2].

Lemma report_accuracy_is_accuracy_score_witness :
  exists r q,
    classification_report four_true four_pred = Ok r /\
    accuracy_score four_true four_pred = Ok (Some q) /\
    (accuracy r == q)%Q /\
    (precision (micro four_true four_pred
                  (unique_labels four_true four_pred)) == q)%Q /\
    (recall (micro four_true four_pred
               (unique_labels four_true four_pred)) == q)%Q /\
    (recall (weighted_avg r) == q)%Q /\
    support (macro_avg r) = length four_true /\
    support (weighted_avg r) = length four_true.
Proof.
  apply (report_accuracy_is_accuracy_score four_true four_pred).
  - reflexivity.
  - cbn. lia.
Defined.

(** *** The report and the confusion matrix *)

(** A column of the matrix sums to the number of predictions of its
    label. *)
Lemma column_sum (y_true y_pred : list nat) (p : nat) :
  length y_true = length y_pred ->
  list_sum (map (fun t => count_pairs t p (combine y_true y_pred))
                (unique_labels y_true y_pred))
  = count_occ Nat.eq_dec y_pred p.
Proof.
  intros Hlen. rewrite <- (filter_snd_combine p y_true y_pred Hlen).
  rewrite <- (MetricsFacts.sum_by_key fst (unique_labels y_true y_pred)
                (List.filter (fun tp => snd tp =? p) (combine y_true y_pred))).
  - f_equal. apply map_ext. intros t. unfold count_pairs.
    rewrite <- MetricsFacts.filter_filter. f_equal. apply filter_ext.
    intros x. apply andb_comm.
  - apply SplitFacts.unique_NoDup.
  - intros x Hx. apply filter_In in Hx as [Hx _].
    apply (MetricsFacts.combine_labels y_true y_pred x Hx).
Qed.

(** X13: the lines of the report can be read off the confusion matrix of the
    same cell: for the label of row [i], the precision is the diagonal
    entry over the sum of column [i], the recall is the diagonal entry
    over the sum of row [i], and the support is the sum of row [i]. *)
Theorem report_reads_off_confusion_matrix (y_true y_pred : list nat) :
  length y_true = length y_pred -> 0 < length y_true ->
  exists cm r,
    confusion_matrix y_true y_pred = Ok cm /\
    classification_report y_true y_pred = Ok r /\
    length (lines r) = length cm /\
    forall i, i < length cm ->
      exists s,
        nth_error (lines r) i = Some (nth i (unique_labels y_true y_pred) 0, s) /\
        precision s = prf_divide (nth i (nth i cm []) 0)
                                 (list_sum (map (fun row => nth i row 0) cm)) /\
        recall s = prf_divide (nth i (nth i cm []) 0) (list_sum (nth i cm [])) /\
        support s = list_sum (nth i cm []).
Proof.
  intros Hlen Hpos.
  destruct (confusion_matrix_ok y_true y_pred Hlen Hpos) as (Hcm & _).
  cbv zeta in Hcm.
  set (labels := unique_labels y_true y_pred) in *.
  set (pairs := combine y_true y_pred) in *.
  eexists. eexists. split; [exact Hcm|].
  unfold classification_report.
  destruct (check_targets_pass y_true y_pred Hlen Hpos) as [Ec1 Ec2]. rewrite Ec1, Ec2.
  fold labels.
  split; [reflexivity|]. cbn [lines]. unfold per_label.
  rewrite combine_map_r, !length_map. split; [reflexivity|].
  intros i Hi. eexists. split.
  { rewrite nth_error_map, (nth_error_nth' labels 0 Hi). reflexivity. }
  cbn [prf precision recall support].
  assert (Hrow : list_sum (nth i (map (fun t => map (fun p => count_pairs t p pairs) labels)
                                      labels) [])
                 = true_sum y_true (nth i labels 0)).
  { rewrite (nth_indep _ [] ((fun t => map (fun p => count_pairs t p pairs) labels) 0))
      by (rewrite length_map; exact Hi).
    rewrite (map_nth (fun t => map (fun p => count_pairs t p pairs) labels)).
    apply MetricsFacts.row_sum, Hlen. }
  assert (Hcol : list_sum (map (fun row => nth i row 0)
                    (map (fun t => map (fun p => count_pairs t p pairs) labels) labels))
                 = pred_sum y_pred (nth i labels 0)).
  { rewrite map_map. unfold pred_sum.
    rewrite <- (column_sum y_true y_pred (nth i labels 0) Hlen).
    fold labels. fold pairs. f_equal. apply map_ext_in. intros t Ht.
    rewrite (nth_indep _ 0 ((fun p => count_pairs t p pairs) 0))
      by (rewrite length_map; exact Hi).
    apply (map_nth (fun p => count_pairs t p pairs)). }
  rewrite Hrow, Hcol, (matrix_entry labels pairs i i Hi Hi).
  repeat split; reflexivity.
Qed.

Lemma report_reads_off_confusion_matrix_witness :
  exists cm r,
    confusion_matrix four_true four_pred = Ok cm /\
    classification_report four_true four_pred = Ok r /\
    length (lines r) = length cm /\
    forall i, i < length cm ->
      exists s,
        nth_error (lines r) i = Some (nth i (unique_labels four_true four_pred) 0, s) /\
        precision s = prf_divide (nth i (nth i cm []) 0)
                                 (list_sum (map (fun row => nth i row 0) cm)) /\
        recall s = prf_divide (nth i (nth i cm []) 0) (list_sum (nth i cm [])) /\
        support s = list_sum (nth i cm []).
Proof.
  apply (report_reads_off_confusion_matrix four_true four_pred).
  - reflexivity.
  - cbn. lia.
Defined.

End ReportFacts.

(** ** The folds of the grid search *)

Module KFoldFacts.
Import KFold.

Lemma filter_complement_perm {A} (f : A -> bool) (l : list A) :
  Permutation (List.filter (fun x => negb (f x)) l ++ List.filter f l) l.
Proof.
  induction l as [|x l IH]; [constructor|].
  cbn [List.filter]. destruct (f x); cbn [negb].
  - apply Permutation_sym, Permutation_cons_app, Permutation_sym, IH.
  - cbn [app]. constructor. exact IH.
Qed.

(** Sorting positions by a key below [n] loses none and repeats none. *)
Lemma positions_by_key (key : nat -> nat) (n m : nat) :
  (forall j, j < m -> key j < n) ->
  Permutation (concat (map (fun i => List.filter (fun j => key j =? i) (seq 0 m))
                           (seq 0 n)))
              (seq 0 m).
Proof.
  intros Hkey. apply Permutation.NoDup_Permutation.
  - apply SplitFacts.NoDup_concat_map.
    + apply seq_NoDup.
    + intros i _. apply SplitFacts.NoDup_filter_seq.
    + intros a b j _ _ Ha Hb.
      apply filter_In in Ha as [_ Ha]. apply filter_In in Hb as [_ Hb].
      apply Nat.eqb_eq in Ha, Hb. congruence.
  - apply seq_NoDup.
  - intros j. rewrite in_concat. split.
    + intros (l & Hl & Hj). apply in_map_iff in Hl as (i & <- & _).
      apply filter_In in Hj. tauto.
    + intros Hj. exists (List.filter (fun j0 => key j0 =? key j) (seq 0 m)). split.
      * apply in_map_iff. exists (key j). split; [reflexivity|].
        apply in_seq. apply in_seq in Hj. specialize (Hkey j). lia.
      * apply filter_In. split; [exact Hj|apply Nat.eqb_refl].
Qed.

(** The pieces of [_make_test_folds], by name. *)
Definition y_counts (y : list nat) : list nat :=
  map (count_occ Nat.eq_dec (encode y)) (seq 0 (length (first_seen y))).

Definition y_order (y : list nat) : list nat :=
  flat_map (fun k => repeat k (nth k (y_counts y) 0)) (seq 0 (length (first_seen y))).

Definition allocation (n_splits : nat) (y : list nat) (i k : nat) : nat :=
  count_occ Nat.eq_dec (stride n_splits i (y_order y)) k.

Definition folds_for_class (n_splits : nat) (y : list nat) (k : nat) : list nat :=
  flat_map (fun i => repeat i (allocation n_splits y i k)) (seq 0 n_splits).

Lemma make_test_folds_eq (n_splits : nat) (y test_folds : list nat) :
  make_test_folds n_splits y = Ok test_folds ->
  test_folds
  = map (fun j =>
           nth (count_occ Nat.eq_dec (firstn j (encode y)) (nth j (encode y) 0))
               (folds_for_class n_splits y (nth j (encode y) 0)) 0)
        (seq 0 (length y)).
Proof.
  unfold make_test_folds. destruct (forallb _ _); [discriminate|].
  intros [= <-]. reflexivity.
Qed.

(** Every sample is given a fold below [n_splits]. *)
Lemma test_folds_below (n_splits : nat) (y test_folds : list nat) :
  0 < n_splits -> make_test_folds n_splits y = Ok test_folds ->
  forall j, nth j test_folds 0 < n_splits.
Proof.
  intros Hn Htf j. rewrite (make_test_folds_eq n_splits y test_folds Htf).
  match goal with
  | |- nth j ?l 0 < _ => destruct (nth_in_or_default j l 0) as [Hin| ->]; [|exact Hn]
  end.
  apply in_map_iff in Hin as (j0 & <- & _).
  match goal with
  | |- nth ?r ?l 0 < _ => destruct (nth_in_or_default r l 0) as [Hin| ->]; [|exact Hn]
  end.
  apply in_flat_map in Hin as (i & Hi & Hrep).
  apply repeat_spec in Hrep. rewrite Hrep. apply in_seq in Hi. lia.
Qed.

(** X14: the folds of [cv=3]: every fold splits the training samples into a
    train part and a test part, and the test parts of the folds together
    hold every sample exactly once. *)
Theorem kfold_test_parts_partition (n_splits : nat) (y : list nat)
    (folds : list (list nat * list nat)) :
  2 <= n_splits -> split n_splits y = Ok folds ->
  length folds = n_splits /\
  Forall (fun fold => Permutation (fst fold ++ snd fold) (seq 0 (length y))) folds /\
  Permutation (concat (map snd folds)) (seq 0 (length y)).
Proof.
  intros Hn. unfold split. destruct (length y <? n_splits); [discriminate|].
  destruct (make_test_folds n_splits y) as [test_folds|] eqn:Etf; cbn [res_bind];
    [|discriminate].
  intros [= <-]. split; [rewrite length_map, length_seq; reflexivity|]. split.
  - apply List.Forall_forall. intros fold Hf.
    apply in_map_iff in Hf as (i & <- & _). cbn [fst snd].
    apply (filter_complement_perm (fun j => nth j test_folds 0 =? i)).
  - rewrite map_map. cbn [snd].
    apply (positions_by_key (fun j => nth j test_folds 0)).
    intros j _. apply (test_folds_below n_splits y test_folds); [lia|exact Etf].
Qed.

Lemma kfold_test_parts_partition_witness :
  exists folds,
    split 3 NotebookFacts.two_classes = Ok folds /\
    length folds = 3 /\
    Forall (fun fold => Permutation (fst fold ++ snd fold)
                                    (seq 0 (length NotebookFacts.two_classes))) folds /\
    Permutation (concat (map snd folds)) (seq 0 (length NotebookFacts.two_classes)).
Proof.
  eexists. split; [vm_compute; reflexivity|].
  apply (kfold_test_parts_partition 3 NotebookFacts.two_classes).
  - lia.
  - vm_compute. reflexivity.
Defined.

End KFoldFacts.

(** ** The folds are stratified *)

Module StratifiedFoldFacts.
Import KFold KFoldFacts.

(** *** Labels and their codes *)

Lemma first_seen_In (y : list nat) (v : nat) : In v (first_seen y) <-> In v y.
Proof. unfold first_seen. rewrite <- in_rev, nodup_In, <- in_rev. reflexivity. Qed.

Lemma index_of_spec (v : nat) (l : list nat) :
  In v l -> index_of v l < length l /\ nth (index_of v l) l 0 = v.
Proof.
  induction l as [|x l IH]; intros Hin; [contradiction|].
  cbn [index_of]. destruct (x =? v) eqn:E.
  - apply Nat.eqb_eq in E. cbn. split; [lia|exact E].
  - apply Nat.eqb_neq in E. destruct Hin as [Hx|Hin]; [congruence|].
    destruct (IH Hin) as (Hlt & Hnth). cbn [length nth]. split; [lia|exact Hnth].
Qed.

Lemma index_of_inj (v w : nat) (l : list nat) :
  In v l -> In w l -> index_of v l = index_of w l -> v = w.
Proof.
  intros Hv Hw E. destruct (index_of_spec v l Hv) as (_ & <-).
  destruct (index_of_spec w l Hw) as (_ & <-). rewrite E. reflexivity.
Qed.

Lemma encode_nth (y : list nat) (j : nat) :
  j < length y -> nth j (encode y) 0 = index_of (nth j y 0) (first_seen y).
Proof.
  intros Hj. unfold encode.
  rewrite (nth_indep _ 0 ((fun v => index_of v (first_seen y)) 0))
    by (rewrite length_map; exact Hj).
  apply (map_nth (fun v => index_of v (first_seen y))).
Qed.

Lemma encode_eqb (y : list nat) (L j : nat) :
  In L y -> j < length y ->
  (nth j (encode y) 0 =? index_of L (first_seen y)) = (nth j y 0 =? L).
Proof.
  intros HL Hj. rewrite encode_nth by exact Hj.
  destruct (nth j y 0 =? L) eqn:E.
  - apply Nat.eqb_eq in E. rewrite E. apply Nat.eqb_refl.
  - apply Nat.eqb_neq in E. apply Nat.eqb_neq. intros Hi. apply E.
    apply (index_of_inj _ _ (first_seen y)); [| |exact Hi].
    + apply first_seen_In, nth_In, Hj.
    + apply first_seen_In, HL.
Qed.

Lemma count_occ_map_filter {A} (h : A -> nat) (l : list A) (k : nat) :
  count_occ Nat.eq_dec (map h l) k = length (List.filter (fun x => h x =? k) l).
Proof.
  rewrite ReportFacts.count_occ_as_filter.
  apply (ErrorAnalysisFacts.filter_map_length (fun v => v =? k) h).
Qed.

Lemma count_occ_positions (a : list nat) (k : nat) :
  count_occ Nat.eq_dec a k
  = length (List.filter (fun j => nth j a 0 =? k) (seq 0 (length a))).
Proof.
  rewrite <- (count_occ_map_filter (fun j => nth j a 0)).
  rewrite SplitFacts.map_nth_seq. reflexivity.
Qed.

Lemma filter_ext_length {A} (f g : A -> bool) (l : list A) :
  (forall x, In x l -> f x = g x) ->
  length (List.filter f l) = length (List.filter g l).
Proof.
  intros Hfg. rewrite (filter_ext_in f g l Hfg). reflexivity.
Qed.

Lemma encode_count (y : list nat) (L : nat) :
  In L y ->
  count_occ Nat.eq_dec (encode y) (index_of L (first_seen y)) = count_occ Nat.eq_dec y L.
Proof.
  intros HL. rewrite !count_occ_positions.
  assert (Hlen : length (encode y) = length y) by apply length_map.
  rewrite Hlen. apply filter_ext_length. intros j Hj. apply in_seq in Hj.
  apply encode_eqb; [exact HL|lia].
Qed.

(** *** The fold of a sample is read off by its rank in its class *)

Lemma rank_assignment (e f : list nat) (k i : nat) :
  length (List.filter
            (fun j => (nth j e 0 =? k)
                      && (nth (count_occ Nat.eq_dec (firstn j e) k) f 0 =? i))
            (seq 0 (length e)))
  = count_occ Nat.eq_dec
      (map (fun r => nth r f 0) (seq 0 (count_occ Nat.eq_dec e k))) i.
Proof.
  induction e as [|x e IH] using rev_ind; [reflexivity|].
  rewrite length_app. cbn [length]. rewrite Nat.add_1_r, seq_S, List.filter_app, length_app.
  cbn [Nat.add].
  assert (Hfirst :
    length (List.filter
              (fun j => (nth j (e ++ [x]) 0 =? k)
                        && (nth (count_occ Nat.eq_dec (firstn j (e ++ [x])) k) f 0 =? i))
              (seq 0 (length e)))
    = length (List.filter
                (fun j => (nth j e 0 =? k)
                          && (nth (count_occ Nat.eq_dec (firstn j e) k) f 0 =? i))
                (seq 0 (length e)))).
  { apply filter_ext_length. intros j Hj. apply in_seq in Hj.
    rewrite app_nth1 by lia. rewrite firstn_app.
    replace (j - length e) with 0 by lia. cbn [firstn]. rewrite app_nil_r.
    reflexivity. }
  rewrite Hfirst, IH. clear Hfirst IH.
  cbn [List.filter]. rewrite app_nth2 by lia. rewrite Nat.sub_diag. cbn [nth].
  rewrite firstn_app, Nat.sub_diag, firstn_all. cbn [firstn]. rewrite app_nil_r.
  rewrite count_occ_app. cbn [count_occ].
  destruct (Nat.eq_dec x k) as [->|Hne].
  - rewrite Nat.eqb_refl. cbn [andb]. rewrite Nat.add_1_r, seq_S, map_app, count_occ_app.
    cbn [Nat.add map count_occ].
    destruct (Nat.eq_dec (nth (count_occ Nat.eq_dec e k) f 0) i) as [Hi|Hi].
    + apply Nat.eqb_eq in Hi. rewrite Hi. reflexivity.
    + apply Nat.eqb_neq in Hi. rewrite Hi. reflexivity.
  - apply Nat.eqb_neq in Hne. rewrite Hne. cbn [andb length].
    rewrite !Nat.add_0_r. reflexivity.
Qed.

(** *** Blocks of repeated values *)

Lemma count_occ_repeat (a c i : nat) :
  count_occ Nat.eq_dec (repeat a c) i = if a =? i then c else 0.
Proof.
  induction c as [|c IH]; [destruct (a =? i); reflexivity|].
  cbn [repeat count_occ]. rewrite IH. destruct (Nat.eq_dec a i) as [->|Hne].
  - rewrite Nat.eqb_refl. reflexivity.
  - apply Nat.eqb_neq in Hne. rewrite Hne. reflexivity.
Qed.

Lemma count_occ_flat_repeat (g : nat -> nat) (s n i : nat) :
  count_occ Nat.eq_dec (flat_map (fun a => repeat a (g a)) (seq s n)) i
  = if (s <=? i) && (i <? s + n) then g i else 0.
Proof.
  revert s. induction n as [|n IH]; intros s.
  - cbn [seq flat_map count_occ]. rewrite Nat.add_0_r.
    destruct (s <=? i) eqn:E1, (i <? s) eqn:E2; try reflexivity.
    apply Nat.leb_le in E1. apply Nat.ltb_lt in E2. lia.
  - cbn [seq flat_map]. rewrite count_occ_app, IH, count_occ_repeat.
    destruct (s =? i) eqn:Es.
    + apply Nat.eqb_eq in Es. subst i.
      assert (E1 : (S s <=? s) = false) by (apply Nat.leb_gt; lia).
      assert (E2 : (s <=? s) = true) by (apply Nat.leb_le; lia).
      assert (E3 : (s <? s + S n) = true) by (apply Nat.ltb_lt; lia).
      rewrite E1, E2, E3. cbn [andb]. lia.
    + apply Nat.eqb_neq in Es.
      destruct (S s <=? i) eqn:E1, (i <? S s + n) eqn:E2, (s <=? i) eqn:E3,
               (i <? s + S n) eqn:E4; cbn [andb]; try reflexivity;
        repeat match goal with
               | H : (_ <=? _) = true |- _ => apply Nat.leb_le in H
               | H : (_ <=? _) = false |- _ => apply Nat.leb_gt in H
               | H : (_ <? _) = true |- _ => apply Nat.ltb_lt in H
               | H : (_ <? _) = false |- _ => apply Nat.ltb_ge in H
               end; lia.
Qed.

Lemma length_flat_repeat (g : nat -> nat) (l : list nat) :
  length (flat_map (fun a => repeat a (g a)) l) = list_sum (map g l).
Proof.
  induction l as [|a l IH]; [reflexivity|].
  cbn [flat_map map]. rewrite length_app, repeat_length, IH, SplitFacts.list_sum_cons.
  reflexivity.
Qed.

Lemma filter_none {A} (f : A -> bool) (l : list A) :
  (forall x, In x l -> f x = false) -> List.filter f l = [].
Proof.
  induction l as [|x l IH]; intros Hf; [reflexivity|].
  cbn [List.filter]. rewrite (Hf x (in_eq _ _)). apply IH.
  intros z Hz. apply Hf. right. exact Hz.
Qed.

Lemma filter_all {A} (f : A -> bool) (l : list A) :
  (forall x, In x l -> f x = true) -> List.filter f l = l.
Proof.
  induction l as [|x l IH]; intros Hf; [reflexivity|].
  cbn [List.filter]. rewrite (Hf x (in_eq _ _)). f_equal. apply IH.
  intros z Hz. apply Hf. right. exact Hz.
Qed.

(** The positions of a value that fills one block of a list. *)
Lemma block_positions (A B : list nat) (k c : nat) :
  ~ In k A -> ~ In k B ->
  List.filter (fun j => nth j (A ++ repeat k c ++ B) 0 =? k)
              (seq 0 (length (A ++ repeat k c ++ B)))
  = seq (length A) c.
Proof.
  intros HA HB. rewrite !length_app, repeat_length.
  rewrite seq_app, List.filter_app. cbn [Nat.add].
  rewrite filter_none.
  2:{ intros j Hj. apply in_seq in Hj. rewrite app_nth1 by lia.
      apply Nat.eqb_neq. intros E. apply HA. rewrite <- E. apply nth_In. lia. }
  cbn [app]. rewrite seq_app, List.filter_app.
  rewrite filter_all.
  2:{ intros j Hj. apply in_seq in Hj. rewrite app_nth2 by lia.
      rewrite app_nth1 by (rewrite repeat_length; lia).
      apply Nat.eqb_eq.
      apply (repeat_spec c k). apply nth_In. rewrite repeat_length. lia. }
  rewrite filter_none; [apply app_nil_r|].
  intros j Hj. apply in_seq in Hj. rewrite app_nth2 by lia.
  rewrite app_nth2 by (rewrite repeat_length; lia).
  apply Nat.eqb_neq. intros E. apply HB. rewrite <- E. apply nth_In.
  rewrite repeat_length. lia.
Qed.

(** *** Counting the residues of an interval *)

(** The number of [j] in [[s, s + c)] with [j mod n = i]. *)
Definition residues (n i s c : nat) : nat :=
  length (List.filter (fun j => j mod n =? i) (seq s c)).

Lemma residues_S (n i s c : nat) :
  residues n i s (S c) = residues n i s c + (if (s + c) mod n =? i then 1 else 0).
Proof.
  unfold residues. rewrite seq_S, List.filter_app, length_app. cbn [List.filter].
  destruct ((s + c) mod n =? i); reflexivity.
Qed.

Lemma residues_app (n i s c : nat) :
  residues n i 0 (s + c) = residues n i 0 s + residues n i s c.
Proof.
  unfold residues. rewrite seq_app, List.filter_app, length_app. reflexivity.
Qed.

Lemma residues_step (n i q r : nat) :
  r <= n ->
  residues n i 0 (q * n + r) = residues n i 0 (q * n) + (if i <? r then 1 else 0).
Proof.
  induction r as [|r IH]; intros Hr.
  - rewrite Nat.add_0_r. cbn [Nat.ltb Nat.leb]. lia.
  - rewrite Nat.add_succ_r, residues_S, IH by lia. cbn [Nat.add].
    assert (Hmod : (q * n + r) mod n = r).
    { symmetry. apply (Nat.mod_unique (q * n + r) n q r); lia. }
    rewrite Hmod.
    destruct (r =? i) eqn:E1, (i <? r) eqn:E2, (i <? S r) eqn:E3;
      repeat match goal with
             | H : (_ =? _) = true |- _ => apply Nat.eqb_eq in H
             | H : (_ =? _) = false |- _ => apply Nat.eqb_neq in H
             | H : (_ <? _) = true |- _ => apply Nat.ltb_lt in H
             | H : (_ <? _) = false |- _ => apply Nat.ltb_ge in H
             end; lia.
Qed.

Lemma residues_multiple (n i q : nat) : i < n -> residues n i 0 (q * n) = q.
Proof.
  intros Hi. induction q as [|q IH]; [reflexivity|].
  replace (S q * n) with (q * n + n) by lia.
  rewrite residues_step, IH by lia.
  apply Nat.ltb_lt in Hi. rewrite Hi. lia.
Qed.

Lemma residues_value (n i q r : nat) :
  i < n -> r <= n -> residues n i 0 (q * n + r) = q + (if i <? r then 1 else 0).
Proof.
  intros Hi Hr. rewrite residues_step, residues_multiple by assumption. reflexivity.
Qed.

(** An interval of [c] positions holds [c / n], rounded down or up,
    positions of every residue. *)
Lemma residues_bound (n i s c : nat) :
  i < n ->
  residues n i s c * n <= c + (n - 1) /\ c <= residues n i s c * n + (n - 1).
Proof.
  intros Hi.
  assert (Hn : n <> 0) by lia.
  pose proof (residues_app n i s c) as Happ.
  pose proof (Nat.div_mod_eq s n) as Hs.
  pose proof (Nat.div_mod_eq c n) as Hc.
  pose proof (Nat.mod_upper_bound s n Hn) as Hr1.
  pose proof (Nat.mod_upper_bound c n Hn) as Hr2.
  set (q1 := s / n) in *. set (r1 := s mod n) in *.
  set (q2 := c / n) in *. set (r2 := c mod n) in *.
  assert (Hs' : s = q1 * n + r1) by lia.
  assert (Hc' : c = q2 * n + r2) by lia.
  rewrite Hs' in Happ at 2. rewrite (residues_value n i q1 r1 Hi) in Happ by lia.
  destruct (Nat.le_gt_cases (r1 + r2) n) as [Hle|Hgt].
  - assert (E : s + c = (q1 + q2) * n + (r1 + r2)) by lia.
    rewrite E, (residues_value n i (q1 + q2) (r1 + r2) Hi Hle) in Happ.
    destruct (i <? r1 + r2) eqn:E1, (i <? r1) eqn:E2;
      repeat match goal with
             | H : (_ <? _) = true |- _ => apply Nat.ltb_lt in H
             | H : (_ <? _) = false |- _ => apply Nat.ltb_ge in H
             end;
      try (assert (Hres : residues n i s c = q2) by lia);
      try (assert (Hres : residues n i s c = q2 + 1) by lia);
      rewrite Hres; nia.
  - assert (E : s + c = (q1 + q2 + 1) * n + (r1 + r2 - n)) by lia.
    rewrite E, (residues_value n i (q1 + q2 + 1) (r1 + r2 - n) Hi) in Happ by lia.
    destruct (i <? r1 + r2 - n) eqn:E1, (i <? r1) eqn:E2;
      repeat match goal with
             | H : (_ <? _) = true |- _ => apply Nat.ltb_lt in H
             | H : (_ <? _) = false |- _ => apply Nat.ltb_ge in H
             end;
      try (assert (Hres : residues n i s c = q2) by lia);
      try (assert (Hres : residues n i s c = q2 + 1) by lia);
      try lia; rewrite Hres; nia.
Qed.


(** *** The allocation of the classes to the folds *)

Lemma stride_count (n i : nat) (a : list nat) (k : nat) :
  count_occ Nat.eq_dec (stride n i a) k
  = length (List.filter (fun j => j mod n =? i)
              (List.filter (fun j => nth j a 0 =? k) (seq 0 (length a)))).
Proof.
  unfold stride. rewrite count_occ_map_filter.
  rewrite <- !MetricsFacts.filter_filter.
  apply filter_ext_length. intros j _. apply andb_comm.
Qed.

Lemma allocation_sum (n_splits : nat) (y : list nat) (k : nat) :
  0 < n_splits ->
  list_sum (map (fun i => allocation n_splits y i k) (seq 0 n_splits))
  = count_occ Nat.eq_dec (y_order y) k.
Proof.
  intros Hn. rewrite (count_occ_positions (y_order y) k).
  rewrite <- (MetricsFacts.sum_by_key (fun j => j mod n_splits) (seq 0 n_splits)
                (List.filter (fun j => nth j (y_order y) 0 =? k)
                             (seq 0 (length (y_order y))))).
  - f_equal. apply map_ext. intros i. apply stride_count.
  - apply seq_NoDup.
  - intros j _. apply in_seq. pose proof (Nat.mod_upper_bound j n_splits). lia.
Qed.

Lemma y_counts_nth (y : list nat) (k : nat) :
  k < length (first_seen y) ->
  nth k (y_counts y) 0 = count_occ Nat.eq_dec (encode y) k.
Proof. intros Hk. unfold y_counts. rewrite nth_map_seq by exact Hk. reflexivity. Qed.

Lemma y_order_count (y : list nat) (k : nat) :
  k < length (first_seen y) ->
  count_occ Nat.eq_dec (y_order y) k = count_occ Nat.eq_dec (encode y) k.
Proof.
  intros Hk. unfold y_order. rewrite count_occ_flat_repeat.
  assert (E : (0 <=? k) && (k <? 0 + length (first_seen y)) = true).
  { apply andb_true_iff. split; [apply Nat.leb_le; lia|apply Nat.ltb_lt; lia]. }
  rewrite E. apply y_counts_nth, Hk.
Qed.

Lemma folds_for_class_length (n_splits : nat) (y : list nat) (k : nat) :
  0 < n_splits -> k < length (first_seen y) ->
  length (folds_for_class n_splits y k) = count_occ Nat.eq_dec (encode y) k.
Proof.
  intros Hn Hk. unfold folds_for_class.
  rewrite length_flat_repeat, allocation_sum by exact Hn. apply y_order_count, Hk.
Qed.

Lemma folds_for_class_count (n_splits : nat) (y : list nat) (k i : nat) :
  i < n_splits ->
  count_occ Nat.eq_dec (folds_for_class n_splits y k) i = allocation n_splits y i k.
Proof.
  intros Hi. unfold folds_for_class. rewrite count_occ_flat_repeat.
  assert (E : (0 <=? i) && (i <? 0 + n_splits) = true).
  { apply andb_true_iff. split; [apply Nat.leb_le; lia|apply Nat.ltb_lt; lia]. }
  rewrite E. reflexivity.
Qed.

(** In the sorted labels a class fills one interval, which every fold
    takes its share of. *)
Lemma allocation_residues (n_splits : nat) (y : list nat) (i k : nat) :
  k < length (first_seen y) ->
  exists s, allocation n_splits y i k
            = residues n_splits i s (count_occ Nat.eq_dec (encode y) k).
Proof.
  intros Hk. unfold allocation. rewrite stride_count.
  set (g := fun k0 => repeat k0 (nth k0 (y_counts y) 0)).
  assert (Hsplit : y_order y
                   = flat_map g (seq 0 k)
                     ++ repeat k (count_occ Nat.eq_dec (encode y) k)
                     ++ flat_map g (seq (S k) (length (first_seen y) - S k))).
  { unfold y_order. fold g.
    replace (length (first_seen y)) with (k + S (length (first_seen y) - S k)) at 1
      by lia.
    rewrite seq_app, flat_map_app. cbn [Nat.add seq flat_map]. f_equal. f_equal.
    unfold g. rewrite y_counts_nth by exact Hk. reflexivity. }
  rewrite Hsplit, block_positions.
  - eexists. reflexivity.
  - intros Hin. apply in_flat_map in Hin as (a & Ha & Hrep).
    apply repeat_spec in Hrep. apply in_seq in Ha. lia.
  - intros Hin. apply in_flat_map in Hin as (a & Ha & Hrep).
    apply repeat_spec in Hrep. apply in_seq in Ha. lia.
Qed.

Lemma nth_folds (n_splits : nat) (y test_folds : list nat) (i : nat) :
  i < n_splits ->
  nth i (map (fun i0 =>
                (List.filter (fun j => negb (nth j test_folds 0 =? i0)) (seq 0 (length y)),
                 List.filter (fun j => nth j test_folds 0 =? i0) (seq 0 (length y))))
             (seq 0 n_splits)) ([], [])
  = (List.filter (fun j => negb (nth j test_folds 0 =? i)) (seq 0 (length y)),
     List.filter (fun j => nth j test_folds 0 =? i) (seq 0 (length y))).
Proof. intros Hi. rewrite nth_map_seq by exact Hi. reflexivity. Qed.

(** X15: the folds of [cv=3] are stratified: of the samples of every class,
    the test part of every fold holds the class count divided by the
    number of folds, rounded down or up, and the train part holds the
    others. *)
Theorem kfold_test_parts_are_stratified (n_splits : nat) (y : list nat)
    (folds : list (list nat * list nat)) (i L : nat) :
  2 <= n_splits -> split n_splits y = Ok folds -> i < n_splits ->
  let train := fst (nth i folds ([], [])) in
  let test := snd (nth i folds ([], [])) in
  let c := count_occ Nat.eq_dec y L in
  let t := count_occ Nat.eq_dec (ModelSelection.safe_indexing 0 y test) L in
  t * n_splits <= c + (n_splits - 1) /\
  c <= t * n_splits + (n_splits - 1) /\
  count_occ Nat.eq_dec (ModelSelection.safe_indexing 0 y train) L + t = c.
Proof.
  intros Hn Hsplit Hi. cbv zeta.
  revert Hsplit. unfold split. destruct (length y <? n_splits); [discriminate|].
  destruct (make_test_folds n_splits y) as [test_folds|] eqn:Etf; cbn [res_bind];
    [|discriminate].
  intros [= <-]. rewrite (nth_folds n_splits y test_folds i Hi). cbn [fst snd].
  set (test := List.filter (fun j => nth j test_folds 0 =? i) (seq 0 (length y))).
  set (train := List.filter (fun j => negb (nth j test_folds 0 =? i)) (seq 0 (length y))).
  assert (Hthird :
    count_occ Nat.eq_dec (ModelSelection.safe_indexing 0 y train) L
    + count_occ Nat.eq_dec (ModelSelection.safe_indexing 0 y test) L
    = count_occ Nat.eq_dec y L).
  { rewrite <- count_occ_app. unfold ModelSelection.safe_indexing.
    rewrite <- map_app.
    transitivity (count_occ Nat.eq_dec (map (fun j => nth j y 0) (seq 0 (length y))) L);
      [|rewrite SplitFacts.map_nth_seq; reflexivity].
    apply (proj1 (Permutation_count_occ Nat.eq_dec _ _)).
    apply Permutation_map.
    apply (filter_complement_perm (fun j => nth j test_folds 0 =? i)). }
  assert (Hbound :
    count_occ Nat.eq_dec (ModelSelection.safe_indexing 0 y test) L * n_splits
      <= count_occ Nat.eq_dec y L + (n_splits - 1) /\
    count_occ Nat.eq_dec y L
      <= count_occ Nat.eq_dec (ModelSelection.safe_indexing 0 y test) L * n_splits
         + (n_splits - 1)); [|tauto].
  clear Hthird train.
  unfold ModelSelection.safe_indexing. rewrite count_occ_map_filter.
  unfold test. rewrite <- MetricsFacts.filter_filter.
  destruct (in_dec Nat.eq_dec L y) as [HL|HL].
  2:{ rewrite (proj1 (count_occ_not_In Nat.eq_dec y L) HL).
      rewrite filter_none; [cbn; lia|].
      intros j Hj. apply in_seq in Hj. apply andb_false_iff. right.
      apply Nat.eqb_neq. intros E. apply HL. rewrite <- E. apply nth_In. lia. }
  set (k := index_of L (first_seen y)).
  assert (Hk : k < length (first_seen y)).
  { apply index_of_spec, first_seen_In, HL. }
  assert (Hlen : length (encode y) = length y) by apply length_map.
  rewrite (make_test_folds_eq n_splits y test_folds Etf).
  assert (Hpred :
    length (List.filter
              (fun x =>
                 (nth x (map (fun j =>
                                nth (count_occ Nat.eq_dec (firstn j (encode y))
                                       (nth j (encode y) 0))
                                    (folds_for_class n_splits y (nth j (encode y) 0)) 0)
                             (seq 0 (length y))) 0 =? i)
                 && (nth x y 0 =? L))
              (seq 0 (length y)))
    = length (List.filter
                (fun j => (nth j (encode y) 0 =? k)
                          && (nth (count_occ Nat.eq_dec (firstn j (encode y)) k)
                                  (folds_for_class n_splits y k) 0 =? i))
                (seq 0 (length (encode y))))).
  { rewrite Hlen. apply filter_ext_length. intros j Hj. apply in_seq in Hj.
    rewrite nth_map_seq by lia.
    rewrite <- (encode_eqb y L j HL) by lia. fold k.
    destruct (nth j (encode y) 0 =? k) eqn:E.
    - apply Nat.eqb_eq in E. rewrite E. apply andb_comm.
    - rewrite andb_false_r. reflexivity. }
  rewrite Hpred, rank_assignment. clear Hpred.
  rewrite <- (folds_for_class_length n_splits y k) by (try lia; exact Hk).
  rewrite SplitFacts.map_nth_seq.
  rewrite folds_for_class_count by exact Hi.
  destruct (allocation_residues n_splits y i k Hk) as (s & ->).
  unfold k. rewrite (encode_count y L HL).
  apply residues_bound, Hi.
Qed.

Lemma kfold_test_parts_are_stratified_witness :
  exists folds,
    split 3 NotebookFacts.two_classes = Ok folds /\
    let train := fst (nth 1 folds ([], [])) in
    let test := snd (nth 1 folds ([], [])) in
    let c := count_occ Nat.eq_dec NotebookFacts.two_classes 0 in
    let t := count_occ Nat.eq_dec
               (ModelSelection.safe_indexing 0 NotebookFacts.two_classes test) 0 in
    t * 3 <= c + (3 - 1) /\
    c <= t * 3 + (3 - 1) /\
    count_occ Nat.eq_dec
      (ModelSelection.safe_indexing 0 NotebookFacts.two_classes train) 0 + t = c.
Proof.
  eexists. split; [vm_compute; reflexivity|].
  apply (kfold_test_parts_are_stratified 3 NotebookFacts.two_classes _ 1 0).
  - lia.
  - vm_compute. reflexivity.
  - lia.
Defined.

End StratifiedFoldFacts.

(** ** The scaling formula *)

Module ScalingFormulaFacts.
Import MinMaxScaler ScalerFacts.

(** [10 * eps], the threshold of [_handle_zeros_in_scale]. *)
Definition tiny : Q := (10 # 4503599627370496)%Q.

Lemma fold_fmin_attained (l : list xreal) (a m : Q) :
  fold_left fmin l (Some a) = Some m -> m = a \/ In (Some m) l.
Proof.
  revert a. induction l as [|v l IH]; intros a.
  - cbn. intros [= ->]. left. reflexivity.
  - cbn [fold_left]. destruct v as [b|].
    + destruct (fmin_some a b) as (m' & -> & _ & _ & Hm'). intros Hf.
      destruct (IH m' Hf) as [->|Hin]; [|right; right; exact Hin].
      destruct Hm' as [->| ->]; [left; reflexivity|right; left; reflexivity].
    + change (fmin (F:=xreal) (Some a) None) with (Some a). intros Hf.
      destruct (IH a Hf) as [->|Hin]; [left; reflexivity|right; right; exact Hin].
Qed.

Lemma fold_fmax_attained (l : list xreal) (a m : Q) :
  fold_left fmax l (Some a) = Some m -> m = a \/ In (Some m) l.
Proof.
  revert a. induction l as [|v l IH]; intros a.
  - cbn. intros [= ->]. left. reflexivity.
  - cbn [fold_left]. destruct v as [b|].
    + destruct (fmax_some a b) as (m' & -> & _ & _ & Hm'). intros Hf.
      destruct (IH m' Hf) as [->|Hin]; [|right; right; exact Hin].
      destruct Hm' as [->| ->]; [left; reflexivity|right; left; reflexivity].
    + change (fmax (F:=xreal) (Some a) None) with (Some a). intros Hf.
      destruct (IH a Hf) as [->|Hin]; [left; reflexivity|right; right; exact Hin].
Qed.

(** The minimum and the maximum of a column are entries of the column. *)
Lemma extremes_attained (l : list xreal) (mn mx : Q) :
  Forall present l -> nanmin l = Some mn -> nanmax l = Some mx ->
  In (Some mn) l /\ In (Some mx) l.
Proof.
  intros Hl. unfold nanmin, nanmax.
  destruct Hl as [|v l [a ->] Hl]; [discriminate|].
  cbn [fold_left].
  change (fmin f_nan (Some a)) with (Some a).
  change (fmax f_nan (Some a)) with (Some a).
  intros Hmin Hmax. split.
  - destruct (fold_fmin_attained l a mn Hmin) as [->|Hin]; [left; reflexivity|right; exact Hin].
  - destruct (fold_fmax_attained l a mx Hmax) as [->|Hin]; [left; reflexivity|right; exact Hin].
Qed.

(** One scaled value is the distance to the minimum times a positive
    factor: the inverse of the range, or 1 when the range is below the
    threshold. *)
Lemma scaled_value_formula (x mn mx : Q) :
  exists q k,
    f_add (f_mul (Some x) (column_scale (Some mn) (Some mx)))
          (f_sub f_zero (f_mul (Some mn) (column_scale (Some mn) (Some mx))))
      = Some q /\
    (q == (x - mn) * k)%Q /\ (0 < k)%Q /\
    ((tiny <= mx - mn)%Q -> (k == / (mx - mn))%Q) /\
    ((mx - mn < tiny)%Q -> (k == 1)%Q).
Proof.
  destruct tiny_small as [Ht0 Ht1]. fold tiny in Ht0, Ht1.
  unfold column_scale. cbn [f_add f_mul f_sub f_div f_lt f_tiny f_one f_zero Exact xlift2 xlt].
  fold tiny. destruct (Qltb (mx - mn) tiny) eqn:E.
  - apply Qltb_lt in E. cbn [xdiv xlift2].
    change (Qeq_bool 1 0) with false. cbv iota.
    eexists. exists 1%Q. split; [reflexivity|].
    split; [field|]. split; [reflexivity|]. split; [|reflexivity].
    intros Hge. lra.
  - apply Qltb_ge in E. cbn [xdiv xlift2].
    assert (Hpos : (0 < mx - mn)%Q) by lra.
    destruct (Qeq_bool (mx - mn) 0) eqn:Ez.
    { apply Qeq_bool_iff in Ez. lra. }
    eexists. exists (/ (mx - mn))%Q. split; [reflexivity|].
    split; [field; lra|]. split; [apply Qinv_lt_0_compat, Hpos|].
    split; [reflexivity|]. intros Hlt. lra.
Qed.

Section Column.
Variables (X : list (list xreal)) (s : fitted (F:=xreal)).
Hypothesis Hcheck : check_array X = Ok X.
Hypothesis Hpresent : no_missing X.
Hypothesis Hfit : fit X = Ok s.

(** A column of the scaled matrix, from the column it comes from. *)
Lemma scaled_column (c : nat) :
  c < n_features X ->
  exists mn mx k,
    nth c (data_min_ s) f_nan = Some mn /\
    nth c (data_max_ s) f_nan = Some mx /\
    In (Some mn) (column c X) /\ In (Some mx) (column c X) /\
    (0 < k)%Q /\
    ((tiny <= mx - mn)%Q -> (k == / (mx - mn))%Q) /\
    ((mx - mn < tiny)%Q -> (k == 1)%Q) /\
    forall r, In r X ->
      exists x q,
        nth c r f_nan = Some x /\
        nth c (transform_row s r) f_nan = Some q /\
        (q == (x - mn) * k)%Q.
Proof.
  intros Hlt.
  destruct (check_array_ok X X Hcheck) as (_ & Hne & Hd & Hlen).
  destruct (fit_ok X Hcheck) as (s' & Hfit' & Hsl & Hcols).
  rewrite Hfit in Hfit'. injection Hfit' as <-.
  destruct (Hcols c Hlt) as (Hmin & Hmax & Hscale & Hmn).
  assert (Hcp := column_present X c Hpresent Hlen Hlt).
  assert (Hcne : column c X <> []).
  { unfold column. destruct X; [congruence|discriminate]. }
  destruct (nanmin_nanmax_bounds _ Hcp Hcne) as (mn & mx & Emn & Emx & _).
  destruct (extremes_attained _ mn mx Hcp Emn Emx) as (Hinmn & Hinmx).
  destruct (scaled_value_formula mn mn mx) as (_ & k & _ & _ & Hk & Hk1 & Hk2).
  exists mn, mx, k. rewrite Hmin, Hmax.
  repeat (split; [assumption|]).
  intros r Hr.
  assert (Hx : exists x, nth c r f_nan = Some x).
  { rewrite List.Forall_forall in Hcp. apply Hcp.
    unfold column. apply in_map_iff. exists r. split; [reflexivity|exact Hr]. }
  destruct Hx as (x & Ex).
  destruct (scaled_value_formula x mn mx) as (q & k' & Eq & Hq & _ & Hk1' & Hk2').
  exists x, q. split; [exact Ex|].
  rewrite transform_row_nth by (rewrite Hsl; exact Hlt).
  rewrite Hscale, Hmn, Emn, Emx, Ex. split; [exact Eq|].
  rewrite Hq.
  assert (Hkk : (k' == k)%Q).
  { destruct (Qlt_le_dec (mx - mn) tiny) as [Hs|Hs].
    - rewrite (Hk2 Hs), (Hk2' Hs). reflexivity.
    - rewrite (Hk1 Hs), (Hk1' Hs). reflexivity. }
  rewrite Hkk. reflexivity.
Qed.

Lemma In_column (c : nat) (v : xreal) :
  In v (column c X) -> exists i, i < length X /\ nth c (nth i X []) f_nan = v.
Proof.
  unfold column. intros Hin. apply in_map_iff in Hin as (r & <- & Hr).
  destruct (In_nth_lt X r [] Hr) as (i & Hi & <-). eauto.
Qed.

Lemma nth_scaled (i : nat) :
  i < length X -> nth i (map (transform_row s) X) [] = transform_row s (nth i X []).
Proof.
  intros Hi.
  rewrite (nth_indep _ [] (transform_row s [])) by (rewrite length_map; exact Hi).
  apply (map_nth (transform_row s)).
Qed.

(** [data_min_] and [data_max_] hold the smallest and the largest value
    of the column: a value of some row, and a bound of the value of
    every row. *)
Lemma column_extremes (c : nat) (mn mx : Q) :
  c < n_features X ->
  nth c (data_min_ s) f_nan = Some mn -> nth c (data_max_ s) f_nan = Some mx ->
  (exists i, i < length X /\ nth c (nth i X []) f_nan = Some mn) /\
  (exists i, i < length X /\ nth c (nth i X []) f_nan = Some mx) /\
  forall i x, i < length X -> nth c (nth i X []) f_nan = Some x ->
    (mn <= x)%Q /\ (x <= mx)%Q.
Proof.
  intros Hlt Emn Emx.
  destruct (check_array_ok X X Hcheck) as (_ & Hne & Hd & Hlen).
  destruct (fit_ok X Hcheck) as (s' & Hfit' & Hsl & Hcols).
  rewrite Hfit in Hfit'. injection Hfit' as <-.
  destruct (Hcols c Hlt) as (Hmin & Hmax & _).
  assert (Hcp := column_present X c Hpresent Hlen Hlt).
  assert (Hcne : column c X <> []).
  { unfold column. destruct X; [congruence|discriminate]. }
  destruct (nanmin_nanmax_bounds _ Hcp Hcne) as (mn' & mx' & Emn' & Emx' & Hb).
  assert (mn' = mn) by congruence. assert (mx' = mx) by congruence. subst mn' mx'.
  destruct (extremes_attained _ mn mx Hcp Emn' Emx') as (Hinmn & Hinmx).
  split; [exact (In_column c _ Hinmn)|]. split; [exact (In_column c _ Hinmx)|].
  intros i x Hi Ex. apply Hb. rewrite <- Ex. unfold column.
  apply (in_map (fun r => nth c r f_nan)), nth_In, Hi.
Qed.

End Column.

(** X16: on a dataset without missing values the scaled value is
    (x - min) / (max - min), with the minimum and the maximum of the
    column over all rows, or x - min in a column whose range is below
    the threshold [10 * eps].  The minimum and the maximum are values of
    the column, and every value of the column lies between them.  Every
    column holds a scaled value 0, at the rows of its minimum, and a
    column with a range holds a 1, at the rows of its maximum. *)
Theorem scaling_is_the_min_max_formula (X : list (list xreal)) :
  check_array X = Ok X -> no_missing X ->
  exists s Xs,
    fit_transform X = Ok (s, Xs) /\
    length Xs = length X /\
    forall c, c < n_features X ->
      exists mn mx,
        nth c (data_min_ s) f_nan = Some mn /\
        nth c (data_max_ s) f_nan = Some mx /\
        (exists i, i < length X /\ nth c (nth i X []) f_nan = Some mn) /\
        (exists i, i < length X /\ nth c (nth i X []) f_nan = Some mx) /\
        (forall i, i < length X ->
           exists x q,
             nth c (nth i X []) f_nan = Some x /\
             (mn <= x)%Q /\ (x <= mx)%Q /\
             nth c (nth i Xs []) f_nan = Some q /\
             ((tiny <= mx - mn)%Q -> (q == (x - mn) / (mx - mn))%Q) /\
             ((mx - mn < tiny)%Q -> (q == x - mn)%Q)) /\
        (exists i q, i < length X /\
           nth c (nth i Xs []) f_nan = Some q /\ (q == 0)%Q) /\
        ((tiny <= mx - mn)%Q ->
         exists i q, i < length X /\
           nth c (nth i Xs []) f_nan = Some q /\ (q == 1)%Q).
Proof.
  intros Hc Hnm.
  destruct (fit_transform_ok X Hc) as (s & Hfit & Hft).
  exists s, (map (transform_row s) X). split; [exact Hft|].
  split; [apply length_map|].
  intros c Hlt.
  destruct (scaled_column X s Hc Hnm Hfit c Hlt)
    as (mn & mx & k & Emn & Emx & Hinmn & Hinmx & Hk & Hk1 & Hk2 & Hrows).
  destruct tiny_small as [Ht0 _]. fold tiny in Ht0.
  destruct (column_extremes X s Hc Hnm Hfit c mn mx Hlt Emn Emx) as (Hamn & Hamx & Hbd).
  exists mn, mx. split; [exact Emn|]. split; [exact Emx|].
  split; [exact Hamn|]. split; [exact Hamx|]. split; [|split].
  - intros i Hi. destruct (Hrows (nth i X []) (nth_In _ _ Hi)) as (x & q & Ex & Eq & Hq).
    exists x, q. split; [exact Ex|].
    split; [apply (Hbd i x Hi Ex)|]. split; [apply (Hbd i x Hi Ex)|].
    rewrite (nth_scaled X s i Hi).
    split; [exact Eq|]. split.
    + intros Hge. rewrite Hq, (Hk1 Hge). reflexivity.
    + intros Hs. rewrite Hq, (Hk2 Hs). ring.
  - destruct (In_column X c _ Hinmn) as (i & Hi & Ei).
    destruct (Hrows (nth i X []) (nth_In _ _ Hi)) as (x & q & Ex & Eq & Hq).
    rewrite Ei in Ex. injection Ex as <-.
    exists i, q. split; [exact Hi|]. rewrite (nth_scaled X s i Hi).
    split; [exact Eq|]. rewrite Hq. ring.
  - intros Hge. destruct (In_column X c _ Hinmx) as (i & Hi & Ei).
    destruct (Hrows (nth i X []) (nth_In _ _ Hi)) as (x & q & Ex & Eq & Hq).
    rewrite Ei in Ex. injection Ex as <-.
    exists i, q. split; [exact Hi|]. rewrite (nth_scaled X s i Hi).
    split; [exact Eq|]. rewrite Hq, (Hk1 Hge). field. lra.
Qed.

Lemma scaling_is_the_min_max_formula_witness :
  exists s Xs,
    fit_transform six_over_one_exact = Ok (s, Xs) /\
    length Xs = length six_over_one_exact /\
    forall c, c < n_features six_over_one_exact ->
      exists mn mx,
        nth c (data_min_ s) f_nan = Some mn /\
        nth c (data_max_ s) f_nan = Some mx /\
        (exists i, i < length six_over_one_exact /\
           nth c (nth i six_over_one_exact []) f_nan = Some mn) /\
        (exists i, i < length six_over_one_exact /\
           nth c (nth i six_over_one_exact []) f_nan = Some mx) /\
        (forall i, i < length six_over_one_exact ->
           exists x q,
             nth c (nth i six_over_one_exact []) f_nan = Some x /\
             (mn <= x)%Q /\ (x <= mx)%Q /\
             nth c (nth i Xs []) f_nan = Some q /\
             ((tiny <= mx - mn)%Q -> (q == (x - mn) / (mx - mn))%Q) /\
             ((mx - mn < tiny)%Q -> (q == x - mn)%Q)) /\
        (exists i q, i < length six_over_one_exact /\
           nth c (nth i Xs []) f_nan = Some q /\ (q == 0)%Q) /\
        ((tiny <= mx - mn)%Q ->
         exists i q, i < length six_over_one_exact /\
           nth c (nth i Xs []) f_nan = Some q /\ (q == 1)%Q).
Proof.
  apply (scaling_is_the_min_max_formula six_over_one_exact).
  - reflexivity.
  - repeat constructor; eexists; reflexivity.
Defined.

(** X17: scaling keeps the order of the values of a column: one row has the
    smaller value before scaling exactly when it has the smaller value
    after. *)
Theorem scaling_preserves_order (X : list (list xreal)) :
  check_array X = Ok X -> no_missing X ->
  exists s Xs,
    fit_transform X = Ok (s, Xs) /\
    forall c i j, c < n_features X -> i < length X -> j < length X ->
      exists xi xj qi qj,
        nth c (nth i X []) f_nan = Some xi /\
        nth c (nth j X []) f_nan = Some xj /\
        nth c (nth i Xs []) f_nan = Some qi /\
        nth c (nth j Xs []) f_nan = Some qj /\
        ((xi <= xj)%Q <-> (qi <= qj)%Q).
Proof.
  intros Hc Hnm.
  destruct (fit_transform_ok X Hc) as (s & Hfit & Hft).
  exists s, (map (transform_row s) X). split; [exact Hft|].
  intros c i j Hlt Hi Hj.
  destruct (scaled_column X s Hc Hnm Hfit c Hlt)
    as (mn & mx & k & _ & _ & _ & _ & Hk & _ & _ & Hrows).
  destruct (Hrows (nth i X []) (nth_In _ _ Hi)) as (xi & qi & Exi & Eqi & Hqi).
  destruct (Hrows (nth j X []) (nth_In _ _ Hj)) as (xj & qj & Exj & Eqj & Hqj).
  exists xi, xj, qi, qj. rewrite !(nth_scaled X s) by assumption.
  repeat (split; [assumption|]).
  rewrite Hqi, Hqj. rewrite (Qmult_le_r _ _ k Hk). split; intros Hle; lra.
Qed.

Lemma scaling_preserves_order_witness :
  exists s Xs,
    fit_transform six_over_one_exact = Ok (s, Xs) /\
    forall c i j, c < n_features six_over_one_exact ->
      i < length six_over_one_exact -> j < length six_over_one_exact ->
      exists xi xj qi qj,
        nth c (nth i six_over_one_exact []) f_nan = Some xi /\
        nth c (nth j six_over_one_exact []) f_nan = Some xj /\
        nth c (nth i Xs []) f_nan = Some qi /\
        nth c (nth j Xs []) f_nan = Some qj /\
        ((xi <= xj)%Q <-> (qi <= qj)%Q).
Proof.
  apply (scaling_preserves_order six_over_one_exact).
  - reflexivity.
  - repeat constructor; eexists; reflexivity.
Defined.

End ScalingFormulaFacts.

(** ** Rows and labels through the split *)

Module SplitPairingFacts.
Import ModelSelection SplitFacts.

Section Pairs.
Context {R : Type} `{RandomState R} {Laws : RandomStateLaws R}.

(** X18: the split keeps every row with its label: the (row, label) pairs of
    the train part and of the test part together are the pairs of the
    dataset, each once, and each part has as many rows as labels. *)
Theorem split_keeps_rows_with_labels {A} (d : A) (X : list A) (y : list nat)
    (seed : nat) (sp : split A) :
  train_test_split d X y (2 # 10) seed = Ok sp ->
  Permutation (combine (X_train sp) (y_train sp) ++ combine (X_test sp) (y_test sp))
              (combine X y) /\
  length (X_train sp) = length (y_train sp) /\
  length (X_test sp) = length (y_test sp).
Proof.
  intros Hsp.
  destruct (train_test_split_spec d X y seed sp Hsp)
    as (Hlen & -> & -> & -> & -> & Hperm & _).
  unfold safe_indexing. split; [|rewrite !length_map; split; reflexivity].
  rewrite !ReportFacts.combine_map_map, <- map_app.
  assert (Hall : combine X y
                 = map (fun i => (nth i X d, nth i y 0)) (seq 0 (length y))).
  { rewrite <- (ReportFacts.combine_map_map (fun i => nth i X d) (fun i => nth i y 0)).
    rewrite map_nth_seq. rewrite <- Hlen, map_nth_seq_gen. reflexivity. }
  rewrite Hall. apply Permutation_map, Hperm.
Qed.

End Pairs.

Lemma split_keeps_rows_with_labels_witness :
  exists sp,
    train_test_split (R:=nat) 0 (seq 100 10) ten_labels (2 # 10) 42 = Ok sp /\
    Permutation (combine (X_train sp) (y_train sp) ++ combine (X_test sp) (y_test sp))
                (combine (seq 100 10) ten_labels) /\
    length (X_train sp) = length (y_train sp) /\
    length (X_test sp) = length (y_test sp).
Proof.
  eexists. split; [vm_compute; reflexivity|].
  apply (split_keeps_rows_with_labels (Laws:=CounterRandomLaws) 0 (seq 100 10)
           ten_labels 42).
  vm_compute. reflexivity.
Defined.

Lemma bincount_In (y : list nat) (L : nat) :
  In L y -> In (count_occ Nat.eq_dec y L) (bincount (unique y) y).
Proof.
  intros HL. unfold bincount. apply in_map_iff. exists L.
  split; [reflexivity|apply unique_In, HL].
Qed.

(** X19: the split of cell 9 refuses a dataset whose rows and labels differ
    in number, an empty dataset, and a dataset with a class of a single
    sample: it raises a [ValueError] and returns no part. *)
Theorem split_refuses_a_class_of_one {R : Type} `{RandomState R} {A} (d : A)
    (X : list A) (y : list nat) (seed : nat) :
  (length X <> length y ->
   train_test_split (R:=R) d X y (2 # 10) seed
   = Raise (ValueError "Found input variables with inconsistent numbers of samples")) /\
  (length X = length y -> length y = 0 \/ (exists L, count_occ Nat.eq_dec y L = 1) ->
   exists msg, train_test_split (R:=R) d X y (2 # 10) seed = Raise (ValueError msg)).
Proof.
  unfold train_test_split. split.
  - intros Hne. apply Nat.eqb_neq in Hne. rewrite Hne. reflexivity.
  - intros Hlen Hbad. rewrite Hlen, Nat.eqb_refl. cbn [negb].
    rewrite validate_shuffle_split_eq.
    destruct (length y - (length y + 4) / 5 =? 0) eqn:E0; [eauto|].
    cbn [res_bind fst snd].
    destruct Hbad as [H0|(L & HL)].
    { rewrite H0 in E0. discriminate. }
    unfold stratified_shuffle_split.
    assert (Hex : existsb (fun c => c <? 2) (bincount (unique y) y) = true).
    { apply existsb_exists. exists 1. split; [|reflexivity].
      rewrite <- HL. apply bincount_In.
      apply (count_occ_In Nat.eq_dec). lia. }
    rewrite Hex. eauto.
Qed.

End SplitPairingFacts.

(** ** The grid *)

Module GridFacts.
Import Notebook.

Lemma nth_error_flat_map_uniform {A B} (f : A -> list B) (m : nat) (l : list A) :
  (forall a, length (f a) = m) ->
  forall i j, j < m ->
    nth_error (flat_map f l) (i * m + j)
    = match nth_error l i with
      | Some a => nth_error (f a) j
      | None => None
      end.
Proof.
  intros Hm. induction l as [|a l IH]; intros i j Hj.
  - cbn [flat_map]. destruct i; rewrite nth_error_nil; reflexivity.
  - cbn [flat_map]. destruct i as [|i].
    + cbn [Nat.mul Nat.add nth_error]. apply nth_error_app1. rewrite Hm. exact Hj.
    + rewrite nth_error_app2 by (rewrite Hm; lia).
      replace (S i * m + j - length (f a)) with (i * m + j) by (rewrite Hm; lia).
      cbn [nth_error]. apply IH, Hj.
Qed.

Lemma length_flat_map_uniform {A B} (f : A -> list B) (m : nat) (l : list A) :
  (forall a, length (f a) = m) -> length (flat_map f l) = length l * m.
Proof.
  intros Hm. induction l as [|a l IH]; [reflexivity|].
  cbn [flat_map length]. rewrite length_app, Hm, IH. lia.
Qed.

(** X20: [ParameterGrid] enumerates the product of the three value lists:
    as many candidates as the product of their lengths, a candidate
    being in the grid exactly when each of its values is in its list;
    the kernel varies fastest and C slowest. *)
Theorem parameter_grid_is_the_product (g : param_grid_t) :
  length (ParameterGrid g)
  = length (grid_C g) * length (grid_gamma g) * length (grid_kernel g) /\
  (forall c, In c (ParameterGrid g)
             <-> In (p_C c) (grid_C g) /\ In (p_gamma c) (grid_gamma g)
                 /\ In (p_kernel c) (grid_kernel g)) /\
  (forall a b k vC vg vk,
     nth_error (grid_C g) a = Some vC ->
     nth_error (grid_gamma g) b = Some vg ->
     nth_error (grid_kernel g) k = Some vk ->
     nth_error (ParameterGrid g)
               ((a * length (grid_gamma g) + b) * length (grid_kernel g) + k)
     = Some {| p_C := vC; p_gamma := vg; p_kernel := vk |}).
Proof.
  pose (inner := fun (c : Q) (gm : gamma) =>
                   map (fun k => {| p_C := c; p_gamma := gm; p_kernel := k |})
                       (grid_kernel g)).
  pose (middle := fun c : Q => flat_map (inner c) (grid_gamma g)).
  assert (Hgrid : ParameterGrid g = flat_map middle (grid_C g)) by reflexivity.
  rewrite Hgrid. clear Hgrid.
  assert (Hinner : forall c gm, length (inner c gm) = length (grid_kernel g)).
  { intros c gm. apply length_map. }
  assert (Hmiddle : forall c, length (middle c)
                              = length (grid_gamma g) * length (grid_kernel g)).
  { intros c. apply length_flat_map_uniform, Hinner. }
  split; [|split].
  - rewrite (length_flat_map_uniform middle _ (grid_C g) Hmiddle). lia.
  - intros [vC vg vk]. cbn [p_C p_gamma p_kernel]. rewrite in_flat_map. split.
    + intros (c & Hc & Hin). unfold middle in Hin.
      apply in_flat_map in Hin as (gm & Hgm & Hin). unfold inner in Hin.
      apply in_map_iff in Hin as (k & [= <- <- <-] & Hk). auto.
    + intros (Hc & Hgm & Hk). exists vC. split; [exact Hc|].
      unfold middle. apply in_flat_map. exists vg. split; [exact Hgm|].
      unfold inner. apply in_map_iff. exists vk. split; [reflexivity|exact Hk].
  - intros a b k vC vg vk Ha Hb Hk.
    assert (Hkl : k < length (grid_kernel g)) by (apply nth_error_Some; congruence).
    assert (Hbl : b < length (grid_gamma g)) by (apply nth_error_Some; congruence).
    replace ((a * length (grid_gamma g) + b) * length (grid_kernel g) + k)
      with (a * (length (grid_gamma g) * length (grid_kernel g))
            + (b * length (grid_kernel g) + k)) by lia.
    rewrite (nth_error_flat_map_uniform middle _ (grid_C g) Hmiddle) by nia.
    rewrite Ha. unfold middle.
    rewrite (nth_error_flat_map_uniform (inner vC) _ (grid_gamma g) (Hinner vC))
      by exact Hkl.
    rewrite Hb. unfold inner. rewrite nth_error_map, Hk. reflexivity.
Qed.

End GridFacts.

(** ** The cells, one after the other *)

Module CellFacts.
Import Notebook AccuracyFacts.

(** What [accuracy_score] returns when it returns. *)
Lemma accuracy_score_ok (y_true y_pred : list nat) (a : xreal) :
  Metrics.accuracy_score y_true y_pred = Ok a ->
  length y_true = length y_pred /\ 0 < length y_true /\
  a = Some (inject_Z (Z.of_nat (agreements y_true y_pred))
            / inject_Z (Z.of_nat (length y_true)))%Q /\
  ScalerFacts.in_unit_interval a.
Proof.
  unfold Metrics.accuracy_score.
  destruct (length y_true =? length y_pred) eqn:E; cbn [negb]; [|discriminate].
  destruct (length y_true =? 0) eqn:E0; [discriminate|].
  apply Nat.eqb_eq in E. apply Nat.eqb_neq in E0.
  assert (Hpos : 0 < length y_true) by lia.
  fold (agreements y_true y_pred). rewrite xdiv_nat by exact Hpos. intros Ha.
  assert (Ea : a = Some (inject_Z (Z.of_nat (agreements y_true y_pred))
                         / inject_Z (Z.of_nat (length y_true)))%Q)
    by congruence.
  split; [exact E|]. split; [exact Hpos|]. split; [exact Ea|]. subst a.
  destruct (fraction_bounds (agreements y_true y_pred) (length y_true)
              (agreements_le y_true y_pred) Hpos) as (H0 & H1 & _).
  eexists. split; [reflexivity|]. split; assumption.
Qed.

Section Cells.
Context {F R : Type} `{Float64 F} `{RandomState R} `{Learner F R}.
Variables (X_train : list (list F)) (y_train : list nat).
Variables (X_test : list (list F)) (y_test : list nat).

Lemma score_outcome_ok (e : estimator) (a : xreal) :
  NotebookFacts.score_outcome X_train y_train X_test y_test e = Ok a ->
  0 < length X_test /\ 0 < length y_test /\ ScalerFacts.in_unit_interval a.
Proof.
  unfold NotebookFacts.score_outcome, NotebookFacts.predict_outcome.
  destruct (NotebookFacts.fit_outcome X_train y_train e) as [m|]; cbn [res_bind];
    [|discriminate].
  destruct (length X_test =? 0) eqn:E0; cbn [res_bind]; [discriminate|].
  apply Nat.eqb_neq in E0.
  destruct (model_predict m X_test) as [y_pred|]; cbn [res_bind]; [|discriminate].
  intros Ha. apply accuracy_score_ok in Ha. split; [lia|]. tauto.
Qed.

(** X21: when cell 11 returns, the test set is not empty, and [results]
    holds exactly three accuracies, under the keys "SVM", "KNN" and
    "Random Forest" in this order, whatever it held before; each of them
    lies between 0 and 1. *)
Theorem cell11_records_three_accuracies (st : kernel_state) :
  fst (cell11 X_train y_train X_test y_test st) = Ok tt ->
  0 < length X_test /\ 0 < length y_test /\
  exists a1 a2 a3,
    results (snd (cell11 X_train y_train X_test y_test st))
    = [("SVM", a1); ("KNN", a2); ("Random Forest", a3)] /\
    ScalerFacts.in_unit_interval a1 /\ ScalerFacts.in_unit_interval a2 /\
    ScalerFacts.in_unit_interval a3.
Proof.
  destruct (NotebookFacts.cell11_outcome X_train y_train X_test y_test st) as (Ho & Hr & _).
  cbv zeta in Hr. rewrite Ho, Hr. unfold NotebookFacts.three_models.
  cbn [NotebookFacts.loop_outcome].
  destruct (NotebookFacts.score_outcome X_train y_train X_test y_test
              (SVC {| svc_C := 10; svc_kernel := rbf; svc_gamma := gamma_scale;
                      svc_random_state := Some 42 |})) as [a1|] eqn:E1;
    [|discriminate].
  destruct (NotebookFacts.score_outcome X_train y_train X_test y_test (KNeighborsClassifier 5))
    as [a2|] eqn:E2; [|discriminate].
  destruct (NotebookFacts.score_outcome X_train y_train X_test y_test
              (RandomForestClassifier 100 (Some 42))) as [a3|] eqn:E3;
    [|discriminate].
  intros _. apply score_outcome_ok in E1, E2, E3.
  split; [apply E1|]. split; [apply E1|].
  exists a1, a2, a3. split; [reflexivity|]. tauto.
Qed.


(** X22: the accuracy cell 11 records for the SVM is the one that can be
    read off the confusion matrix cell 13 computes afterwards: the sum
    of its diagonal over the sum of its entries. *)
Theorem svm_accuracy_matches_confusion_matrix (st : kernel_state) :
  fst (cell11 X_train y_train X_test y_test st) = Ok tt -> 0 < length y_test ->
  exists cm,
    fst (cell13 X_test y_test (snd (cell11 X_train y_train X_test y_test st))) = Ok cm /\
    dict_get "SVM" (results (snd (cell11 X_train y_train X_test y_test st)))
    = Some (Some (inject_Z (Z.of_nat (trace cm))
                  / inject_Z (Z.of_nat (MetricsFacts.total cm)))%Q).
Proof.
  intros Hok Hpos.
  destruct (NotebookFacts.cell11_outcome X_train y_train X_test y_test st)
    as (Ho & Hr & _ & _ & Hf).
  cbv zeta in Hr, Hf. specialize (Hf Hok).
  unfold cell13.
  rewrite (NotebookFacts.evaluate_fitted X_train y_train X_test y_test _
             NotebookFacts.three_models "SVM" Hf).
  rewrite Hr. rewrite Ho in Hok. revert Hok.
  assert (Hget : dict_get "SVM" NotebookFacts.three_models
                 = Some (SVC {| svc_C := 10; svc_kernel := rbf; svc_gamma := gamma_scale;
                                svc_random_state := Some 42 |})) by reflexivity.
  unfold NotebookFacts.evaluate_outcome. rewrite Hget. clear Hget.
  unfold NotebookFacts.three_models. cbn [NotebookFacts.loop_outcome].
  destruct (NotebookFacts.score_outcome X_train y_train X_test y_test
              (SVC {| svc_C := 10; svc_kernel := rbf; svc_gamma := gamma_scale;
                      svc_random_state := Some 42 |})) as [a1|] eqn:E1;
    [|discriminate].
  destruct (NotebookFacts.score_outcome X_train y_train X_test y_test
              (KNeighborsClassifier 5)) as [a2|]; [|discriminate].
  destruct (NotebookFacts.score_outcome X_train y_train X_test y_test
              (RandomForestClassifier 100 (Some 42))) as [a3|]; [|discriminate].
  intros _. cbn [snd].
  assert (Hres : dict_get "SVM" (dict_set "Random Forest" a3
                                   (dict_set "KNN" a2 (dict_set "SVM" a1 [])))
                 = Some a1) by reflexivity.
  rewrite Hres. clear Hres.
  unfold NotebookFacts.score_outcome in E1.
  destruct (NotebookFacts.fit_outcome X_train y_train
              (SVC {| svc_C := 10; svc_kernel := rbf; svc_gamma := gamma_scale;
                      svc_random_state := Some 42 |})) as [m|];
    cbn [res_bind] in E1 |- *; [|discriminate].
  destruct (NotebookFacts.predict_outcome X_test m) as [y_pred|];
    cbn [res_bind] in E1 |- *; [|discriminate].
  destruct (accuracy_score_ok _ _ _ E1) as (Hlen & _ & Ea & _).
  destruct (confusion_matrix_ok y_test y_pred Hlen Hpos) as (Hcm & Htot).
  pose proof (confusion_matrix_trace y_test y_pred) as Htr.
  cbv zeta in Hcm, Htot, Htr.
  eexists. split; [exact Hcm|]. rewrite Htr, Htot. f_equal. exact Ea.
Qed.

End Cells.

Lemma svm_accuracy_matches_confusion_matrix_witness :
  exists cm,
    fst (cell13 NotebookFacts.twelve_rows NotebookFacts.two_classes
           (snd (cell11 NotebookFacts.twelve_rows NotebookFacts.two_classes
                   NotebookFacts.twelve_rows NotebookFacts.two_classes
                   NotebookFacts.fresh_kernel))) = Ok cm /\
    dict_get "SVM"
      (results (snd (cell11 NotebookFacts.twelve_rows NotebookFacts.two_classes
                       NotebookFacts.twelve_rows NotebookFacts.two_classes
                       NotebookFacts.fresh_kernel)))
    = Some (Some (inject_Z (Z.of_nat (trace cm))
                  / inject_Z (Z.of_nat (MetricsFacts.total cm)))%Q).
Proof.
  apply (svm_accuracy_matches_confusion_matrix NotebookFacts.twelve_rows
           NotebookFacts.two_classes NotebookFacts.twelve_rows NotebookFacts.two_classes
           NotebookFacts.fresh_kernel).
  - vm_compute. reflexivity.
  - cbn. lia.
Defined.

Lemma cell11_records_three_accuracies_witness :
  0 < length NotebookFacts.twelve_rows /\ 0 < length NotebookFacts.two_classes /\
  exists a1 a2 a3,
    results (snd (cell11 NotebookFacts.twelve_rows NotebookFacts.two_classes
                    NotebookFacts.twelve_rows NotebookFacts.two_classes
                    NotebookFacts.fresh_kernel))
    = [("SVM", a1); ("KNN", a2); ("Random Forest", a3)] /\
    ScalerFacts.in_unit_interval a1 /\ ScalerFacts.in_unit_interval a2 /\
    ScalerFacts.in_unit_interval a3.
Proof.
  apply (cell11_records_three_accuracies NotebookFacts.twelve_rows
           NotebookFacts.two_classes NotebookFacts.twelve_rows NotebookFacts.two_classes
           NotebookFacts.fresh_kernel).
  vm_compute. reflexivity.
Defined.

(** The run of the third part of X23: cell 11 on a training set of one
    class, then cell 13. *)
Lemma cell13_after_failed_training :
  let st := snd (cell11 NotebookFacts.twelve_rows NotebookFacts.one_class
                   NotebookFacts.twelve_rows NotebookFacts.one_class
                   NotebookFacts.fresh_kernel) in
  fst (cell13 NotebookFacts.twelve_rows NotebookFacts.one_class st)
  = Raise (AttributeError "'SVC' object has no attribute 'support_vectors_'").
Proof. vm_compute. reflexivity. Qed.

End CellFacts.

(** ** The refit of the grid search *)

Module RefitFacts.
Import Notebook.

Section Refit.
Context {F R : Type} `{Float64 F} `{RandomState R} `{Learner F R}.
Variables (X : list (list F)) (y : list nat).

(** The parameters [set_params] gives an [SVC] for a candidate. *)
Definition with_candidate (p : svc_params) (c : candidate) : svc_params :=
  {| svc_C := p_C c; svc_kernel := p_kernel c; svc_gamma := p_gamma c;
     svc_random_state := svc_random_state p |}.

Lemma clone_best_params (r : nat) (st : kernel_state) :
  best_params_ (snd (clone r st)) = best_params_ st.
Proof.
  unfold clone, bind, deref. destruct (heap st !! r); reflexivity.
Qed.

Lemma set_params_svc (r : nat) (c : candidate) (p : svc_params)
    (fm : option fitted_model) (st : kernel_state) :
  heap st !! r = Some {| params := SVC p; fitted := fm |} ->
  set_params r c st
  = (Ok tt, set_heap (<[r := {| params := SVC (with_candidate p c); fitted := fm |}]>
                        (heap st)) st).
Proof.
  intros Hr. unfold set_params, bind, deref. rewrite Hr. reflexivity.
Qed.

(** A fit of an [SVC] that returns has stored a model of libsvm for the
    parameters of the object, and has left [best_params_] alone. *)
Lemma fit_svc_ok (r : nat) (p : svc_params) (fm : option fitted_model)
    (st : kernel_state) :
  heap st !! r = Some {| params := SVC p; fitted := fm |} ->
  fst (fit r X y st) = Ok tt ->
  best_params_ (snd (fit r X y st)) = best_params_ st /\
  exists m g,
    heap (snd (fit r X y st)) !! r = Some {| params := SVC p; fitted := Some m |} /\
    fst (libsvm_fit p g X y) = Ok m.
Proof.
  intros Hr. unfold fit, bind, deref. rewrite Hr. cbn [params].
  destruct (length (ModelSelection.unique y) <? 2); [discriminate|].
  unfold with_random_state. destruct (svc_random_state p) as [n|].
  - unfold lift. destruct (fst (libsvm_fit p (rs_seed n) X y)) as [m|e] eqn:Em;
      [|discriminate].
    intros _. cbn [fst snd store modify best_params_ set_heap heap].
    split; [reflexivity|]. exists m, (rs_seed n).
    split; [apply lookup_insert_eq|exact Em].
  - destruct (libsvm_fit p (np_random st) X y) as [[m|e] g] eqn:Em; [|discriminate].
    intros _. cbn [fst snd store modify best_params_ set_heap set_np_random heap].
    split; [reflexivity|]. exists m, (np_random st).
    split; [apply lookup_insert_eq|]. rewrite Em. reflexivity.
Qed.

Lemma GridSearchCV_fit_refit (st : kernel_state) (estimator : nat) (p : svc_params)
    (fm : option fitted_model) (best : candidate) :
  heap st !! estimator = Some {| params := SVC p; fitted := fm |} ->
  fst (GridSearchCV_fit estimator param_grid 3 X y st) = Ok best ->
  best_params_ (snd (GridSearchCV_fit estimator param_grid 3 X y st)) = Some best /\
  In best (ParameterGrid param_grid) /\
  exists r m g,
    heap st !! r = None /\
    heap (snd (GridSearchCV_fit estimator param_grid 3 X y st)) !! r
    = Some {| params := SVC (with_candidate p best); fitted := Some m |} /\
    fst (libsvm_fit (with_candidate p best) g X y) = Ok m.
Proof.
  intros He. unfold GridSearchCV_fit, bind, lift, ret, throw.
  destruct (KFold.split 3 y) as [folds|e]; [|discriminate].
  set (D := dom (heap st)).
  assert (Hu : NotebookFacts.untouched D st st).
  { apply NotebookFacts.untouched_refl. intros r Hr. apply elem_of_dom. exact Hr. }
  destruct (NotebookFacts.clone_untouched D st st estimator _ Hu He)
    as (base & Hb & HbD & Hhb & _ & Hu1).
  destruct (clone estimator st) as [rb st1].
  cbn [fst snd params] in Hb, Hhb, Hu1. subst rb.
  set (D' := D ∪ {[base]}).
  assert (HDD' : D ⊆ D') by set_solver.
  assert (Hu1' : NotebookFacts.untouched D' st1 st1).
  { apply NotebookFacts.untouched_refl. intros r Hr.
    apply elem_of_union in Hr as [Hr|Hr].
    - destruct Hu1 as (Hh & _). destruct (Hh r Hr) as [Hs ->]. exact Hs.
    - apply elem_of_singleton in Hr. subst r. rewrite Hhb. eauto. }
  assert (HbD' : base ∈ D') by set_solver.
  destruct (NotebookFacts.evaluate_candidates_ok D' st1 st1 base X y
              (ParameterGrid param_grid) folds p None Hu1' HbD' Hhb)
    as (out & Hout & _ & _ & Hu2).
  destruct (evaluate_candidates base X y (ParameterGrid param_grid) folds st1)
    as [rout st2]. cbn [fst snd] in Hout, Hu2. subst rout.
  destruct (length (concat out) <? 1); [discriminate|].
  destruct (forallb snd (concat out)); [discriminate|].
  destruct (nth_error (ParameterGrid param_grid) (best_index out))
    as [best'|] eqn:En; [|discriminate].
  unfold modify.
  assert (Hu3 : NotebookFacts.untouched D' st1 (set_best_params (Some best') st2))
    by exact Hu2.
  assert (Hb3 : heap (set_best_params (Some best') st2) !! base
                = Some {| params := SVC p; fitted := None |}).
  { destruct Hu3 as (Hh & _). destruct (Hh base HbD') as [_ ->]. exact Hhb. }
  destruct (NotebookFacts.clone_untouched D' st1 _ base _ Hu3 Hb3)
    as (r & Hr & HrD & Hhr & _ & _).
  pose proof (clone_best_params base (set_best_params (Some best') st2)) as Hbp.
  destruct (clone base (set_best_params (Some best') st2)) as [rr st4].
  cbn [fst snd params best_params_ set_best_params] in Hr, Hhr, Hbp. subst rr.
  rewrite (set_params_svc r best' p None st4 Hhr).
  set (st5 := set_heap (<[r := {| params := SVC (with_candidate p best');
                                 fitted := None |}]> (heap st4)) st4).
  assert (Hr5 : heap st5 !! r
                = Some {| params := SVC (with_candidate p best'); fitted := None |})
    by apply lookup_insert_eq.
  pose proof (fit_svc_ok r (with_candidate p best') None st5 Hr5) as Hfit.
  destruct (fit r X y st5) as [[u|e] st6]; [|discriminate].
  destruct u. specialize (Hfit eq_refl). cbn [fst snd] in Hfit |- *.
  destruct Hfit as (Hbp6 & m & g & Hm & Hg).
  intros [= <-]. split; [|split].
  - rewrite Hbp6. exact Hbp.
  - eapply nth_error_In, En.
  - exists r, m, g. split; [|split; assumption].
    apply not_elem_of_dom. fold D. intros HrDom. apply HrD. apply HDD'. exact HrDom.
Qed.

(** X24: when the grid search of cell 17 returns, [best_params_] holds the
    combination it returns, one of the grid, and the heap holds a new
    [SVC] with that combination as parameters, fitted by libsvm on the
    whole training set ([refit=True]). *)
Theorem grid_search_refits_the_winner (st : kernel_state) (best : candidate) :
  fst (cell17 X y st) = Ok best ->
  best_params_ (snd (cell17 X y st)) = Some best /\
  In best (ParameterGrid param_grid) /\
  exists r m g,
    heap st !! r = None /\
    heap (snd (cell17 X y st)) !! r
    = Some {| params := SVC (with_candidate SVC_default best); fitted := Some m |} /\
    fst (libsvm_fit (with_candidate SVC_default best) g X y) = Ok m.
Proof.
  pose (svc := fresh (dom (heap st))).
  pose (st1 := set_best_params None
                 (set_heap (<[svc := {| params := SVC SVC_default; fitted := None |}]>
                              (heap st))
                    (set_half_fitted (half_fitted st ∖ {[svc]}) st))).
  change (cell17 X y st) with (GridSearchCV_fit svc param_grid 3 X y st1).
  intros Hok.
  destruct (GridSearchCV_fit_refit st1 svc SVC_default None best) as (Hbp & Hin & Hobj).
  { apply lookup_insert_eq. }
  { exact Hok. }
  split; [exact Hbp|]. split; [exact Hin|].
  destruct Hobj as (r & m & g & Hnew & Hr & Hg).
  exists r, m, g. split; [|split; assumption].
  destruct (heap st !! r) as [o|] eqn:Eo; [|reflexivity].
  assert (Hne : r <> svc).
  { intros ->. pose proof (is_fresh (dom (heap st))) as Hf. fold svc in Hf.
    apply Hf, elem_of_dom. rewrite Eo. eauto. }
  change (heap st1) with (<[svc := {| params := SVC SVC_default; fitted := None |}]>
                            (heap st)) in Hnew.
  rewrite lookup_insert_ne in Hnew by congruence.
  congruence.
Qed.

End Refit.

Lemma grid_search_refits_the_winner_witness :
  exists best,
    fst (cell17 NotebookFacts.twelve_rows NotebookFacts.two_classes
           NotebookFacts.fresh_kernel) = Ok best /\
    best_params_ (snd (cell17 NotebookFacts.twelve_rows NotebookFacts.two_classes
                         NotebookFacts.fresh_kernel)) = Some best /\
    In best (ParameterGrid param_grid) /\
    exists r m g,
      heap NotebookFacts.fresh_kernel !! r = None /\
      heap (snd (cell17 NotebookFacts.twelve_rows NotebookFacts.two_classes
                   NotebookFacts.fresh_kernel)) !! r
      = Some {| params := SVC (with_candidate SVC_default best); fitted := Some m |} /\
      fst (libsvm_fit (with_candidate SVC_default best) g
             NotebookFacts.twelve_rows NotebookFacts.two_classes) = Ok m.
Proof.
  eexists. split; [vm_compute; reflexivity|].
  apply (grid_search_refits_the_winner NotebookFacts.twelve_rows
           NotebookFacts.two_classes NotebookFacts.fresh_kernel).
  vm_compute. reflexivity.
Defined.

End RefitFacts.

(** ** A grid search without folds *)

Module SearchRefusalFacts.
Import KFold KFoldFacts StratifiedFoldFacts Notebook.

Lemma first_seen_NoDup (y : list nat) : List.NoDup (first_seen y).
Proof. unfold first_seen. apply List.NoDup_rev, NoDup_nodup. Qed.

Lemma index_of_nth (l : list nat) (k : nat) :
  List.NoDup l -> k < length l -> index_of (nth k l 0) l = k.
Proof.
  intros Hnd. revert k. induction Hnd as [|x l Hx Hnd IH]; intros k Hk;
    [cbn in Hk; lia|].
  destruct k as [|k]; cbn [nth index_of].
  - rewrite Nat.eqb_refl. reflexivity.
  - cbn [length] in Hk. destruct (x =? nth k l 0) eqn:E.
    + apply Nat.eqb_eq in E. exfalso. apply Hx. rewrite E. apply nth_In. lia.
    + f_equal. apply IH. lia.
Qed.

(** The counts of the encoded classes are the counts of the labels. *)
Lemma y_counts_are_label_counts (y : list nat) (c : nat) :
  In c (y_counts y) -> exists L, In L y /\ c = count_occ Nat.eq_dec y L.
Proof.
  unfold y_counts. intros Hin. apply in_map_iff in Hin as (k & <- & Hk).
  apply in_seq in Hk.
  assert (HL : In (nth k (first_seen y) 0) y) by (apply first_seen_In, nth_In; lia).
  exists (nth k (first_seen y) 0). split; [exact HL|].
  rewrite <- (encode_count y _ HL).
  rewrite index_of_nth by (try apply first_seen_NoDup; lia). reflexivity.
Qed.

Section Search.
Context {F R : Type} `{Float64 F} `{RandomState R} `{Learner F R}.
Variables (X : list (list F)) (y : list nat).

(** X25: on a training set with fewer than 3 samples, or with fewer than 3
    samples of every class, the fold splitter raises a [ValueError]
    and cell 17 raises it before any fit: the objects of the kernel,
    [models], [results] and the global generator are what they were,
    and the new search object has no [best_params_], whatever an earlier
    search had found. *)
Theorem grid_search_refuses_small_classes (st : kernel_state) :
  length y < 3 \/ (forall L, count_occ Nat.eq_dec y L < 3) ->
  exists msg,
    split 3 y = Raise (ValueError msg) /\
    fst (cell17 X y st) = Raise (ValueError msg) /\
    (forall r o, heap st !! r = Some o -> heap (snd (cell17 X y st)) !! r = Some o) /\
    np_random (snd (cell17 X y st)) = np_random st /\
    models (snd (cell17 X y st)) = models st /\
    results (snd (cell17 X y st)) = results st /\
    best_params_ (snd (cell17 X y st)) = None.
Proof.
  intros Hsmall.
  assert (Hsplit : exists msg, split 3 y = Raise (ValueError msg)).
  { unfold split. destruct (length y <? 3) eqn:El; [eauto|].
    apply Nat.ltb_ge in El. destruct Hsmall as [Hl|Hc]; [lia|].
    unfold make_test_folds. fold (y_counts y).
    assert (Hall : forallb (fun c => c <? 3) (y_counts y) = true).
    { apply forallb_forall. intros c Hin.
      destruct (y_counts_are_label_counts y c Hin) as (L & _ & ->).
      apply Nat.ltb_lt, Hc. }
    rewrite Hall. cbn [res_bind]. eauto. }
  destruct Hsplit as (msg & Hsplit). exists msg. split; [exact Hsplit|].
  unfold cell17, bind, new, modify, GridSearchCV_fit, bind, lift. rewrite Hsplit.
  cbn [fst snd heap np_random models results best_params_ set_heap set_half_fitted
       set_best_params].
  split; [reflexivity|]. split; [|repeat split; reflexivity].
  intros r o Ho. rewrite lookup_insert_ne; [exact Ho|].
  intros <-. apply (is_fresh (dom (heap st))), elem_of_dom. rewrite Ho. eauto.
Qed.

End Search.

(** The kernel after a search that found a winner. *)
Definition searched_kernel : kernel_state (F:=xreal) (R:=nat) :=
  snd (cell17 NotebookFacts.twelve_rows NotebookFacts.two_classes
         NotebookFacts.fresh_kernel).

Lemma grid_search_refuses_small_classes_witness :
  best_params_ searched_kernel <> None /\
  exists msg,
    split 3 [0; 0; 1; 1] = Raise (ValueError msg) /\
    fst (cell17 (repeat [Some 0%Q] 4) [0; 0; 1; 1] searched_kernel)
    = Raise (ValueError msg) /\
    (forall r o,
       heap searched_kernel !! r = Some o ->
       heap (snd (cell17 (repeat [Some 0%Q] 4) [0; 0; 1; 1] searched_kernel))
         !! r = Some o) /\
    np_random (snd (cell17 (repeat [Some 0%Q] 4) [0; 0; 1; 1] searched_kernel))
    = np_random searched_kernel /\
    models (snd (cell17 (repeat [Some 0%Q] 4) [0; 0; 1; 1] searched_kernel))
    = models searched_kernel /\
    results (snd (cell17 (repeat [Some 0%Q] 4) [0; 0; 1; 1] searched_kernel))
    = results searched_kernel /\
    best_params_ (snd (cell17 (repeat [Some 0%Q] 4) [0; 0; 1; 1] searched_kernel))
    = None.
Proof.
  split; [vm_compute; discriminate|].
  apply (grid_search_refuses_small_classes (repeat [Some 0%Q] 4) [0; 0; 1; 1]
           searched_kernel).
  right. intros L. destruct L as [|[|L]]; cbn; lia.
Defined.

End SearchRefusalFacts.

(** ** Cell 9 in the arithmetic of the data

    The facts above are stated for exact arithmetic.  The facts of this
    part hold in every arithmetic that keeps the laws of [Float64Laws],
    binary64 among them, and for every generator that keeps the laws of
    [RandomStateLaws]. *)

Module Cell9Facts.
Import MinMaxScaler ModelSelection Preprocessor SplitFacts PreprocessorFacts.

Section Scaler.
Context {F : Type} `{Float64 F}.

(** What [check_array] accepts. *)
Lemma check_array_spec (X X' : list (list F)) :
  check_array X = Ok X' ->
  X' = X /\ X <> [] /\ 0 < n_features X /\
  Forall (fun r => length r = n_features X) X /\
  existsb (existsb f_isinf) X = false.
Proof.
  unfold check_array. destruct X as [|r0 X0]; [discriminate|].
  destruct (forallb (fun r => length r =? length r0) (r0 :: X0)) eqn:Hall;
    cbn [negb]; [|discriminate].
  destruct (length r0 =? 0) eqn:Hd; [discriminate|].
  destruct (existsb (existsb f_isinf) (r0 :: X0)) eqn:Hinf; [discriminate|].
  intros [= <-]. split; [reflexivity|]. split; [discriminate|].
  split; [apply Nat.eqb_neq in Hd; cbn; lia|]. split; [|reflexivity].
  apply List.Forall_forall. intros r Hr.
  rewrite forallb_forall in Hall. apply Nat.eqb_eq, Hall, Hr.
Qed.

Lemma check_array_accepts (X : list (list F)) :
  X <> [] -> 0 < n_features X ->
  Forall (fun r => length r = n_features X) X ->
  existsb (existsb f_isinf) X = false ->
  check_array X = Ok X.
Proof.
  intros Hne Hpos Hlen Hinf. unfold check_array.
  destruct X as [|r0 X0]; [congruence|].
  assert (Hall : forallb (fun r => length r =? length r0) (r0 :: X0) = true).
  { apply forallb_forall. intros r Hr. apply Nat.eqb_eq.
    rewrite List.Forall_forall in Hlen. apply (Hlen r Hr). }
  rewrite Hall, Hinf. cbn [negb].
  assert (Hd : (length r0 =? 0) = false) by (apply Nat.eqb_neq; cbn in Hpos; lia).
  rewrite Hd. reflexivity.
Qed.

(** The attributes [fit] stores: the minimum and the maximum of every
    column, taken over all the rows it is given. *)
Lemma fit_returns (X : list (list F)) :
  check_array X = Ok X ->
  exists s, fit X = Ok s /\
    length (scale_ s) = n_features X /\
    data_min_ s = map (fun c => nanmin (column c X)) (seq 0 (n_features X)) /\
    data_max_ s = map (fun c => nanmax (column c X)) (seq 0 (n_features X)).
Proof.
  intros Hc. unfold fit. rewrite Hc. cbn [res_bind].
  eexists. split; [reflexivity|]. cbn [scale_ data_min_ data_max_].
  split; [|split; reflexivity].
  unfold handle_zeros_in_scale. rewrite !length_map, length_seq. reflexivity.
Qed.

Lemma fit_transform_returns (X : list (list F)) :
  check_array X = Ok X ->
  exists s, fit X = Ok s /\ fit_transform X = Ok (s, map (transform_row s) X).
Proof.
  intros Hc. destruct (fit_returns X Hc) as (s & Hfit & Hlen & _).
  exists s. split; [exact Hfit|].
  unfold fit_transform, transform. rewrite Hfit. cbn [res_bind].
  rewrite Hc. cbn [res_bind]. rewrite Hlen, Nat.eqb_refl. reflexivity.
Qed.

Lemma transform_row_entry (s : fitted) (r : list F) (c : nat) :
  c < length (scale_ s) ->
  nth c (transform_row s r) f_nan
  = f_add (f_mul (nth c r f_nan) (nth c (scale_ s) f_nan)) (nth c (min_ s) f_nan).
Proof.
  intros Hc. unfold transform_row. rewrite nth_map_seq by exact Hc. reflexivity.
Qed.

Lemma scaled_row (s : fitted) (X : list (list F)) (i : nat) :
  i < length X -> nth i (map (transform_row s) X) [] = transform_row s (nth i X []).
Proof.
  intros Hi.
  rewrite (nth_indep _ [] (transform_row s [])) by (rewrite length_map; exact Hi).
  apply (map_nth (transform_row s)).
Qed.

(** One scaled value, from the value and from the minimum and the
    maximum of its column:
    [x * scale_ + min_], with [scale_ = (1 - 0) / range] and
    [min_ = 0 - data_min_ * scale_]. *)
Definition scaled (x mn mx : F) : F :=
  let rg := f_sub mx mn in
  let scale := f_div (f_sub f_one f_zero) (if f_lt rg f_tiny then f_one else rg) in
  f_add (f_mul x scale) (f_sub f_zero (f_mul mn scale)).

Lemma fit_transform_entry (X : list (list F)) (s : fitted) (i c : nat) :
  fit X = Ok s -> i < length X -> c < n_features X ->
  nth c (nth i (map (transform_row s) X) []) f_nan
  = scaled (nth c (nth i X []) f_nan) (nanmin (column c X)) (nanmax (column c X)).
Proof.
  unfold fit. destruct (check_array X) as [X0|] eqn:Hc; cbn [res_bind]; [|discriminate].
  destruct (check_array_spec X X0 Hc) as (-> & _).
  intros [= <-] Hi Hlt. rewrite scaled_row by exact Hi.
  rewrite transform_row_entry
    by (cbn [scale_]; unfold handle_zeros_in_scale;
        rewrite !length_map, length_seq; exact Hlt).
  cbn [scale_ min_]. unfold handle_zeros_in_scale. rewrite !map_map.
  repeat rewrite nth_map_seq by exact Hlt. reflexivity.
Qed.

Lemma column_by_row (c : nat) (X : list (list F)) :
  column c X = map (fun k => nth c (nth k X []) f_nan) (seq 0 (length X)).
Proof.
  unfold column. rewrite <- (map_nth_seq_gen [] X) at 1.
  rewrite map_map. reflexivity.
Qed.

(** *** The maximum of a column *)

(** [b] does not count against [v]: it is NaN, or below [v]. *)
Definition below (v b : F) : Prop := f_isnan b = true \/ f_lt b v = true.

Lemma fmax_cases (a b : F) : fmax a b = a \/ fmax a b = b.
Proof.
  unfold fmax. destruct (f_isnan b); [auto|].
  destruct (f_isnan a); [auto|]. destruct (f_lt a b); auto.
Qed.

Lemma fold_fmax_cases (l : list F) (acc : F) :
  fold_left fmax l acc = acc \/ In (fold_left fmax l acc) l.
Proof.
  revert acc. induction l as [|b l IH]; intros acc; [left; reflexivity|].
  cbn [fold_left]. destruct (IH (fmax acc b)) as [E|Hin].
  - rewrite E. destruct (fmax_cases acc b) as [-> | ->]; [left|right; left]; reflexivity.
  - right. right. exact Hin.
Qed.

Context {Laws : Float64Laws F}.

Lemma fmax_above (a v : F) :
  f_isnan v = false -> below v a -> fmax a v = v.
Proof.
  intros Hv Ha. unfold fmax. rewrite Hv.
  destruct (f_isnan a) eqn:En; [reflexivity|].
  destruct Ha as [Ha|Ha]; [congruence|]. rewrite Ha. reflexivity.
Qed.

Lemma fmax_keep (v b : F) :
  f_isnan v = false -> b = v \/ below v b -> fmax v b = v.
Proof.
  intros Hv Hb. unfold fmax. destruct (f_isnan b) eqn:En; [reflexivity|].
  rewrite Hv. destruct Hb as [->|[Hb|Hb]].
  - rewrite f_lt_irrefl. reflexivity.
  - congruence.
  - destruct (f_lt v b) eqn:E; [|reflexivity].
    pose proof (f_lt_trans b v b Hb E) as Hbb. rewrite f_lt_irrefl in Hbb.
    discriminate.
Qed.

(** A value that is not NaN and that every other entry is below is the
    maximum [np.nanmax] returns. *)
Lemma fold_fmax_top (v : F) (l : list F) (acc : F) :
  f_isnan v = false ->
  acc = v \/ below v acc ->
  Forall (fun b => b = v \/ below v b) l ->
  acc = v \/ In v l ->
  fold_left fmax l acc = v.
Proof.
  intros Hv. revert acc. induction l as [|b l IH]; intros acc Hacc Hl Hin.
  - destruct Hin as [->|[]]. reflexivity.
  - inversion Hl as [|b' l' Hb Hl']; subst. cbn [fold_left]. apply IH.
    + destruct (fmax_cases acc b) as [-> | ->]; assumption.
    + exact Hl'.
    + destruct Hacc as [->|Hacc].
      * left. apply fmax_keep; assumption.
      * destruct Hin as [->|[->|Hin]].
        -- left. apply fmax_keep; auto.
        -- left. apply fmax_above; assumption.
        -- right. exact Hin.
Qed.

Lemma nanmax_top (v : F) (l : list F) :
  f_isnan v = false -> Forall (fun b => b = v \/ below v b) l -> In v l ->
  nanmax l = v.
Proof.
  intros Hv Hl Hin. unfold nanmax. apply fold_fmax_top; auto.
  right. left. apply f_nan_isnan.
Qed.

(** The maximum is NaN or an entry of the column. *)
Lemma nanmax_cases (l : list F) : nanmax l = f_nan \/ In (nanmax l) l.
Proof. apply fold_fmax_cases. Qed.

(** *** NaN in the scaled matrix *)


End Scaler.

(** *** One entry of the matrix replaced *)

(** The matrix [X] with the value [v] at row [i], column [c]. *)
Definition set_entry {F : Type} `{Float64 F} (i c : nat) (v : F) (X : list (list F))
    : list (list F) :=
  map (fun k =>
         if k =? i
         then map (fun j => if j =? c then v else nth j (nth k X []) f_nan)
                  (seq 0 (length (nth k X [])))
         else nth k X [])
      (seq 0 (length X)).

Section Entry.
Context {F : Type} `{Float64 F}.

Lemma set_entry_length (i c : nat) (v : F) (X : list (list F)) :
  length (set_entry i c v X) = length X.
Proof. unfold set_entry. rewrite length_map, length_seq. reflexivity. Qed.

Lemma set_entry_row (i c : nat) (v : F) (X : list (list F)) (k : nat) :
  k < length X ->
  nth k (set_entry i c v X) []
  = if k =? i
    then map (fun j => if j =? c then v else nth j (nth k X []) f_nan)
             (seq 0 (length (nth k X [])))
    else nth k X [].
Proof.
  intros Hk. unfold set_entry. rewrite nth_map_seq by exact Hk. reflexivity.
Qed.

Lemma set_entry_row_length (i c : nat) (v : F) (X : list (list F)) (k : nat) :
  k < length X -> length (nth k (set_entry i c v X) []) = length (nth k X []).
Proof.
  intros Hk. rewrite set_entry_row by exact Hk.
  destruct (k =? i); [|reflexivity]. rewrite length_map, length_seq. reflexivity.
Qed.

Lemma set_entry_other_row (i c : nat) (v : F) (X : list (list F)) (k : nat) :
  k < length X -> k <> i -> nth k (set_entry i c v X) [] = nth k X [].
Proof.
  intros Hk Hne. rewrite set_entry_row by exact Hk.
  apply Nat.eqb_neq in Hne. rewrite Hne. reflexivity.
Qed.

Lemma set_entry_value (i c : nat) (v : F) (X : list (list F)) (k j : nat) :
  k < length X -> j < length (nth k X []) ->
  nth j (nth k (set_entry i c v X) []) f_nan
  = if (k =? i) && (j =? c) then v else nth j (nth k X []) f_nan.
Proof.
  intros Hk Hj. rewrite set_entry_row by exact Hk.
  destruct (k =? i); [|reflexivity]. cbn [andb].
  rewrite nth_map_seq by exact Hj. reflexivity.
Qed.

Lemma set_entry_shape (i c : nat) (v : F) (X : list (list F)) :
  map (@length F) (set_entry i c v X) = map (@length F) X.
Proof.
  apply (nth_ext _ _ 0 0).
  - rewrite !length_map. apply set_entry_length.
  - intros k Hk. rewrite length_map, set_entry_length in Hk.
    change 0 with (length (@nil F)).
    rewrite !(map_nth (@length F)). apply set_entry_row_length, Hk.
Qed.

Lemma n_features_shape (X X' : list (list F)) :
  map (@length F) X = map (@length F) X' -> n_features X = n_features X'.
Proof.
  destruct X as [|r X], X' as [|r' X']; try discriminate; [reflexivity|].
  cbn. intros [= Hr _]. exact Hr.
Qed.

Lemma Forall_length_shape (X X' : list (list F)) (n : nat) :
  map (@length F) X = map (@length F) X' ->
  Forall (fun r => length r = n) X -> Forall (fun r => length r = n) X'.
Proof.
  revert X'. induction X as [|r X IH]; intros [|r' X'] Hs Hall; try discriminate.
  - constructor.
  - cbn in Hs. injection Hs as Hr Hrest. inversion Hall; subst.
    constructor; [congruence|]. apply IH; assumption.
Qed.

(** Replacing an entry by a value that is no infinity keeps the matrix
    acceptable. *)
Lemma set_entry_check (i c : nat) (v : F) (X : list (list F)) :
  f_isinf v = false -> check_array X = Ok X ->
  check_array (set_entry i c v X) = Ok (set_entry i c v X).
Proof.
  intros Hv Hc. destruct (check_array_spec X X Hc) as (_ & Hne & Hpos & Hlen & Hinf).
  pose proof (set_entry_shape i c v X) as Hs.
  apply check_array_accepts.
  - intros E. apply (f_equal (@length (list F))) in E.
    rewrite set_entry_length in E. destruct X; [congruence|discriminate].
  - rewrite (n_features_shape _ _ Hs). exact Hpos.
  - rewrite (n_features_shape _ _ Hs).
    apply (Forall_length_shape X _ _ (eq_sym Hs) Hlen).
  - destruct (existsb (existsb f_isinf) (set_entry i c v X)) eqn:E; [|reflexivity].
    apply existsb_exists in E as (r & Hr & Er).
    apply existsb_exists in Er as (w & Hw & Ew).
    destruct (In_nth_lt _ r [] Hr) as (k & Hk & Ek).
    rewrite set_entry_length in Hk.
    destruct (In_nth_lt _ w f_nan Hw) as (j & Hj & Ej).
    rewrite <- Ek in Hj, Ej. rewrite set_entry_row_length in Hj by exact Hk.
    rewrite set_entry_value in Ej by assumption.
    destruct ((k =? i) && (j =? c)); [congruence|].
    assert (Hex : existsb (existsb f_isinf) X = true); [|congruence].
    apply existsb_exists. exists (nth k X []). split; [apply nth_In, Hk|].
    apply existsb_exists. exists w. split; [rewrite <- Ej; apply nth_In, Hj|exact Ew].
Qed.

(** The column of the new entry. *)
Lemma set_entry_column (i c : nat) (v : F) (X : list (list F)) :
  Forall (fun r => length r = n_features X) X -> c < n_features X ->
  column c (set_entry i c v X)
  = map (fun k => if k =? i then v else nth c (nth k X []) f_nan) (seq 0 (length X)).
Proof.
  intros Hlen Hc. rewrite column_by_row, set_entry_length.
  apply map_ext_in. intros k Hk. apply in_seq in Hk.
  assert (Hrow : length (nth k X []) = n_features X).
  { rewrite List.Forall_forall in Hlen. apply Hlen, nth_In. lia. }
  rewrite set_entry_value by lia. rewrite Nat.eqb_refl, andb_true_r. reflexivity.
Qed.

End Entry.

(** *** The cell *)

Lemma NoDup_app_disjoint (l1 l2 : list nat) (a : nat) :
  List.NoDup (l1 ++ l2) -> In a l1 -> In a l2 -> False.
Proof.
  induction l1 as [|x l1 IH]; intros Hnd H1 H2; [contradiction|].
  cbn [app] in Hnd. inversion Hnd as [|x' l' Hx Hnd']; subst.
  destruct H1 as [->|H1].
  - apply Hx, in_or_app. right. exact H2.
  - exact (IH Hnd' H1 H2).
Qed.

Section Cell.
Context {F R : Type} `{Float64 F} `{RandomState R}.

(** Whether the split is returned, and the rows it puts in either part,
    depend on the labels and on the number of rows of the matrix. *)
Lemma preprocess_same_rows (X X' : list (list F)) (y : list nat)
    (p : preprocessed (F:=F)) :
  preprocess (R:=R) X y = Ok p -> check_array X' = Ok X' -> length X' = length X ->
  exists p',
    preprocess (R:=R) X' y = Ok p' /\
    train_idx (parts p') = train_idx (parts p) /\
    test_idx (parts p') = test_idx (parts p).
Proof.
  intros Hp Hc' Hlen.
  destruct (preprocess_ok (R:=R) X y p Hp) as (_ & _ & Hsc & Hsp).
  destruct (fit_transform_returns X' Hc') as (s' & _ & Hft).
  unfold preprocess. rewrite Hft. cbn [res_bind fst snd].
  pose proof (train_test_split_rows (R:=R) [] [] (map (transform_row s') X')
                (X_scaled p) y 42) as Hrows.
  rewrite Hsc, !length_map in Hrows. specialize (Hrows Hlen).
  rewrite <- Hsc, Hsp in Hrows.
  destruct (train_test_split [] (map (transform_row s') X') y (2 # 10) 42) as [sp'|];
    [|contradiction].
  cbn [res_bind]. eexists. split; [reflexivity|]. exact Hrows.
Qed.

Context {RLaws : RandomStateLaws R}.

(** The split is returned when every class has two members and neither
    part is smaller than the number of classes. *)
Lemma train_test_split_returns {A} (d : A) (X : list A) (y : list nat) :
  length X = length y -> 0 < length y ->
  forallb (fun c => 2 <=? c) (bincount (unique y) y) = true ->
  length (unique y) <= (length y + 4) / 5 ->
  length (unique y) <= length y - (length y + 4) / 5 ->
  exists sp, train_test_split (R:=R) d X y (2 # 10) 42 = Ok sp.
Proof.
  intros Hlen Hpos Hmin Hte Htr.
  unfold train_test_split. rewrite Hlen, Nat.eqb_refl. cbn [negb].
  assert (Hone : 1 <= length (unique y)).
  { destruct (unique y) eqn:Eu; [|cbn; lia].
    destruct y as [|v y']; [cbn in Hpos; lia|].
    assert (Hv : In v (unique (v :: y'))) by (apply unique_In, in_eq).
    rewrite Eu in Hv. contradiction. }
  rewrite validate_shuffle_split_eq.
  destruct (length y - (length y + 4) / 5 =? 0) eqn:Ez;
    [apply Nat.eqb_eq in Ez; lia|].
  cbn [res_bind fst snd].
  destruct (stratified_shuffle_split_total (R:=R) y (length y - (length y + 4) / 5)
              ((length y + 4) / 5) 42 Hmin Htr Hte) as (train & test & Es).
  rewrite Es. cbn [res_bind]. eauto.
Qed.

Lemma preprocess_returns (X : list (list F)) (y : list nat) :
  check_array X = Ok X ->
  length X = length y -> 0 < length y ->
  forallb (fun c => 2 <=? c) (bincount (unique y) y) = true ->
  length (unique y) <= (length y + 4) / 5 ->
  length (unique y) <= length y - (length y + 4) / 5 ->
  exists p, preprocess (R:=R) X y = Ok p.
Proof.
  intros Hc Hlen Hpos Hmin Hte Htr.
  destruct (fit_transform_returns X Hc) as (s & _ & Hft).
  unfold preprocess. rewrite Hft. cbn [res_bind fst snd].
  destruct (train_test_split_returns [] (map (transform_row s) X) y) as (sp & Hsp);
    try assumption; [rewrite length_map; exact Hlen|].
  rewrite Hsp. cbn [res_bind]. eauto.
Qed.

(** The two parts of a split that was returned. *)
Lemma split_parts (X : list (list F)) (y : list nat) (p : preprocessed (F:=F)) :
  preprocess (R:=R) X y = Ok p ->
  length X = length y /\
  Permutation (train_idx (parts p) ++ test_idx (parts p)) (seq 0 (length X)) /\
  length (test_idx (parts p)) = (length X + 4) / 5 /\
  length (train_idx (parts p)) = length X - (length X + 4) / 5 /\
  (forall i, In i (test_idx (parts p)) -> i < length X /\ ~ In i (train_idx (parts p))) /\
  (forall i, In i (train_idx (parts p)) -> i < length X) /\
  X_train (parts p) = safe_indexing [] (X_scaled p) (train_idx (parts p)) /\
  X_test (parts p) = safe_indexing [] (X_scaled p) (test_idx (parts p)).
Proof.
  intros Hp. destruct (preprocess_ok (R:=R) X y p Hp) as (_ & _ & Hsc & Hsp).
  destruct (train_test_split_spec [] (X_scaled p) y 42 (parts p) Hsp)
    as (Hl & EXtr & EXte & _ & _ & Hperm & Hlte & Hltr & _).
  rewrite Hsc, length_map in Hl. rewrite <- Hl in Hperm, Hlte, Hltr.
  split; [exact Hl|]. split; [exact Hperm|]. split; [exact Hlte|]. split; [exact Hltr|].
  assert (Hnd : List.NoDup (train_idx (parts p) ++ test_idx (parts p)))
    by (apply (Permutation_NoDup (Permutation_sym Hperm)), seq_NoDup).
  split; [|split; [|split; assumption]].
  - intros i Hi. split.
    + assert (Hin : In i (seq 0 (length X)))
        by (apply (Permutation_in _ Hperm), in_or_app; right; exact Hi).
      apply in_seq in Hin. lia.
    + intros Htr. exact (NoDup_app_disjoint _ _ i Hnd Htr Hi).
  - intros i Hi.
    assert (Hin : In i (seq 0 (length X)))
      by (apply (Permutation_in _ Hperm), in_or_app; left; exact Hi).
    apply in_seq in Hin. lia.
Qed.

End Cell.

(** *** Test rows and the scaling parameters *)

Section Leak.
Context {F R : Type} `{Float64 F} `{RandomState R}.
Context {Laws : Float64Laws F} {RLaws : RandomStateLaws R}.

(** C2, as the code has it: the minima and maxima are taken over every
    row of the dataset, before the split, and the train and test rows
    are rows of the one matrix scaled with them.  The test part is never
    empty, and its rows do contribute: putting into one feature of a
    test row a value above all the values of that feature leaves the
    split and the train rows of the dataset as they were, and changes
    the maximum the scaler uses for the feature to that value. *)
Theorem test_rows_set_the_scaling_parameters
    (X : list (list F)) (y : list nat) (p : preprocessed (F:=F)) :
  preprocess (R:=R) X y = Ok p ->
  data_min_ (scaler p) = map (fun c => nanmin (column c X)) (seq 0 (n_features X)) /\
  data_max_ (scaler p) = map (fun c => nanmax (column c X)) (seq 0 (n_features X)) /\
  X_scaled p = map (transform_row (scaler p)) X /\
  X_train (parts p) = safe_indexing [] (X_scaled p) (train_idx (parts p)) /\
  X_test (parts p) = safe_indexing [] (X_scaled p) (test_idx (parts p)) /\
  test_idx (parts p) <> [] /\
  forall i c v,
    In i (test_idx (parts p)) -> c < n_features X ->
    f_isnan v = false -> f_isinf v = false ->
    (forall b, In b (column c X) -> below v b) ->
    exists p',
      preprocess (R:=R) (set_entry i c v X) y = Ok p' /\
      train_idx (parts p') = train_idx (parts p) /\
      test_idx (parts p') = test_idx (parts p) /\
      safe_indexing [] (set_entry i c v X) (train_idx (parts p'))
      = safe_indexing [] X (train_idx (parts p)) /\
      nth c (data_max_ (scaler p')) f_nan = v /\
      nth c (data_max_ (scaler p)) f_nan <> v.
Proof.
  intros Hp.
  destruct (preprocess_ok (R:=R) X y p Hp) as (Hc & Hfit & Hsc & _).
  destruct (fit_returns X Hc) as (s & Hfit' & _ & Hmin & Hmax).
  assert (s = scaler p) by congruence. subst s.
  destruct (split_parts X y p Hp)
    as (_ & _ & Hlte & _ & Htest & Htrain & EXtr & EXte).
  destruct (check_array_spec X X Hc) as (_ & Hne & _ & Hlen & _).
  split; [exact Hmin|]. split; [exact Hmax|]. split; [exact Hsc|].
  split; [exact EXtr|]. split; [exact EXte|]. split.
  { intros E. rewrite E in Hlte. cbn [length] in Hlte.
    assert (0 < (length X + 4) / 5); [|lia].
    apply Nat.div_str_pos. destruct X; [congruence|cbn; lia]. }
  intros i c v Hi Hcn Hvn Hvi Hbelow.
  destruct (Htest i Hi) as (HiX & Hnot).
  pose proof (set_entry_check i c v X Hvi Hc) as Hc'.
  destruct (preprocess_same_rows (R:=R) X (set_entry i c v X) y p Hp Hc'
              (set_entry_length i c v X)) as (p' & Hp' & Etr & Ete).
  exists p'. split; [exact Hp'|]. split; [exact Etr|]. split; [exact Ete|].
  split; [|split].
  - rewrite Etr. unfold safe_indexing. apply map_ext_in. intros k Hk.
    apply set_entry_other_row; [apply Htrain, Hk|].
    intros ->. contradiction.
  - destruct (preprocess_ok (R:=R) _ y p' Hp') as (_ & Hfitp & _).
    destruct (fit_returns _ Hc') as (s' & Hf' & _ & _ & Hmax').
    assert (s' = scaler p') by congruence. subst s'.
    rewrite Hmax', (n_features_shape _ _ (set_entry_shape i c v X)).
    rewrite nth_map_seq by exact Hcn.
    rewrite set_entry_column by assumption.
    apply nanmax_top; [exact Hvn| |].
    + apply List.Forall_forall. intros b Hb.
      apply in_map_iff in Hb as (k & <- & Hk).
      destruct (k =? i); [left; reflexivity|right].
      apply Hbelow. rewrite column_by_row.
      apply (in_map (fun k0 => nth c (nth k0 X []) f_nan)), Hk.
    + apply in_map_iff. exists i. rewrite Nat.eqb_refl.
      split; [reflexivity|]. apply in_seq. lia.
  - rewrite Hmax, nth_map_seq by exact Hcn. intros E.
    destruct (nanmax_cases (column c X)) as [En|Hin].
    + rewrite E in En. rewrite En, f_nan_isnan in Hvn. discriminate.
    + rewrite E in Hin. destruct (Hbelow v Hin) as [Hn|Hlt]; [congruence|].
      rewrite f_lt_irrefl in Hlt. discriminate.
Qed.

End Leak.

(** *** Missing values *)

Section Missing.
Context {F R : Type} `{Float64 F} `{RandomState R} {Laws : Float64Laws F}.






End Missing.

(** *** Runs in binary64 *)

(** Ten images of 64 pixels: [firsts] gives the first pixel of every
    image, the others are 0. *)
Definition images (firsts : list float) : list (list float) :=
  map (fun v => v :: repeat 0%float 63) firsts.

Definition ten_images : list (list float) :=
  images [1; 6; 2; 3; 4; 5; 1; 6; 2; 3]%float.


(** Ten images, the image [i] with the pixel [i] at 1 and the others
    at 0. *)
Definition one_hot_images : list (list float) :=
  map (fun i => map (fun j => if i =? j then 1%float else 0%float) (seq 0 64))
      (seq 0 10).

Lemma ten_labels_split_conditions :
  0 < length ten_labels /\
  forallb (fun c => 2 <=? c) (bincount (unique ten_labels) ten_labels) = true /\
  length (unique ten_labels) <= (length ten_labels + 4) / 5 /\
  length (unique ten_labels) <= length ten_labels - (length ten_labels + 4) / 5.
Proof. repeat split; vm_compute; try reflexivity; lia. Qed.

(** Cell 9 returns on ten acceptable images with the labels
    [ten_labels], whatever the generator. *)
Lemma ten_images_preprocessed {R : Type} `{RandomState R} {RLaws : RandomStateLaws R}
    (X : list (list float)) :
  check_array X = Ok X -> length X = 10 ->
  exists p, preprocess (R:=R) X ten_labels = Ok p.
Proof.
  intros Hc Hl. destruct ten_labels_split_conditions as (Hpos & Hmin & Hte & Htr).
  apply preprocess_returns; assumption.
Qed.

Lemma test_rows_set_the_scaling_parameters_witness :
  exists p,
    preprocess (R:=nat) ten_images ten_labels = Ok p /\
    data_min_ (scaler p)
    = map (fun c => nanmin (column c ten_images)) (seq 0 (n_features ten_images)) /\
    data_max_ (scaler p)
    = map (fun c => nanmax (column c ten_images)) (seq 0 (n_features ten_images)) /\
    X_scaled p = map (transform_row (scaler p)) ten_images /\
    X_train (parts p) = safe_indexing [] (X_scaled p) (train_idx (parts p)) /\
    X_test (parts p) = safe_indexing [] (X_scaled p) (test_idx (parts p)) /\
    test_idx (parts p) <> [] /\
    forall i c v,
      In i (test_idx (parts p)) -> c < n_features ten_images ->
      f_isnan v = false -> f_isinf v = false ->
      (forall b, In b (column c ten_images) -> below v b) ->
      exists p',
        preprocess (R:=nat) (set_entry i c v ten_images) ten_labels = Ok p' /\
        train_idx (parts p') = train_idx (parts p) /\
        test_idx (parts p') = test_idx (parts p) /\
        safe_indexing [] (set_entry i c v ten_images) (train_idx (parts p'))
        = safe_indexing [] ten_images (train_idx (parts p)) /\
        nth c (data_max_ (scaler p')) f_nan = v /\
        nth c (data_max_ (scaler p)) f_nan <> v.
Proof.
  eexists. split; [vm_compute; reflexivity|].
  apply (test_rows_set_the_scaling_parameters (Laws := FloatFacts.Binary64Laws)
           (R:=nat) ten_images ten_labels).
  vm_compute. reflexivity.
Defined.

Lemma one_hot_entry (i c : nat) :
  i < 10 -> c < 64 ->
  nth c (nth i one_hot_images []) f_nan = if i =? c then 1%float else 0%float.
Proof.
  intros Hi Hc. unfold one_hot_images.
  rewrite (nth_map_seq _ [] 10 i Hi).
  exact (nth_map_seq (fun j => if i =? j then 1%float else 0%float) f_nan 64 c Hc).
Qed.

(** C2 as stated fails: on ten images of which the image [i] alone has a
    value above 0 at the pixel [i], whatever the generator, the split
    puts some image [c] in the test part; the maximum the scaler uses
    for the pixel [c] is 1, the value of that test row, while the
    maximum of the pixel over the train rows is 0. *)
Lemma scaling_parameters_are_not_those_of_the_train_rows :
  exists (X : list (list float)) (y : list nat),
    forall (R : Type) (RS : RandomState R), RandomStateLaws R ->
      exists p c,
        preprocess (R:=R) X y = Ok p /\
        c < n_features X /\ In c (test_idx (parts p)) /\
        nth c (data_max_ (scaler p)) f_nan = 1%float /\
        nanmax (column c (safe_indexing [] X (train_idx (parts p)))) = 0%float.
Proof.
  exists one_hot_images, ten_labels. intros R RS RLaws.
  assert (Hc : check_array one_hot_images = Ok one_hot_images)
    by (vm_compute; reflexivity).
  destruct (ten_images_preprocessed (R:=R) one_hot_images Hc eq_refl) as (p & Hp).
  destruct (split_parts one_hot_images ten_labels p Hp)
    as (_ & _ & Hlte & Hltr & Htest & Htrain & _).
  change (length one_hot_images) with 10 in Hlte, Hltr, Htest, Htrain.
  change ((10 + 4) / 5) with 2 in Hlte, Hltr. change (10 - 2) with 8 in Hltr.
  destruct (test_idx (parts p)) as [|c rest] eqn:Etest; [discriminate|].
  destruct (Htest c (in_eq _ _)) as (Hc10 & Hnot).
  exists p, c. split; [exact Hp|].
  split; [change (n_features one_hot_images) with 64; lia|].
  split; [rewrite Etest; apply in_eq|].
  destruct (preprocess_ok (R:=R) _ _ p Hp) as (_ & Hfit & _).
  destruct (fit_returns one_hot_images Hc) as (s & Hfit' & _ & _ & Hmax).
  assert (s = scaler p) by congruence. subst s.
  pose proof FloatFacts.Binary64Laws as Laws.
  split.
  - rewrite Hmax. change (n_features one_hot_images) with 64.
    rewrite nth_map_seq by lia.
    apply nanmax_top; [reflexivity| |].
    + apply List.Forall_forall. intros b Hb. rewrite column_by_row in Hb.
      apply in_map_iff in Hb as (k & <- & Hk). apply in_seq in Hk.
      change (length one_hot_images) with 10 in Hk.
      rewrite one_hot_entry by lia.
      destruct (k =? c); [left; reflexivity|right; right; reflexivity].
    + rewrite column_by_row. apply in_map_iff. exists c.
      split; [|apply in_seq; change (length one_hot_images) with 10; lia].
      rewrite one_hot_entry by lia. rewrite Nat.eqb_refl. reflexivity.
  - unfold column, safe_indexing. rewrite map_map.
    apply nanmax_top; [reflexivity| |].
    + apply List.Forall_forall. intros b Hb.
      apply in_map_iff in Hb as (k & <- & Hk). left.
      rewrite one_hot_entry by (try apply Htrain; try exact Hk; lia).
      destruct (k =? c) eqn:E; [|reflexivity].
      apply Nat.eqb_eq in E. subst k. contradiction.
    + destruct (train_idx (parts p)) as [|k rest'] eqn:Etrain; [discriminate|].
      left. rewrite one_hot_entry by (try (apply Htrain; left; reflexivity); lia).
      destruct (k =? c) eqn:E; [|reflexivity].
      apply Nat.eqb_eq in E. subst k. exfalso. apply Hnot. left. reflexivity.
Qed.



(** In binary64, in every dataset, a value 6 of a feature whose minimum
    is 1 and whose maximum is 6 is scaled to the next float above 1. *)
Lemma six_over_one_exceeds_one {R : Type} `{RandomState R}
    (X : list (list float)) (y : list nat) (p : preprocessed (F:=float)) (i c : nat) :
  preprocess (R:=R) X y = Ok p -> i < length X -> c < n_features X ->
  nanmin (column c X) = 1%float -> nanmax (column c X) = 6%float ->
  nth c (nth i X []) f_nan = 6%float ->
  nth c (nth i (X_scaled p) []) f_nan = 0x1.0000000000001p+0%float.
Proof.
  intros Hp Hi Hc Hmin Hmax Hx.
  destruct (preprocess_ok (R:=R) X y p Hp) as (_ & Hfit & Hsc & _).
  rewrite Hsc, (fit_transform_entry X (scaler p) i c Hfit Hi Hc), Hmin, Hmax, Hx.
  vm_compute. reflexivity.
Qed.

(** C3 at the failing input: on ten images whose first pixel has the
    minimum 1 and the maximum 6, whatever the generator, cell 9 returns
    a scaled matrix in which the first pixel of the second image, the 6,
    is [6 * 0.2 + (0 - 1 * 0.2)], the next float above 1; the row is a
    row of Train or of Test. *)
Lemma scaled_value_exceeds_one :
  exists (X : list (list float)) (y : list nat),
    forall (R : Type) (RS : RandomState R), RandomStateLaws R ->
      exists p,
        preprocess (R:=R) X y = Ok p /\
        nth 0 (nth 1 X []) f_nan = 6%float /\
        nth 0 (nth 1 (X_scaled p) []) f_nan = 0x1.0000000000001p+0%float /\
        f_lt f_one (nth 0 (nth 1 (X_scaled p) []) f_nan) = true /\
        In (nth 1 (X_scaled p) []) (X_train (parts p) ++ X_test (parts p)).
Proof.
  exists ten_images, ten_labels. intros R RS RLaws.
  assert (Hc : check_array ten_images = Ok ten_images) by (vm_compute; reflexivity).
  destruct (ten_images_preprocessed (R:=R) ten_images Hc eq_refl) as (p & Hp).
  exists p. split; [exact Hp|]. split; [reflexivity|].
  destruct (split_parts ten_images ten_labels p Hp)
    as (_ & Hperm & _ & _ & _ & _ & EXtr & EXte).
  destruct (preprocess_ok (R:=R) _ _ p Hp) as (_ & Hfit & Hsc & _).
  assert (Hval : nth 0 (nth 1 (X_scaled p) []) f_nan = 0x1.0000000000001p+0%float).
  { apply (six_over_one_exceeds_one (R:=R) ten_images ten_labels p 1 0 Hp);
      vm_compute; try reflexivity; lia. }
  split; [exact Hval|]. split; [rewrite Hval; reflexivity|].
  rewrite EXtr, EXte. unfold safe_indexing. rewrite <- map_app.
  apply in_map_iff. exists 1. split; [reflexivity|].
  apply (Permutation_in _ (Permutation_sym Hperm)), in_seq. cbn. lia.
Qed.

End Cell9Facts.
